(** * SRM-UGC edge API: counter merge, interactions, download proxy, submission intake

    Shallow embedding of the worker in [src/unnamed/part_000] (the revision
    with ratings, [/content/{id}] and the extended submission fields), and
    the properties of its handlers.

    Layout:
    - [Js]      the fragment of ECMAScript the handlers rely on: numbers,
                strings, JSON values, [String(..)], [Number(..)], [||], [??],
                [toFixed(1)], [trim];
    - [Io]      the effects of a handler (KV reads and writes, outbound
                [fetch] calls, the clock, thrown errors) as a finite program
                tree, and its interpreter over a world of two KV namespaces
                and a log of effects;
    - [Worker]  the handlers, function by function;
    - the vocabulary of the statements, then the lemmas and theorems.

    Not embedded: the CORS header construction ([corsHeaders] compiles the
    configured origin patterns into regular expressions; the handlers and the
    router take its result), and the text that [issueSummary] and [bullets]
    render from the metadata and the asset list.

    Modelling boundary.  A JS number is an IEEE binary64 value; here a finite
    number is an exact rational ([Qc], canonical, so that equality is
    Leibniz), next to [NaN] and the two infinities.  Binary64 rounding, the
    sign of zero and the exponent notation that [String] uses for very large
    or very small magnitudes are outside the model: the statements that
    depend on them keep to the integers up to 2^53 ([exact_integer]), compare
    with the bounds of the rating as binary64 rounds ([before_one],
    [after_five]) and, for the one rounding to a decimal digit, allow the tie
    to fall on either side ([tie_slack]).  A text is the sequence of its
    UTF-8 bytes: [trim] removes
    the white space of ECMAScript, ASCII or not, and [sanitize] counts UTF-16
    code units, while the two case conversions are those of the ASCII
    letters.  [String(v)] and [Number(v)] throw on an object that has a
    [toString] property of its own; the model converts it like any other
    object, and the statements are about values that convert ([converts]).
    One handler runs at a time: the races between concurrent requests that
    the design accepts are not modelled, and neither is the expiry of a
    rate-limit marker (a marker is present until the end of its window).
    The calls of a [Promise.all] are taken in array order, and when one of
    them throws, the calls that the others would still make are not
    logged.  An outbound call is always answered: a [fetch] that rejects is
    not modelled. *)

From Stdlib Require Import Ascii String QArith Qabs Qcanon Qround Lqa DecimalString DecimalN.
From stdpp Require Import gmap strings list numbers.

Local Open Scope string_scope.
Set Warnings "-register-all".

(** ** The ECMAScript fragment *)

Module Js.

(** *** Numbers *)

Inductive number : Type :=
| NaN
| Inf (neg : bool)
| Fin (q : Qc).

Definition num_of_Z (z : Z) : number := Fin (Q2Qc (inject_Z z)).
Definition num_of_N (n : N) : number := num_of_Z (Z.of_N n).

Definition Qc_ltb (p q : Qc) : bool :=
  match (p ?= q)%Qc with Lt => true | _ => false end.

Definition Qc_is_zero (q : Qc) : bool := Qc_eq_bool q (Q2Qc 0).

(** [x + y] *)
Definition num_add (x y : number) : number :=
  match x, y with
  | NaN, _ | _, NaN => NaN
  | Inf a, Inf b => if Bool.eqb a b then Inf a else NaN
  | Inf a, Fin _ => Inf a
  | Fin _, Inf b => Inf b
  | Fin p, Fin q => Fin (p + q)%Qc
  end.

(** [x * y] *)
Definition num_mul (x y : number) : number :=
  match x, y with
  | NaN, _ | _, NaN => NaN
  | Inf a, Inf b => Inf (xorb a b)
  | Inf a, Fin q | Fin q, Inf a =>
      if Qc_is_zero q then NaN else Inf (xorb a (Qc_ltb q (Q2Qc 0)))
  | Fin p, Fin q => Fin (p * q)%Qc
  end.

(** [x / y]; a zero divisor is the positive zero. *)
Definition num_div (x y : number) : number :=
  match x, y with
  | NaN, _ | _, NaN => NaN
  | Inf _, Inf _ => NaN
  | Inf a, Fin q => Inf (xorb a (Qc_ltb q (Q2Qc 0)))
  | Fin _, Inf _ => Fin (Q2Qc 0)
  | Fin p, Fin q =>
      if Qc_is_zero q
      then (if Qc_is_zero p then NaN else Inf (Qc_ltb p (Q2Qc 0)))
      else Fin (p / q)%Qc
  end.

(** [x < y]: false as soon as one side is [NaN]. *)
Definition num_lt (x y : number) : bool :=
  match x, y with
  | NaN, _ | _, NaN => false
  | Inf a, Inf b => a && negb b
  | Inf a, Fin _ => a
  | Fin _, Inf b => negb b
  | Fin p, Fin q => Qc_ltb p q
  end.

(** [x > y] *)
Definition num_gt (x y : number) : bool := num_lt y x.

(** [x === y] on numbers: [NaN] differs from itself. *)
Definition num_eqb (x y : number) : bool :=
  match x, y with
  | Inf a, Inf b => Bool.eqb a b
  | Fin p, Fin q => Qc_eq_bool p q
  | _, _ => false
  end.

(** [x >= y] *)
Definition num_ge (x y : number) : bool := num_lt y x || num_eqb x y.

(** *** Strings *)

(** A text is the sequence of its UTF-8 bytes.  [chars] cuts it into its
    characters: a byte below 128 is a character, and a byte from 128 up
    takes the continuation bytes (128 to 191) that follow it. *)
Definition is_ascii (a : ascii) : bool := (N_of_ascii a <? 128)%N.

Definition is_continuation (a : ascii) : bool :=
  let n := N_of_ascii a in
  ((128 <=? n) && (n <=? 191))%N.

Definition continues (c : string) : bool :=
  match c with
  | String a _ => is_continuation a
  | EmptyString => false
  end.

Fixpoint chars (s : string) : list string :=
  match s with
  | String a r =>
      match chars r with
      | c :: l =>
          if negb (is_ascii a) && continues c then String a c :: l
          else String a EmptyString :: c :: l
      | [] => [String a EmptyString]
      end
  | EmptyString => []
  end.

Definition unchars (l : list string) : string :=
  fold_right String.append EmptyString l.

(** The ASCII white space: TAB, LF, VT, FF, CR and SP. *)
Definition is_ws (a : ascii) : bool :=
  let n := N_of_ascii a in
  ((9 <=? n) && (n <=? 13) || (n =? 32))%N.

(** White space removed by [trim] and skipped by [Number] ([WhiteSpace] and
    [LineTerminator]): the ASCII white space, U+00A0, U+1680, U+2000 to
    U+200A, U+2028, U+2029, U+202F, U+205F, U+3000 and U+FEFF. *)
Definition is_space (c : string) : bool :=
  match c with
  | String a EmptyString => is_ws a
  | String a (String b EmptyString) =>
      ((N_of_ascii a =? 194) && (N_of_ascii b =? 160))%N
  | String a (String b (String d EmptyString)) =>
      let x := N_of_ascii a in
      let y := N_of_ascii b in
      let z := N_of_ascii d in
      ((x =? 225) && (y =? 154) && (z =? 128)
       || (x =? 226) && (y =? 128)
          && ((128 <=? z) && (z <=? 138) || (z =? 168) || (z =? 169) || (z =? 175))
       || (x =? 226) && (y =? 129) && (z =? 159)
       || (x =? 227) && (y =? 128) && (z =? 128)
       || (x =? 239) && (y =? 187) && (z =? 191))%N
  | _ => false
  end.

Fixpoint trim_start (l : list string) : list string :=
  match l with
  | c :: r => if is_space c then trim_start r else l
  | [] => []
  end.

Fixpoint trim_end (l : list string) : list string :=
  match l with
  | c :: r =>
      match trim_end r with
      | [] => if is_space c then [] else [c]
      | r' => c :: r'
      end
  | [] => []
  end.

(** [s.trim()] *)
Definition trim (s : string) : string :=
  unchars (trim_end (trim_start (chars s))).

Definition is_empty (s : string) : bool :=
  match s with EmptyString => true | _ => false end.

(** [s.includes(t)] *)
Fixpoint includes (t s : string) : bool :=
  String.prefix t s ||
  match s with
  | String _ r => includes t r
  | EmptyString => false
  end.

(** Decimal digits of a natural number, the way [String] prints an integer. *)
Definition digits (n : N) : string := NilZero.string_of_uint (N.to_uint n).

Definition is_digit (a : ascii) : bool :=
  let n := N_of_ascii a in ((48 <=? n) && (n <=? 57))%N.

(** Value of a possibly empty run of decimal digits. *)
Definition digits_val (s : string) : option N :=
  N.of_uint <$> NilEmpty.uint_of_string s.

(** Cut a string at the first character that satisfies [p]: the part before
    it, and the part after it when there is such a character. *)
Fixpoint cut (p : ascii -> bool) (s : string) : string * option string :=
  match s with
  | String a r =>
      if p a then (EmptyString, Some r)
      else let '(h, t) := cut p r in (String a h, t)
  | EmptyString => (EmptyString, None)
  end.

Definition is_dot (a : ascii) : bool := Ascii.eqb a ".".
Definition is_exp (a : ascii) : bool := Ascii.eqb a "e" || Ascii.eqb a "E".

(** *** [Number(s)] on a string (StringToNumber)

    White space is trimmed, the empty string is 0, then either a binary,
    octal or hexadecimal integer literal, or a signed decimal literal with an
    optional fraction and exponent, or a signed [Infinity]; anything else is
    [NaN]. *)

Definition num_neg (x : number) : number :=
  match x with
  | NaN => NaN
  | Inf b => Inf (negb b)
  | Fin q => Fin (- q)%Qc
  end.

Definition pow10 (e : Z) : Qc := Q2Qc (Qpower (inject_Z 10) e).

(** digits, [digits.], [digits.digits] or [.digits] *)
Definition parse_mantissa (s : string) : option Qc :=
  let '(ip, fp) := cut is_dot s in
  let fp := default EmptyString fp in
  if is_empty ip && is_empty fp then None
  else
    i ← digits_val ip;
    f ← digits_val fp;
    Some (Q2Qc (inject_Z (Z.of_N i)) +
          Q2Qc (inject_Z (Z.of_N f)) * pow10 (- Z.of_nat (String.length fp)))%Qc.

Definition parse_exponent (s : string) : option Z :=
  match s with
  | String "+" r => if is_empty r then None else Z.of_N <$> digits_val r
  | String "-" r =>
      if is_empty r then None else (fun n => - Z.of_N n)%Z <$> digits_val r
  | _ => if is_empty s then None else Z.of_N <$> digits_val s
  end.

Definition parse_unsigned_decimal (s : string) : option number :=
  if String.eqb s "Infinity" then Some (Inf false)
  else
    let '(m, e) := cut is_exp s in
    q ← parse_mantissa m;
    match e with
    | None => Some (Fin q)
    | Some es => z ← parse_exponent es; Some (Fin (q * pow10 z)%Qc)
    end.

Definition parse_decimal (s : string) : option number :=
  match s with
  | String "+" r => parse_unsigned_decimal r
  | String "-" r => num_neg <$> parse_unsigned_decimal r
  | _ => parse_unsigned_decimal s
  end.

(** Value of a character as a digit in the given radix. *)
Definition radix_digit (radix : N) (a : ascii) : option N :=
  let n := N_of_ascii a in
  let d :=
    if ((48 <=? n) && (n <=? 57))%N then Some (n - 48)%N
    else if ((97 <=? n) && (n <=? 122))%N then Some (n - 87)%N
    else if ((65 <=? n) && (n <=? 90))%N then Some (n - 55)%N
    else None in
  d' ← d; if (d' <? radix)%N then Some d' else None.

Fixpoint radix_val (radix acc : N) (s : string) : option N :=
  match s with
  | String a r => d ← radix_digit radix a; radix_val radix (acc * radix + d)%N r
  | EmptyString => Some acc
  end.

Definition radix_of (a : ascii) : option N :=
  if Ascii.eqb a "x" || Ascii.eqb a "X" then Some 16%N
  else if Ascii.eqb a "o" || Ascii.eqb a "O" then Some 8%N
  else if Ascii.eqb a "b" || Ascii.eqb a "B" then Some 2%N
  else None.

Definition parse_radix (s : string) : option number :=
  match s with
  | String "0" (String c r) =>
      b ← radix_of c;
      if is_empty r then None else num_of_N <$> radix_val b 0 r
  | _ => None
  end.

Definition StringToNumber (s : string) : number :=
  let t := trim s in
  if is_empty t then num_of_Z 0
  else
    match parse_radix t with
    | Some n => n
    | None => default NaN (parse_decimal t)
    end.

(** *** [String(x)] on a number (Number::toString, radix 10)

    An integer prints as its digits.  Of a fraction, the digits after the
    point are produced by long division, at most [frac_fuel] of them. *)

Fixpoint frac_digits (fuel : nat) (r d : Z) : string :=
  match fuel with
  | O => EmptyString
  | S fuel' =>
      if (r =? 0)%Z then EmptyString
      else digits (Z.to_N (10 * r / d)) +:+ frac_digits fuel' (10 * r mod d) d
  end.

Definition frac_fuel : nat := 20.

Definition NumberToString (x : number) : string :=
  match x with
  | NaN => "NaN"
  | Inf false => "Infinity"
  | Inf true => "-Infinity"
  | Fin q =>
      let a := Qabs q in
      let i := Qfloor a in
      let r := (Qnum a - i * Zpos (Qden a))%Z in
      (if Qc_ltb q (Q2Qc 0) then "-" else "") +:+
      digits (Z.to_N i) +:+
      (if (r =? 0)%Z then "" else "." +:+ frac_digits frac_fuel r (Zpos (Qden a)))
  end.

(** *** [x.toFixed(1)]

    Below 10^21 in magnitude: the integer [n] closest to [10 * |x|], the
    larger one on a tie, printed with a point before its last digit. *)

Definition toFixed1 (x : number) : string :=
  match x with
  | Fin q =>
      let a := Qabs q in
      if Qle_bool (Qpower (inject_Z 10) 21) a then NumberToString x
      else
        let n := Z.to_N (Qfloor (inject_Z 10 * a + (1 # 2))) in
        (if Qc_ltb q (Q2Qc 0) then "-" else "") +:+
        digits (n / 10) +:+ "." +:+ digits (n mod 10)
  | _ => NumberToString x
  end.

(** *** Values *)

Inductive value : Type :=
| VUndef
| VNull
| VBool (b : bool)
| VNum (n : number)
| VStr (s : string)
| VArr (l : list value)
| VObj (o : list (string * value)).

(** Objects are association lists; a lookup finds the first binding. *)
Fixpoint assoc {A : Type} (k : string) (o : list (string * A)) : option A :=
  match o with
  | (k', v) :: o' => if String.eqb k' k then Some v else assoc k o'
  | [] => None
  end.

(** Assignment of a property: in place when the key is bound, at the end
    otherwise. *)
Fixpoint assoc_set {A : Type} (k : string) (v : A) (o : list (string * A))
  : list (string * A) :=
  match o with
  | (k', v') :: o' =>
      if String.eqb k' k then (k', v) :: o' else (k', v') :: assoc_set k v o'
  | [] => [(k, v)]
  end.

Fixpoint join (sep : string) (l : list string) : string :=
  match l with
  | [] => ""
  | [s] => s
  | s :: l' => s +:+ sep +:+ join sep l'
  end.

(** [String(v)] *)
Fixpoint ToString (v : value) : string :=
  match v with
  | VUndef => "undefined"
  | VNull => "null"
  | VBool true => "true"
  | VBool false => "false"
  | VNum n => NumberToString n
  | VStr s => s
  | VArr l =>
      join ","
        (map (fun e => match e with
                       | VUndef | VNull => ""
                       | _ => ToString e
                       end) l)
  | VObj _ => "[object Object]"
  end.

(** [Number(v)] *)
Definition ToNumber (v : value) : number :=
  match v with
  | VUndef => NaN
  | VNull => num_of_Z 0
  | VBool true => num_of_Z 1
  | VBool false => num_of_Z 0
  | VNum n => n
  | VStr s => StringToNumber s
  | VArr _ => StringToNumber (ToString v)
  | VObj _ => NaN
  end.

(** [String(v)], [Number(v)], [a + b] and the use of [v] as a property key
    take an object through its [toString]: they throw a [TypeError] when the
    object has a property of that name of its own (parsed from JSON, it is no
    function, and [valueOf] gives the object back), and an array joins the
    conversions of its elements.  [ToString] and [ToNumber] are the
    conversions of the values that convert. *)
Fixpoint converts (v : value) : bool :=
  match v with
  | VArr l => forallb converts l
  | VObj o =>
      match assoc "toString" o with
      | Some _ => false
      | None => true
      end
  | _ => true
  end.

(** Truthiness: [undefined], [null], [false], [0], [NaN] and [""] are falsy. *)
Definition truthy (v : value) : bool :=
  match v with
  | VUndef | VNull => false
  | VBool b => b
  | VNum NaN => false
  | VNum (Inf _) => true
  | VNum (Fin q) => negb (Qc_is_zero q)
  | VStr s => negb (is_empty s)
  | VArr _ | VObj _ => true
  end.

(** [a || b] *)
Definition or (a b : value) : value := if truthy a then a else b.

(** [a ?? b] *)
Definition nullish (a b : value) : value :=
  match a with
  | VUndef | VNull => b
  | _ => a
  end.

(** A KV read or a header read yields a string or [null]. *)
Definition of_opt (o : option string) : value :=
  match o with
  | Some s => VStr s
  | None => VNull
  end.

(** A string, or a value that [ToPrimitive] turns into one. *)
Definition is_stringy (v : value) : bool :=
  match v with
  | VStr _ | VArr _ | VObj _ => true
  | _ => false
  end.

(** [a + b]: concatenation as soon as one side is a string, an array or an
    object, the sum of the two numbers otherwise. *)
Definition js_add (a b : value) : value :=
  if is_stringy a || is_stringy b then VStr (ToString a +:+ ToString b)
  else VNum (num_add (ToNumber a) (ToNumber b)).

End Js.

Import Js.

(** ** Effects of a handler *)

Module Io.

(** The two KV namespaces bound in [Env]. *)
Inductive namespace : Type := SRM_COUNTS | SRM_RATELIMIT.

(** An uploaded [File] of the multipart form. *)
Record file : Type := { f_name : string; f_size : N }.

(** Entry of the asset list sent with the tracking issue ([FileMeta]). *)
Record FileMeta : Type :=
  { fm_name : string; fm_url : value; fm_size : N; fm_type : string }.

(** The outbound [fetch] calls, one constructor per call site:
    - [CatalogFetch]: GET [RAW_BASE(env)] (lines 180, 207);
    - [CaptchaVerify secret token]: POST to the captcha service (line 87);
    - [ReleaseByTag tag]: GET [API_BASE/releases/tags/<tag>] (line 310);
    - [ReleaseCreate tag]: POST [API_BASE/releases] (line 314);
    - [AssetUpload relId name f]: POST [UPLOAD_BASE(relId)?name=<name>] with
      the stream of [f] (line 439);
    - [IssueCreate title meta files]: POST [API_BASE/issues] (line 334);
    - [AssetFetch url]: GET the proxied asset (line 365). *)
Inductive call : Type :=
| CatalogFetch
| CaptchaVerify (secret token : string)
| ReleaseByTag (tag : string)
| ReleaseCreate (tag : string)
| AssetUpload (relId : string) (name : string) (f : file)
| IssueCreate (title : string) (meta : list (string * value))
    (files : list FileMeta)
| AssetFetch (url : string).

(** What a [fetch] resolves to: the status, the headers, and the body as
    [json()] parses it ([None] when it is not JSON). *)
Record fetch_response : Type :=
  { rs_status : Z; rs_headers : list (string * string); rs_json : option value }.

(** [r.ok] *)
Definition rs_ok (r : fetch_response) : bool :=
  ((200 <=? rs_status r) && (rs_status r <=? 299))%Z.

(** A handler is a finite tree of effects. *)
Inductive io (A : Type) : Type :=
| Ret (a : A)
| Throw (msg : string)
| KvGet (ns : namespace) (key : string) (k : option string -> io A)
| KvPut (ns : namespace) (key val : string) (ttl : option Z) (k : io A)
| Fetch (c : call) (k : fetch_response -> io A)
| Now (k : Z * Z -> io A).

Arguments Ret {A} a.
Arguments Throw {A} msg.
Arguments KvGet {A} ns key k.
Arguments KvPut {A} ns key val ttl k.
Arguments Fetch {A} c k.
Arguments Now {A} k.

Fixpoint bind {A B : Type} (p : io A) (f : A -> io B) : io B :=
  match p with
  | Ret a => f a
  | Throw m => Throw m
  | KvGet ns key k => KvGet ns key (fun v => bind (k v) f)
  | KvPut ns key val ttl k => KvPut ns key val ttl (bind k f)
  | Fetch c k => Fetch c (fun r => bind (k r) f)
  | Now k => Now (fun d => bind (k d) f)
  end.

#[global] Instance io_ret : MRet io := @Ret.
#[global] Instance io_bind : MBind io := fun A B f p => bind p f.

(** [await NS.get(key)] *)
Definition kv_get (ns : namespace) (key : string) : io (option string) :=
  KvGet ns key Ret.

(** [await NS.put(key, val, { expirationTtl })] *)
Definition kv_put (ns : namespace) (key val : string) (ttl : option Z) : io unit :=
  KvPut ns key val ttl (Ret tt).

(** [await fetch(..)] *)
Definition fetch (c : call) : io fetch_response := Fetch c Ret.

(** [new Date()]: the UTC year and the month index (0 to 11). *)
Definition now : io (Z * Z) := Now Ret.

(** [await r.json()]: rejects when the body is not JSON. *)
Definition json (r : fetch_response) : io value :=
  match rs_json r with
  | Some v => Ret v
  | None => Throw "SyntaxError"
  end.

(** [v.k]: reading a property of [null] or [undefined] throws.  The handlers
    read named properties only (never [length] or an index), which strings,
    arrays and the other primitives do not have. *)
Definition get (v : value) (k : string) : io value :=
  match v with
  | VUndef | VNull => Throw "TypeError"
  | VObj o => Ret (default VUndef (assoc k o))
  | _ => Ret VUndef
  end.

(** [try { p } catch (e) { h(e.message) }]: the effects of [p] up to the
    throw are kept. *)
Fixpoint try_catch {A : Type} (p : io A) (h : string -> io A) : io A :=
  match p with
  | Ret a => Ret a
  | Throw m => h m
  | KvGet ns key k => KvGet ns key (fun v => try_catch (k v) h)
  | KvPut ns key val ttl k => KvPut ns key val ttl (try_catch k h)
  | Fetch c k => Fetch c (fun r => try_catch (k r) h)
  | Now k => Now (fun d => try_catch (k d) h)
  end.

(** *** Interpreter *)

Inductive event : Type :=
| EGet (ns : namespace) (key : string)
| EPut (ns : namespace) (key val : string) (ttl : option Z)
| EFetch (c : call).

(** The two stores, and the effects performed so far, oldest first. *)
Record world : Type :=
  { counts : gmap string string;
    ratelimit : gmap string string;
    log : list event }.

Definition store (ns : namespace) (w : world) : gmap string string :=
  match ns with
  | SRM_COUNTS => counts w
  | SRM_RATELIMIT => ratelimit w
  end.

Definition record (e : event) (w : world) : world :=
  {| counts := counts w; ratelimit := ratelimit w; log := log w ++ [e] |}.

Definition write (ns : namespace) (key val : string) (w : world) : world :=
  match ns with
  | SRM_COUNTS =>
      {| counts := <[key := val]> (counts w); ratelimit := ratelimit w;
         log := log w |}
  | SRM_RATELIMIT =>
      {| counts := counts w; ratelimit := <[key := val]> (ratelimit w);
         log := log w |}
  end.

(** The outside of the worker: what each outbound call answers, given the
    effects so far, and the date. *)
Record outside : Type :=
  { answer : list event -> call -> fetch_response;
    date : Z * Z }.

Inductive outcome (A : Type) : Type :=
| Returned (a : A)
| Thrown (msg : string).

Arguments Returned {A} a.
Arguments Thrown {A} msg.

Fixpoint run {A : Type} (o : outside) (p : io A) (w : world) : outcome A * world :=
  match p with
  | Ret a => (Returned a, w)
  | Throw m => (Thrown m, w)
  | KvGet ns key k => run o (k (store ns w !! key)) (record (EGet ns key) w)
  | KvPut ns key val ttl k =>
      run o k (record (EPut ns key val ttl) (write ns key val w))
  | Fetch c k => run o (k (answer o (log w) c)) (record (EFetch c) w)
  | Now k => run o (k (date o)) w
  end.

End Io.

Import Io.

(** ** The worker *)

Module Worker.

(** [Env], without the two KV namespaces, which live in the world. *)
Record Env : Type :=
  { GH_OWNER : string;
    GH_REPO : string;
    GH_TOKEN : string;
    ALLOWED_ORIGINS : option string;
    HCAPTCHA_SECRET : option string;
    (** a string, a number, or [VUndef] when not set *)
    MAX_FILE_BYTES : value }.

Definition Headers : Type := list (string * string).

(** A value of a multipart form: a string or a [File]. *)
Inductive form_value : Type :=
| FStr (s : string)
| FFile (f : file).

(** An inbound request: its headers (names in lower case), its body as
    [req.json()] parses it ([None] when it is not valid JSON) and as
    [req.formData()] parses it ([None] when that rejects). *)
Record Request : Type :=
  { rq_headers : Headers;
    rq_json : option value;
    rq_form : option (list (string * form_value)) }.

(** A parsed [URL]: host name and query parameters. *)
Record URL : Type :=
  { hostname : string;
    searchParams : list (string * string) }.

(** Body of a [Response]: the value given to [JSON.stringify], a text, or the
    upstream body streamed through. *)
Inductive Body : Type :=
| JsonBody (v : value)
| TextBody (s : string)
| StreamBody (upstream : fetch_response).

Record Response : Type :=
  { status : Z; headers : Headers; body : Body }.

(** *** Helpers and constants (lines 43-132) *)

Definition RAW_BASE (env : Env) : string :=
  "https://raw.githubusercontent.com/" +:+ GH_OWNER env +:+ "/" +:+ GH_REPO env
  +:+ "/main/content-database/approved.json".

Definition API_BASE (env : Env) : string :=
  "https://api.github.com/repos/" +:+ GH_OWNER env +:+ "/" +:+ GH_REPO env.

Definition UPLOAD_BASE (env : Env) (relId : string) : string :=
  "https://uploads.github.com/repos/" +:+ GH_OWNER env +:+ "/" +:+ GH_REPO env
  +:+ "/releases/" +:+ relId +:+ "/assets".

(** Where each outbound call goes. *)
Definition call_url (env : Env) (c : call) : string :=
  match c with
  | CatalogFetch => RAW_BASE env
  | CaptchaVerify _ _ => "https://hcaptcha.com/siteverify"
  | ReleaseByTag tag => API_BASE env +:+ "/releases/tags/" +:+ tag
  | ReleaseCreate _ => API_BASE env +:+ "/releases"
  | AssetUpload relId name _ => UPLOAD_BASE env relId +:+ "?name=" +:+ name
  | IssueCreate _ _ _ => API_BASE env +:+ "/issues"
  | AssetFetch url => url
  end.

Definition call_method (c : call) : string :=
  match c with
  | CatalogFetch | ReleaseByTag _ | AssetFetch _ => "GET"
  | _ => "POST"
  end.

(** [String(v ?? "").trim()] *)
Definition norm (v : value) : string := trim (ToString (nullish v (VStr ""))).

(** [s.split(c)] on a one-character separator. *)
Fixpoint split (c : ascii) (s : string) : list string :=
  match s with
  | EmptyString => [EmptyString]
  | String a r =>
      if Ascii.eqb a c then EmptyString :: split c r
      else
        match split c r with
        | h :: t => String a h :: t
        | [] => [String a EmptyString]
        end
  end.

Definition keep_nonempty (l : list string) : list string :=
  filter (fun s => negb (is_empty s) = true) l.

(** [norm(v).split(",").map(s => s.trim()).filter(Boolean)] *)
Definition splitCSV (v : value) : list string :=
  keep_nonempty (map trim (split "," (norm v))).

(** [norm(v).split(/\r?\n/).map(s => s.trim()).filter(Boolean)].  The pieces
    are trimmed, and CR is white space, so cutting at LF alone gives the same
    list. *)
Definition splitLines (v : value) : list string :=
  keep_nonempty (map trim (split "010" (norm v))).

(** [{ "content-type": "application/json", ...Object.fromEntries(cors) }] *)
Definition json_headers (cors : Headers) : Headers :=
  fold_left (fun h kv => assoc_set (fst kv) (snd kv) h) cors
    [("content-type", "application/json")].

Definition ok (data : value) (cors : Headers) : Response :=
  {| status := 200; headers := json_headers cors; body := JsonBody data |}.

Definition err (status : Z) (message : string) (cors : Headers) : Response :=
  {| status := status;
     headers := json_headers cors;
     body := JsonBody (VObj [("ok", VBool false); ("error", VStr message)]) |}.

(** The headers of [new Response(text, { headers: cors })]: a body that is a
    text brings its content type, unless the headers name one. *)
Definition text_headers (cors : Headers) : Headers :=
  match assoc "content-type" cors with
  | Some _ => cors
  | None => (cors ++ [("content-type", "text/plain;charset=UTF-8")])%list
  end.

(** The constructor of [Response] refuses a status outside 200..599 with a
    [RangeError], and a body next to a null body status (of those in range:
    204, 205 and 304) with a [TypeError]. *)
Definition refused (status : Z) : option string :=
  if ((status <? 200) || (599 <? status))%Z then Some "RangeError"
  else if ((status =? 204) || (status =? 205) || (status =? 304))%Z
  then Some "TypeError"
  else None.

(** [new Response(text, { status, headers: cors })] *)
Definition text_response (status : Z) (text : string) (cors : Headers)
  : io Response :=
  match refused status with
  | Some e => Throw e
  | None => mret {| status := status; headers := text_headers cors;
                    body := TextBody text |}
  end.

(** [req.headers.get(name)] *)
Definition header (req : Request) (name : string) : value :=
  of_opt (assoc name (rq_headers req)).

Definition ip (req : Request) : value :=
  or (or (header req "cf-connecting-ip") (header req "x-forwarded-for"))
     (VStr "0.0.0.0").

(** [await req.json().catch(() => ({}))] *)
Definition json_or_empty (j : option value) : value := default (VObj []) j.

Definition verifyCaptcha (env : Env) (token : string) : io bool :=
  match HCAPTCHA_SECRET env with
  | None => mret true
  | Some secret =>
      if is_empty secret then mret true
      else if is_empty token then mret false
      else
        r ← fetch (CaptchaVerify secret token);
        j ← json r;
        s ← get j "success";
        mret (truthy s)
  end.

Definition is_safe_char (a : ascii) : bool :=
  let n := N_of_ascii a in
  ((97 <=? n) && (n <=? 122) || (65 <=? n) && (n <=? 90) ||
   (48 <=? n) && (n <=? 57) || (n =? 46) || (n =? 95) || (n =? 45))%N.

Fixpoint map_chars (f : ascii -> ascii) (s : string) : string :=
  match s with
  | String a r => String (f a) (map_chars f r)
  | EmptyString => EmptyString
  end.

(** What [replace(/[^a-zA-Z0-9._-]/g, "_")] makes of one character.  The
    pattern has no [u] flag, so it takes the name one UTF-16 code unit at a
    time: a character outside the class is one unit, two when its UTF-8 form
    has four bytes, and every unit becomes an underscore. *)
Definition replace_unsafe (c : string) : string :=
  match c with
  | String a EmptyString => if is_safe_char a then c else "_"
  | String a _ => if (240 <=? N_of_ascii a)%N then "__" else "_"
  | EmptyString => EmptyString
  end.

(** [name.replace(/[^a-zA-Z0-9._-]/g, "_").slice(0, 120)] *)
Definition sanitize (name : string) : string :=
  String.substring 0 120 (unchars (map replace_unsafe (chars name))).

(** [toLowerCase] and [toUpperCase] on the letters of ASCII; every other
    byte is left as it is, where the code maps the letters of Unicode. *)
Definition lower (a : ascii) : ascii :=
  let n := N_of_ascii a in
  if ((65 <=? n) && (n <=? 90))%N then ascii_of_N (n + 32) else a.

Definition upper (a : ascii) : ascii :=
  let n := N_of_ascii a in
  if ((97 <=? n) && (n <=? 122))%N then ascii_of_N (n - 32) else a.

(** The static table of [getFileType]. *)
Definition file_types : list (string * string) :=
  [("json", "Setup File"); ("zip", "Archive"); ("rar", "Archive");
   ("7z", "Archive"); ("pdf", "Documentation"); ("txt", "Text File");
   ("md", "Documentation"); ("stl", "3D Model"); ("obj", "3D Model");
   ("ini", "Config File"); ("cfg", "Config File"); ("xml", "Config File");
   ("jpg", "Image"); ("jpeg", "Image"); ("png", "Image"); ("gif", "Image");
   ("mp4", "Video"); ("avi", "Video"); ("mov", "Video")].

(** [types[filename.split(".").pop()?.toLowerCase() || ""] || "File"], for
    extensions that are not names inherited from [Object.prototype]. *)
Definition getFileType (filename : string) : string :=
  let ext := map_chars lower (List.last (split "." filename) EmptyString) in
  default "File" (assoc ext file_types).

(** *** Content read endpoints (lines 179-227) *)

(** [Array.isArray(data?.items) ? data.items : []] *)
Definition items_of (data : value) : list value :=
  match data with
  | VObj o =>
      match assoc "items" o with
      | Some (VArr l) => l
      | _ => []
      end
  | _ => []
  end.

(** Own enumerable properties copied by [{ ...v }]. *)
Definition indexed {A : Type} (f : A -> value) (l : list A) : list (string * value) :=
  imap (fun i x => (digits (N.of_nat i), f x)) l.

Definition spread (v : value) : list (string * value) :=
  match v with
  | VObj o => o
  | VArr l => indexed id l
  | VStr s =>
      indexed (fun a => VStr (String a EmptyString)) (list_ascii_of_string s)
  | _ => []
  end.

(** The callback of [items.map] in [handleContent] (lines 185-201); the four
    reads of the inner [Promise.all] are taken in array order. *)
Definition enrich (it : value) : io value :=
  it_id ← get it "id";
  it_number ← get it "number";
  let id := ToString (nullish (nullish it_id it_number) (VStr "")) in
  if is_empty id then mret it
  else
    likes ← kv_get SRM_COUNTS ("likes:" +:+ id);
    downloads ← kv_get SRM_COUNTS ("downloads:" +:+ id);
    rating ← kv_get SRM_COUNTS ("rating:" +:+ id);
    totalRatings ← kv_get SRM_COUNTS ("rating_count:" +:+ id);
    it_likes ← get it "likes";
    it_downloads ← get it "downloads";
    it_rating ← get it "rating";
    it_totalRatings ← get it "totalRatings";
    mret (VObj
      (assoc_set "totalRatings"
         (VNum (ToNumber (or (or (of_opt totalRatings) it_totalRatings)
                             (VNum (num_of_Z 0)))))
      (assoc_set "rating"
         (if truthy (of_opt rating) then VNum (ToNumber (of_opt rating))
          else or it_rating (VNum (num_of_Z 0)))
      (assoc_set "downloads"
         (VNum (ToNumber (or (or (of_opt downloads) it_downloads)
                             (VNum (num_of_Z 0)))))
      (assoc_set "likes"
         (VNum (ToNumber (or (or (of_opt likes) it_likes)
                             (VNum (num_of_Z 0)))))
         (spread it)))))).

(** [Promise.all(items.map(f))], the callbacks taken in array order. *)
Fixpoint map_all {A B : Type} (f : A -> io B) (l : list A) : io (list B) :=
  match l with
  | [] => mret []
  | x :: l' => y ← f x; ys ← map_all f l'; mret (y :: ys)
  end.

Definition handleContent (env : Env) (cors : Headers) : io Response :=
  r ← fetch CatalogFetch;
  if negb (rs_ok r) then mret (err 502 "Upstream fetch failed" cors)
  else
    let data := json_or_empty (rs_json r) in
    let items := items_of data in
    merged ← map_all enrich items;
    mret (ok (VObj [("items", VArr merged)]) cors).

(** [items.find(it => String(it.id) === id || String(it.number) === id)];
    [VUndef] when no element qualifies. *)
Fixpoint find_item (id : string) (items : list value) : io value :=
  match items with
  | [] => mret VUndef
  | it :: rest =>
      it_id ← get it "id";
      if String.eqb (ToString it_id) id then mret it
      else
        it_number ← get it "number";
        if String.eqb (ToString it_number) id then mret it
        else find_item id rest
  end.

Definition handleContentById (env : Env) (id : string) (cors : Headers)
  : io Response :=
  r ← fetch CatalogFetch;
  if negb (rs_ok r) then mret (err 502 "Upstream fetch failed" cors)
  else
    let data := json_or_empty (rs_json r) in
    let items := items_of data in
    item ← find_item id items;
    if negb (truthy item) then mret (err 404 "Item not found" cors)
    else
      likes ← kv_get SRM_COUNTS ("likes:" +:+ id);
      downloads ← kv_get SRM_COUNTS ("downloads:" +:+ id);
      rating ← kv_get SRM_COUNTS ("rating:" +:+ id);
      totalRatings2 ← kv_get SRM_COUNTS ("rating_count:" +:+ id);
      item_likes ← get item "likes";
      item_downloads ← get item "downloads";
      item_rating ← get item "rating";
      item_totalRatings ← get item "totalRatings";
      let enhanced :=
        VObj
          (assoc_set "totalRatings"
             (VNum (ToNumber (or (or (of_opt totalRatings2) item_totalRatings)
                                 (VNum (num_of_Z 0)))))
          (assoc_set "rating"
             (if truthy (of_opt rating) then VNum (ToNumber (of_opt rating))
              else or item_rating (VNum (num_of_Z 0)))
          (assoc_set "downloads"
             (VNum (ToNumber (or (or (of_opt downloads) item_downloads)
                                 (VNum (num_of_Z 0)))))
          (assoc_set "likes"
             (VNum (ToNumber (or (or (of_opt likes) item_likes)
                                 (VNum (num_of_Z 0)))))
             (spread item))))) in
      mret (ok enhanced cors).

(** *** Social interactions (lines 233-267) *)

Definition handleLike (env : Env) (req : Request) (cors : Headers)
  : io Response :=
  let body := json_or_empty (rq_json req) in
  body_id ← get body "id";
  let id := ToString (or body_id (VStr "")) in
  if is_empty id then mret (err 400 "Missing id" cors)
  else
    let key := "like:" +:+ id +:+ ":" +:+ ToString (ip req) in
    marker ← kv_get SRM_RATELIMIT key;
    if truthy (of_opt marker) then mret (err 429 "Rate limited" cors)
    else
      kv_put SRM_RATELIMIT key "1" (Some 86400%Z);;
      stored ← kv_get SRM_COUNTS ("likes:" +:+ id);
      let cur := ToNumber (or (of_opt stored) (VStr "0")) in
      let next := num_add cur (num_of_Z 1) in
      kv_put SRM_COUNTS ("likes:" +:+ id) (NumberToString next) None;;
      mret (ok (VObj [("ok", VBool true); ("id", VStr id);
                      ("likes", VNum next)]) cors).

Definition handleRate (env : Env) (req : Request) (cors : Headers)
  : io Response :=
  let body := json_or_empty (rq_json req) in
  body_id ← get body "id";
  let id := ToString (or body_id (VStr "")) in
  body_rating ← get body "rating";
  let rating := ToNumber (or body_rating (VNum (num_of_Z 0))) in
  if is_empty id || num_lt rating (num_of_Z 1) || num_gt rating (num_of_Z 5)
  then mret (err 400 "Invalid rating (must be 1-5)" cors)
  else
    let key := "rate:" +:+ id +:+ ":" +:+ ToString (ip req) in
    marker ← kv_get SRM_RATELIMIT key;
    if truthy (of_opt marker) then mret (err 429 "Already rated this item" cors)
    else
      kv_put SRM_RATELIMIT key "1" (Some (86400 * 7)%Z);;
      currentRating ← kv_get SRM_COUNTS ("rating:" +:+ id);
      currentCount ← kv_get SRM_COUNTS ("rating_count:" +:+ id);
      let oldRating := ToNumber (or (of_opt currentRating) (VNum (num_of_Z 0))) in
      let oldCount := ToNumber (or (of_opt currentCount) (VNum (num_of_Z 0))) in
      let newCount := num_add oldCount (num_of_Z 1) in
      let newRating :=
        if num_eqb oldCount (num_of_Z 0) then rating
        else num_div (num_add (num_mul oldRating oldCount) rating) newCount in
      kv_put SRM_COUNTS ("rating:" +:+ id) (toFixed1 newRating) None;;
      kv_put SRM_COUNTS ("rating_count:" +:+ id) (NumberToString newCount) None;;
      mret (ok (VObj [("ok", VBool true); ("id", VStr id);
                      ("rating", VNum (StringToNumber (toFixed1 newRating)));
                      ("totalRatings", VNum newCount)]) cors).

(** *** Submission flow and download proxy (lines 307-469) *)

(** [String(n).padStart(2, "0")] *)
Definition padStart2 (s : string) : string :=
  match s with
  | EmptyString => "00"
  | String a EmptyString => String "0" s
  | _ => s
  end.

Definition monthlyRelease (env : Env) (token : string) : io value :=
  d ← now;
  let tag :=
    "ugc-uploads-" +:+ NumberToString (num_of_Z (fst d)) +:+ "-" +:+
    padStart2 (NumberToString (num_of_Z (snd d + 1))) in
  r ← fetch (ReleaseByTag tag);
  if rs_ok r then j ← json r; get j "id"
  else
    r ← fetch (ReleaseCreate tag);
    if negb (rs_ok r) then Throw "Failed to create release"
    else j ← json r; get j "id".

(** The title of the tracking issue (line 338), the upper case being that of
    the ASCII letters. *)
Definition issue_title (meta : list (string * value)) : string :=
  "[" +:+
  map_chars upper
    (ToString (or (default VUndef (assoc "category" meta)) (VStr "submission")))
  +:+ "] " +:+
  ToString (or (default VUndef (assoc "title" meta))
               (VStr "New Community Submission")).

(** The text of the issue, [issueSummary(meta, files)], is determined by
    [meta] and [files], which the call carries. *)
Definition createIssue (env : Env) (token : string)
    (meta : list (string * value)) (files : list FileMeta) : io (value * value) :=
  r ← fetch (IssueCreate (issue_title meta) meta files);
  if negb (rs_ok r) then Throw "Issue creation failed"
  else
    j ← json r;
    number ← get j "number";
    url ← get j "html_url";
    mret (number, url).

Definition ALLOWED_ASSET_HOSTS : list string :=
  ["github.com"; "raw.githubusercontent.com";
   "github-releases.githubusercontent.com"; "objects.githubusercontent.com";
   "uploads.github.com"].

(** [ALLOWED_ASSET_HOSTS.has(h)] *)
Definition allowed_host (h : string) : bool :=
  existsb (String.eqb h) ALLOWED_ASSET_HOSTS.

(** [url.searchParams.get(name) || ""] *)
Definition param (url : URL) (name : string) : string :=
  ToString (or (of_opt (assoc name (searchParams url))) (VStr "")).

(** [cors.forEach((v, k) => h.set(k, v))] over the upstream headers. *)
Definition with_cors (upstream cors : Headers) : Headers :=
  fold_left (fun h kv => assoc_set (fst kv) (snd kv) h) cors upstream.

Section Download.

(** The platform's URL parser, [new URL(s)]: [None] when it throws. *)
Variable new_URL : string -> option URL.

Definition handleDownload (env : Env) (url : URL) (cors : Headers)
  : io Response :=
  let asset := param url "asset" in
  let id := param url "id" in
  match new_URL asset with
  | None => mret (err 400 "Invalid asset url" cors)
  | Some u =>
      if negb (allowed_host (hostname u))
      then mret (err 400 "Disallowed asset host" cors)
      else
        upstream ← fetch (AssetFetch asset);
        if negb (rs_ok upstream)
        then text_response (rs_status upstream) "Asset not found" cors
        else
          (if negb (is_empty id)
           then
             stored ← kv_get SRM_COUNTS ("downloads:" +:+ id);
             let cur := ToNumber (or (of_opt stored) (VStr "0")) in
             kv_put SRM_COUNTS ("downloads:" +:+ id)
               (NumberToString (num_add cur (num_of_Z 1))) None
           else mret tt);;
          mret {| status := 200;
                  headers := with_cors (rs_headers upstream) cors;
                  body := StreamBody upstream |}
  end.

End Download.

Definition handleDownloadTrack (env : Env) (req : Request) (cors : Headers)
  : io Response :=
  let body := json_or_empty (rq_json req) in
  body_itemId ← get body "itemId";
  let itemId := ToString (or body_itemId (VStr "")) in
  body_fileName ← get body "fileName";
  let fileName := ToString (or body_fileName (VStr "")) in
  if is_empty itemId then mret (err 400 "Missing itemId" cors)
  else
    stored ← kv_get SRM_COUNTS ("downloads:" +:+ itemId);
    let cur := ToNumber (or (of_opt stored) (VStr "0")) in
    kv_put SRM_COUNTS ("downloads:" +:+ itemId)
      (NumberToString (num_add cur (num_of_Z 1))) None;;
    mret (ok (VObj [("ok", VBool true); ("itemId", VStr itemId);
                    ("downloads", VNum (num_add cur (num_of_Z 1)));
                    ("fileName", VStr fileName)]) cors).

(** [Object.fromEntries([...form.entries()].filter(([_, v]) => !(v instanceof File)))] *)
Definition raw_of (form : list (string * form_value)) : list (string * value) :=
  fold_left
    (fun o kv =>
       match snd kv with
       | FStr s => assoc_set (fst kv) (VStr s) o
       | FFile _ => o
       end)
    form [].

(** [raw.k] *)
Definition field (raw : list (string * value)) (k : string) : value :=
  default VUndef (assoc k raw).

Definition strings (l : list string) : value := VArr (map VStr l).

(** The object [meta] of [handleSubmit] (lines 398-417). *)
Definition meta_of (raw : list (string * value)) : list (string * value) :=
  [("title", VStr (norm (field raw "title")));
   ("category", VStr (norm (field raw "category")));
   ("game", VStr (norm (field raw "game")));
   ("description", VStr (norm (field raw "description")));
   ("author", VStr (norm (field raw "author")));
   ("longDescription", VStr (norm (field raw "longDescription")));
   ("version", VStr (norm (field raw "version")));
   ("car", VStr (norm (field raw "car")));
   ("track", VStr (norm (field raw "track")));
   ("compatibility", VStr (norm (field raw "compatibility")));
   ("requirements", strings (splitLines (field raw "requirements")));
   ("installation", strings (splitLines (field raw "installation")));
   ("tags", strings (splitCSV (field raw "tags")));
   ("mediaUrls", strings (splitLines (field raw "mediaUrls")));
   ("license", VStr (norm (field raw "license")));
   ("notes", VStr (norm (field raw "notes")))].

(** [form.get(name)]: the first entry of that name; a [File] prints as
    ["[object File]"]. *)
Definition form_get (form : list (string * form_value)) (name : string) : value :=
  match assoc name form with
  | Some (FStr s) => VStr s
  | Some (FFile _) => VStr "[object File]"
  | None => VNull
  end.

(** [for (const [k, v] of form) if (v instanceof File && k === "files") files.push(v)] *)
Definition files_of (form : list (string * form_value)) : list file :=
  omap
    (fun kv =>
       match snd kv with
       | FFile f => if String.eqb (fst kv) "files" then Some f else None
       | FStr _ => None
       end)
    form.

(** The upload loop (lines 435-457): an early [return] is [inl], the asset
    list at the end of the loop is [inr].  A sanitized name has no character
    that [encodeURIComponent] escapes, so the call carries it as it is. *)
Fixpoint upload_all (env : Env) (relId : value) (max : number) (cors : Headers)
    (files : list file) (filesMeta : list FileMeta)
  : io (Response + list FileMeta) :=
  match files with
  | [] => mret (inr filesMeta)
  | f :: rest =>
      if num_gt (num_of_N (f_size f)) max
      then mret (inl (err 413
             ("File too large: " +:+ f_name f +:+ " (" +:+
              NumberToString (num_of_N (f_size f)) +:+ " > " +:+
              NumberToString max +:+ ")") cors))
      else
        let safe := sanitize (f_name f) in
        up ← fetch (AssetUpload (ToString relId) safe f);
        if negb (rs_ok up)
        then mret (inl (err 502 ("Asset upload failed for " +:+ f_name f) cors))
        else
          j ← json up;
          url ← get j "browser_download_url";
          upload_all env relId max cors rest
            (filesMeta ++
             [{| fm_name := safe; fm_url := url; fm_size := f_size f;
                 fm_type := getFileType (f_name f) |}])
  end.

Definition is_blank (meta : list (string * value)) (k : string) : bool :=
  negb (truthy (field meta k)).

Definition handleSubmit (env : Env) (req : Request) (cors : Headers)
  : io Response :=
  let ct := ToString (or (header req "content-type") (VStr "")) in
  if negb (includes "multipart/form-data" ct)
  then mret (err 415 "Use multipart/form-data" cors)
  else
    match rq_form req with
    | None => Throw "TypeError"
    | Some form =>
        let raw := raw_of form in
        let meta := meta_of raw in
        let captchaToken :=
          ToString (or (or (field raw "captchaToken")
                           (form_get form "captchaToken")) (VStr "")) in
        if is_blank meta "title" || is_blank meta "category" ||
           is_blank meta "game" || is_blank meta "description" ||
           is_blank meta "author"
        then mret (err 400 "Missing required fields" cors)
        else
          passed ← verifyCaptcha env captchaToken;
          if negb passed then mret (err 400 "Captcha failed" cors)
          else
            let max := ToNumber (nullish (MAX_FILE_BYTES env) (VStr "104857600")) in
            let files := files_of form in
            let token := GH_TOKEN env in
            relId ← monthlyRelease env token;
            uploaded ← upload_all env relId max cors files [];
            match uploaded with
            | inl early => mret early
            | inr filesMeta =>
                issue ← createIssue env token meta filesMeta;
                mret (ok (VObj
                  [("ok", VBool true);
                   ("message", VStr "Submission created successfully! It will be reviewed and published soon.");
                   ("issueUrl", snd issue);
                   ("submissionId", fst issue)]) cors)
            end
    end.

(** *** Stats (lines 273-301) *)

(** The callback of [items.map] in [handleStats] (lines 279-284). *)
Definition stat_downloads (it : value) : io value :=
  it_id ← get it "id";
  it_number ← get it "number";
  let id := ToString (nullish (nullish it_id it_number) (VStr "")) in
  if is_empty id
  then
    it_downloads ← get it "downloads";
    mret (or it_downloads (VNum (num_of_Z 0)))
  else
    downloads ← kv_get SRM_COUNTS ("downloads:" +:+ id);
    it_downloads ← get it "downloads";
    mret (VNum (ToNumber (or (or (of_opt downloads) it_downloads)
                             (VNum (num_of_Z 0))))).

(** [items.reduce((acc, item) => { const k = item.f || "other";
    acc[k] = (acc[k] || 0) + 1; return acc; }, acc)] (lines 289-298), for
    keys that are not names inherited from [Object.prototype].  The order of
    the keys of the result is that of their first occurrence. *)
Fixpoint tally (f : string) (items : list value) (acc : list (string * value))
  : io (list (string * value)) :=
  match items with
  | [] => mret acc
  | item :: rest =>
      item_f ← get item f;
      let k := ToString (or item_f (VStr "other")) in
      tally f rest
        (assoc_set k
           (js_add (or (default VUndef (assoc k acc)) (VNum (num_of_Z 0)))
                   (VNum (num_of_Z 1)))
           acc)
  end.

Definition handleStats (env : Env) (cors : Headers) : io Response :=
  r ← fetch CatalogFetch;
  if negb (rs_ok r) then mret (err 502 "Upstream fetch failed" cors)
  else
    let data := json_or_empty (rs_json r) in
    let items := items_of data in
    totalDownloads ← map_all stat_downloads items;
    categories ← tally "category" items [];
    games ← tally "game" items [];
    mret (ok (VObj
      [("totalItems", VNum (num_of_N (N.of_nat (length items))));
       ("totalDownloads", fold_left js_add totalDownloads (VNum (num_of_Z 0)));
       ("categories", VObj categories);
       ("games", VObj games)]) cors).

(** *** Router (lines 475-513) *)

(** What the router answers: the response of a handler, or a response
    without body ([new Response(null, ..)]). *)
Inductive Reply : Type :=
| WithBody (r : Response)
| NoBody (status : Z) (headers : Headers).

Module Router.

Section Fetch.

(** [corsHeaders] compiles the configured origin patterns into regular
    expressions; the router is taken over its result.  It is called before
    the [try] (line 478): an origin pattern that is no regular expression
    makes it throw, nothing catches that error, and the router below, which
    takes the function as total, says nothing of such a request.  [new_URL]
    is the platform's URL parser, as in [handleDownload]. *)
Variable corsHeaders : Env -> Request -> Headers.
Variable new_URL : string -> option URL.

(** The body of the [try] (lines 481-507).  Of the request, the router reads
    [req.method] and, of [new URL(req.url)], the path and the query
    parameters. *)
Definition route (env : Env) (req : Request) (method pathname : string)
    (url : URL) (cors : Headers) : io Response :=
  if String.eqb pathname "/content" && String.eqb method "GET"
  then handleContent env cors
  else if String.prefix "/content/" pathname && String.eqb method "GET"
  then
    match split "/" pathname !! 2%nat with
    | Some id =>
        if is_empty id then mret (err 400 "Missing content ID" cors)
        else handleContentById env id cors
    | None => mret (err 400 "Missing content ID" cors)
    end
  else if String.eqb pathname "/like" && String.eqb method "POST"
  then handleLike env req cors
  else if String.eqb pathname "/rate" && String.eqb method "POST"
  then handleRate env req cors
  else if String.eqb pathname "/download" && String.eqb method "GET"
  then handleDownload new_URL env url cors
  else if String.eqb pathname "/download/track" && String.eqb method "POST"
  then handleDownloadTrack env req cors
  else if String.eqb pathname "/submit" && String.eqb method "POST"
  then handleSubmit env req cors
  else if String.eqb pathname "/stats" && String.eqb method "GET"
  then handleStats env cors
  else text_response 404 "Not found" cors.

(** [fetch(req, env)].  The message of a caught error is the payload of the
    throw: the text given to [new Error], or the kind of a platform error. *)
Definition fetch (env : Env) (req : Request) (method pathname : string)
    (url : URL) : io Reply :=
  let cors := corsHeaders env req in
  if String.eqb method "OPTIONS" then mret (NoBody 204 cors)
  else
    try_catch
      (r ← route env req method pathname url cors; mret (WithBody r))
      (fun message =>
         mret (WithBody
           (err 500 (ToString (or (VStr message) (VStr "Server error"))) cors))).

End Fetch.

End Router.

End Worker.

Import Worker.

(** ** Vocabulary of the statements *)

(** *** Strings of digits *)

(** Every character of the string satisfies [p]. *)
Fixpoint all_chars (p : ascii -> bool) (s : string) : bool :=
  match s with
  | String a r => p a && all_chars p r
  | EmptyString => true
  end.

(** Every character is a decimal digit. *)
Definition all_digits (s : string) : bool := all_chars is_digit s.

(** The characters of a decimal numeral without exponent. *)
Definition is_decimal_char (a : ascii) : bool := is_digit a || is_dot a.


(** *** Exact numbers and binary64 *)

(** The worker computes in binary64, the model in exact rationals.  The two
    agree on the integers up to 2^53. *)
Definition exact_integer (n : N) : Prop := (n <= 2 ^ 53)%N.

(** Rounded to binary64 (to the nearest value, a tie to the even one), a
    number is below 1 when it is below [before_one], half way between 1 and
    the value before it, and above 5 when it is above [after_five], half way
    between 5 and the value after it: 1 - 2^-54 and 5 + 2^-51. *)
Definition before_one : Q := 1 - (1 # 18014398509481984).

Definition after_five : Q := 5 + (1 # 2251799813685248).

Definition below (x : number) (b : Q) : bool := num_lt x (Fin (Q2Qc b)).

Definition above (x : number) (b : Q) : bool := num_gt x (Fin (Q2Qc b)).


(** *** Requests *)

(** The parsed body of a like, rate or track request. *)
Definition body_of (req : Request) : value := json_or_empty (rq_json req).

(** [v.k] on a value that is neither [null] nor [undefined]. *)
Definition prop (v : value) (k : string) : value :=
  match v with
  | VObj o => default VUndef (assoc k o)
  | _ => VUndef
  end.

(** Neither [null] nor [undefined]. *)
Definition readable (v : value) : bool :=
  match v with
  | VUndef | VNull => false
  | _ => true
  end.

(** The named fields of a value convert: no conversion of one of them
    throws. *)
Definition fields_convert (v : value) (fields : list string) : bool :=
  forallb (fun k => converts (prop v k)) fields.



(** The item id and the rating value a request carries, as the handlers
    compute them, and the client identity. *)
Definition item_id (req : Request) : string :=
  ToString (or (prop (body_of req) "id") (VStr "")).

Definition rating_value (req : Request) : number :=
  ToNumber (or (prop (body_of req) "rating") (VNum (num_of_Z 0))).

Definition client (req : Request) : string := ToString (ip req).

(** The item id and the file name of a track request. *)
Definition track_id (req : Request) : string :=
  ToString (or (prop (body_of req) "itemId") (VStr "")).

Definition track_file (req : Request) : string :=
  ToString (or (prop (body_of req) "fileName") (VStr "")).

(** The keys of the rate-limit markers. *)
Definition like_marker (id client : string) : string :=
  "like:" +:+ id +:+ ":" +:+ client.

Definition rate_marker (id client : string) : string :=
  "rate:" +:+ id +:+ ":" +:+ client.

(** *** Worlds and runs *)

(** A marker is present when the read of its key is truthy. *)
Definition marked (w : world) (key : string) : bool :=
  truthy (of_opt (ratelimit w !! key)).

(** The effects a run adds to the log. *)
Definition new_events (w w' : world) : list event :=
  drop (length (log w)) (log w').

(** A world with more effects in its log. *)
Definition logged (w : world) (l : list event) : world :=
  {| counts := counts w; ratelimit := ratelimit w; log := log w ++ l |}.

(** The status of the response, when the handler returns one. *)
Definition outcome_status (r : outcome Response) : option Z :=
  match r with
  | Returned x => Some (status x)
  | Thrown _ => None
  end.

(** On every path of a program, whatever the outside answers: each effect
    satisfies [P] and the outcome satisfies [Q]. *)
Fixpoint always {A : Type} (P : event -> Prop) (Q : outcome A -> Prop) (p : io A)
  : Prop :=
  match p with
  | Ret a => Q (Returned a)
  | Throw m => Q (Thrown m)
  | KvGet ns key k => P (EGet ns key) /\ forall v, always P Q (k v)
  | KvPut ns key val ttl k => P (EPut ns key val ttl) /\ always P Q k
  | Fetch c k => P (EFetch c) /\ forall r, always P Q (k r)
  | Now k => forall d, always P Q (k d)
  end.

(** *** Counters *)

(** A counter as the handlers read it: an absent key reads as zero. *)
Definition counter (c : gmap string string) (key : string) : number :=
  ToNumber (or (of_opt (c !! key)) (VStr "0")).

(** The read-increment-write of a counter. *)
Definition bump (c : gmap string string) (key : string) : gmap string string :=
  <[key := NumberToString (num_add (counter c key) (num_of_Z 1))]> c.

(** The key is absent and [n] is 0, or the key holds the digits of [n]:
    what the handlers leave under a counter key. *)
Definition stored_nat (c : gmap string string) (key : string) (n : N) : Prop :=
  (c !! key = None /\ n = 0%N) \/ c !! key = Some (digits n).

(** The keys of the three monotone counters. *)
Definition counter_key (k : string) : Prop :=
  exists id, k = "likes:" +:+ id \/ k = "downloads:" +:+ id \/
             k = "rating_count:" +:+ id.

(** The keys of the rating averages. *)
Definition rating_key (k : string) : Prop := exists id, k = "rating:" +:+ id.

(** Every counter in the store holds the digits of a natural number: true of
    the empty store and kept by every handler. *)
Definition counters_ok (c : gmap string string) : Prop :=
  forall k v, counter_key k -> c !! k = Some v -> exists n : N, v = digits n.

(** *** Interactions *)

(** The stored average and count of an item as [handleRate] reads them, and
    the average it computes from them and an accepted rating. *)
Definition old_rating (w : world) (id : string) : number :=
  ToNumber (or (of_opt (counts w !! ("rating:" +:+ id))) (VNum (num_of_Z 0))).

Definition old_count (w : world) (id : string) : number :=
  ToNumber (or (of_opt (counts w !! ("rating_count:" +:+ id))) (VNum (num_of_Z 0))).

Definition new_rating (oldRating oldCount rating : number) : number :=
  if num_eqb oldCount (num_of_Z 0) then rating
  else num_div (num_add (num_mul oldRating oldCount) rating)
               (num_add oldCount (num_of_Z 1)).

(** The world after an accepted rating. *)
Definition rated (w : world) (id client : string) (rating : number) : world :=
  let key := rate_marker id client in
  let avg := toFixed1 (new_rating (old_rating w id) (old_count w id) rating) in
  let cnt := NumberToString (num_add (old_count w id) (num_of_Z 1)) in
  {| counts := <["rating_count:" +:+ id := cnt]> (<["rating:" +:+ id := avg]> (counts w));
     ratelimit := <[key := "1"]> (ratelimit w);
     log := log w ++
            [EGet SRM_RATELIMIT key;
             EPut SRM_RATELIMIT key "1" (Some 604800%Z);
             EGet SRM_COUNTS ("rating:" +:+ id);
             EGet SRM_COUNTS ("rating_count:" +:+ id);
             EPut SRM_COUNTS ("rating:" +:+ id) avg None;
             EPut SRM_COUNTS ("rating_count:" +:+ id) cnt None] |}.

(** The world after an accepted like. *)
Definition liked (w : world) (id client : string) : world :=
  let key := like_marker id client in
  {| counts := bump (counts w) ("likes:" +:+ id);
     ratelimit := <[key := "1"]> (ratelimit w);
     log := log w ++
            [EGet SRM_RATELIMIT key;
             EPut SRM_RATELIMIT key "1" (Some 86400%Z);
             EGet SRM_COUNTS ("likes:" +:+ id);
             EPut SRM_COUNTS ("likes:" +:+ id)
               (NumberToString
                  (num_add (counter (counts w) ("likes:" +:+ id)) (num_of_Z 1)))
               None] |}.

(** The world after a counted download of item [id]; [before] are the
    effects that precede the read of the counter. *)
Definition downloaded (w : world) (before : list event) (id : string) : world :=
  {| counts := bump (counts w) ("downloads:" +:+ id);
     ratelimit := ratelimit w;
     log := log w ++ before ++
            [EGet SRM_COUNTS ("downloads:" +:+ id);
             EPut SRM_COUNTS ("downloads:" +:+ id)
               (NumberToString
                  (num_add (counter (counts w) ("downloads:" +:+ id))
                           (num_of_Z 1)))
               None] |}.

(** The operations that write to the counter store. *)
Inductive operation : Type :=
| Like (env : Env) (req : Request) (cors : Headers)
| Rate (env : Env) (req : Request) (cors : Headers)
| Download (new_URL : string -> option URL) (env : Env) (url : URL) (cors : Headers)
| TrackDownload (env : Env) (req : Request) (cors : Headers).

Definition program (op : operation) : io Response :=
  match op with
  | Like env req cors => handleLike env req cors
  | Rate env req cors => handleRate env req cors
  | Download new_URL env url cors => handleDownload new_URL env url cors
  | TrackDownload env req cors => handleDownloadTrack env req cors
  end.

(** What one operation does to the counter store: nothing, the increment of
    one counter, or a new average together with the increment of its count. *)
Inductive counts_step (c : gmap string string) : gmap string string -> Prop :=
| step_none : counts_step c c
| step_bump (k : string) : counter_key k -> counts_step c (bump c k)
| step_rate (id avg : string) :
    counts_step c (bump (<["rating:" +:+ id := avg]> c) ("rating_count:" +:+ id)).

(** *** Content *)

(** The identifier under which [handleContent] looks an item up. *)
Definition item_key (it : value) : string :=
  ToString (nullish (nullish (prop it "id") (prop it "number")) (VStr "")).

(** The merge of the live counters of [id] into an item: the object literal
    of lines 194-200 (and 219-225), on the values the store holds. *)
Definition overlay (c : gmap string string) (id : string) (it : value) : value :=
  let likes := of_opt (c !! ("likes:" +:+ id)) in
  let downloads := of_opt (c !! ("downloads:" +:+ id)) in
  let rating := of_opt (c !! ("rating:" +:+ id)) in
  let totalRatings := of_opt (c !! ("rating_count:" +:+ id)) in
  VObj
    (assoc_set "totalRatings"
       (VNum (ToNumber (or (or totalRatings (prop it "totalRatings"))
                           (VNum (num_of_Z 0)))))
    (assoc_set "rating"
       (if truthy rating then VNum (ToNumber rating)
        else or (prop it "rating") (VNum (num_of_Z 0)))
    (assoc_set "downloads"
       (VNum (ToNumber (or (or downloads (prop it "downloads"))
                           (VNum (num_of_Z 0)))))
    (assoc_set "likes"
       (VNum (ToNumber (or (or likes (prop it "likes")) (VNum (num_of_Z 0)))))
       (spread it))))).

(** The element of the collection view for an item. *)
Definition enriched (c : gmap string string) (it : value) : value :=
  if is_empty (item_key it) then it else overlay c (item_key it) it.

(** The four reads of one merge. *)
Definition counter_reads (id : string) : list event :=
  [EGet SRM_COUNTS ("likes:" +:+ id);
   EGet SRM_COUNTS ("downloads:" +:+ id);
   EGet SRM_COUNTS ("rating:" +:+ id);
   EGet SRM_COUNTS ("rating_count:" +:+ id)].

(** The reads of the callback of [items.map] on an item. *)
Definition enrich_reads (it : value) : list event :=
  if is_empty (item_key it) then [] else counter_reads (item_key it).

(** The four counter fields of an item, each with its key in the store. *)
Definition counter_fields (id : string) : list (string * string) :=
  [("likes", "likes:" +:+ id); ("downloads", "downloads:" +:+ id);
   ("rating", "rating:" +:+ id); ("totalRatings", "rating_count:" +:+ id)].

(** A JSON object, as [Item] is. *)
Definition is_object (v : value) : bool :=
  match v with VObj _ => true | _ => false end.

(** The test of [items.find] in [handleContentById]. *)
Definition matches (id : string) (it : value) : bool :=
  String.eqb (ToString (prop it "id")) id ||
  String.eqb (ToString (prop it "number")) id.

(** The catalog as [handleContent] sees it in a world. *)
Definition catalog (o : outside) (w : world) : fetch_response :=
  answer o (log w) CatalogFetch.

Definition catalog_items (o : outside) (w : world) : list value :=
  items_of (json_or_empty (rs_json (catalog o w))).

(** The merge precedence in the words of the specification: the live counter
    cast to a number if present and non-empty, else the snapshot field, else
    0. *)
Definition baseline (snapshot : value) : value :=
  match snapshot with
  | VUndef => VNum (num_of_Z 0)
  | _ => snapshot
  end.

Definition merge_precedence (live : option string) (snapshot : value) : value :=
  match live with
  | Some v => if is_empty v then baseline snapshot else VNum (StringToNumber v)
  | None => baseline snapshot
  end.

(** A counter field of a snapshot item as [Item] types it: absent, or a
    number (which JSON cannot make [NaN]). *)
Definition number_or_absent (v : value) : Prop :=
  v = VUndef \/ exists n, v = VNum n /\ n <> NaN.

(** *** Submissions *)

(** The submission as [handleSubmit] reads it. *)
Definition content_type (req : Request) : string :=
  ToString (or (header req "content-type") (VStr "")).

Definition required_fields : list string :=
  ["title"; "category"; "game"; "description"; "author"].

(** The value of a form field after trimming. *)
Definition submitted (form : list (string * form_value)) (k : string) : string :=
  norm (field (raw_of form) k).

(** The token handed to the captcha step. *)
Definition captcha_token (form : list (string * form_value)) : string :=
  ToString (or (or (field (raw_of form) "captchaToken")
                   (form_get form "captchaToken")) (VStr "")).

(** The configured maximum, and a file that exceeds it. *)
Definition max_bytes (env : Env) : number :=
  ToNumber (nullish (MAX_FILE_BYTES env) (VStr "104857600")).

Definition too_large (env : Env) (f : file) : bool :=
  num_gt (num_of_N (f_size f)) (max_bytes env).


(** The captcha step lets the submission through. *)
Definition captcha_passes (o : outside) (env : Env) (token : string) (w : world) : Prop :=
  (run o (verifyCaptcha env token) w).1 = Returned true.





(** *** Sample data *)

(** An empty pair of stores. *)
Definition empty_world : world := {| counts := ∅; ratelimit := ∅; log := [] |}.

(** An outside where every call is answered 200 with the same JSON value. *)
Definition answering (v : value) : outside :=
  {| answer := fun _ _ => {| rs_status := 200; rs_headers := []; rs_json := Some v |};
     date := (2025, 0)%Z |}.


(** A deployment without captcha secret and with a maximum of 1000 bytes. *)
Definition sample_env : Env :=
  {| GH_OWNER := "SimRaceMarket"; GH_REPO := "SRM-UGC"; GH_TOKEN := "t";
     ALLOWED_ORIGINS := None; HCAPTCHA_SECRET := None;
     MAX_FILE_BYTES := VStr "1000" |}.

(** An integer as a JSON value. *)
Definition int (z : Z) : value := VNum (num_of_Z z).

(** A JSON request from one client address. *)
Definition json_request (client : string) (body : option value) : Request :=
  {| rq_headers := [("cf-connecting-ip", client)];
     rq_json := body;
     rq_form := None |}.

Definition rate_body (id : string) (rating : value) : value :=
  VObj [("id", VStr id); ("rating", rating)].

(** A world where item 7 has two ratings averaging 4.5. *)
Definition rated_twice : world :=
  {| counts := <["rating_count:7" := "2"]> (<["rating:7" := "4.5"]> ∅);
     ratelimit := ∅;
     log := [] |}.

(** A world where item [a] has five likes. *)
Definition liked_five_times : world :=
  {| counts := <["likes:a" := "5"]> ∅; ratelimit := ∅; log := [] |}.

(** A stand-in for the platform's URL parser, on [https://host/path] only. *)
Definition is_slash (a : ascii) : bool := Ascii.eqb a "/".

Definition https_URL (s : string) : option URL :=
  if String.prefix "https://" s
  then
    let host := fst (cut is_slash (String.substring 8 (String.length s - 8) s)) in
    if is_empty host then None
    else Some {| hostname := host; searchParams := [] |}
  else None.

(** The URL of a download request. *)
Definition download_url (asset id : string) : URL :=
  {| hostname := "api.example"; searchParams := [("asset", asset); ("id", id)] |}.

(** Sample catalogs: item 7 with snapshot counters, an item known by its
    legacy number only, and an item without identifier. *)
Definition item_seven : value :=
  VObj [("id", int 7); ("title", VStr "GT3 setup"); ("likes", int 3);
        ("downloads", int 0)].



(** An item with an [id] and a different legacy [number]. *)
Definition item_renumbered : value :=
  VObj [("id", VStr "a"); ("number", int 42); ("title", VStr "Renumbered")].

(** An outside whose catalog holds the given items. *)
Definition catalog_of (items : list value) : outside :=
  answering (VObj [("items", VArr items)]).

(** Sample submissions. *)
Definition form_request (form : list (string * form_value)) : Request :=
  {| rq_headers := [("content-type", "multipart/form-data; boundary=x")];
     rq_json := None;
     rq_form := Some form |}.

Definition complete_fields : list (string * form_value) :=
  [("title", FStr "GT3 setup"); ("category", FStr "setups");
   ("game", FStr "ACC"); ("description", FStr "Monza quali");
   ("author", FStr "ana")].

Definition small_file : file := {| f_name := "setup.json"; f_size := 500 |}.
Definition big_file : file := {| f_name := "replay.zip"; f_size := 5000 |}.

Definition blank_category : list (string * form_value) :=
  [("title", FStr "GT3 setup"); ("category", FStr "  "); ("game", FStr "ACC");
   ("description", FStr "x"); ("author", FStr "ana");
   ("files", FFile small_file)].

Definition two_files : list (string * form_value) :=
  (complete_fields ++ [("files", FFile small_file); ("files", FFile big_file)])%list.

(** *** Texts *)

(** The first and the last character of a text. *)
Definition first_char (s : string) : option ascii :=
  match s with
  | String a _ => Some a
  | EmptyString => None
  end.

Fixpoint last_char (s : string) : option ascii :=
  match s with
  | String a EmptyString => Some a
  | String _ r => last_char r
  | EmptyString => None
  end.

(** A text that neither starts nor ends with white space. *)
Definition not_ws (o : option ascii) : bool :=
  match o with
  | Some a => negb (is_ws a)
  | None => true
  end.

Definition is_trimmed (s : string) : bool :=
  not_ws (first_char s) && not_ws (last_char s).

(** A text without the character [c]. *)
Definition free_of (c : ascii) (s : string) : bool :=
  all_chars (fun a => negb (Ascii.eqb a c)) s.

(** A character of a numeral or of a safe name: ASCII and not white space. *)
Definition plain (a : ascii) : bool := is_ascii a && negb (is_ws a).

(** A character as [chars] cuts it: one byte, or bytes from 128 up only. *)
Definition whole (c : string) : bool :=
  match c with
  | EmptyString => false
  | String _ EmptyString => true
  | _ => all_chars (fun a => negb (is_ascii a)) c
  end.

(** The labels of [getFileType]. *)
Definition file_labels : list string :=
  ["Setup File"; "Archive"; "Documentation"; "Text File"; "3D Model";
   "Config File"; "Image"; "Video"; "File"].

(** The lower-case names that every object inherits from
    [Object.prototype], where a lookup in the table of [getFileType] finds
    something that is not a label. *)
Definition inherited_lower : list string := ["constructor"; "__proto__"].

(** *** Footprints *)







(** What a download of [asset] for item [id] may do: fetch the asset, its
    host being on the allow-list, and read and write the download counter of
    the item, [id] not being empty. *)
Definition download_event (new_URL : string -> option URL) (asset id : string)
    (e : event) : Prop :=
  match e with
  | EFetch c =>
      c = AssetFetch asset /\
      exists u, new_URL asset = Some u /\ allowed_host (hostname u) = true
  | EGet ns k => ns = SRM_COUNTS /\ k = "downloads:" +:+ id /\ is_empty id = false
  | EPut ns k _ ttl =>
      ns = SRM_COUNTS /\ k = "downloads:" +:+ id /\ is_empty id = false /\ ttl = None
  end.

(** A status that [new Response] takes together with a body: from 200 to
    599, and none of 204, 205 and 304. *)
Definition status_with_body (s : Z) : bool :=
  ((200 <=? s) && (s <=? 599) &&
   negb ((s =? 204) || (s =? 205) || (s =? 304)))%Z.

(** The value of a header in a list of settings applied in order: the last
    setting of the name. *)
Definition last_setting (k : string) (l : Headers) : option string := assoc k (rev l).

(** What a read endpoint may do: fetch the catalog and read counters. *)
Definition read_event (e : event) : Prop :=
  match e with
  | EFetch CatalogFetch => True
  | EGet SRM_COUNTS _ => True
  | _ => False
  end.

(** An outside where every call is answered with the given status and a body
    that is not JSON. *)
Definition refusing (s : Z) : outside :=
  {| answer := fun _ _ => {| rs_status := s; rs_headers := []; rs_json := None |};
     date := (2025, 0)%Z |}.

(** *** Statistics *)

(** The key under which [handleStats] counts an item in the table of the
    field [f]. *)
Definition stat_key (f : string) (it : value) : string :=
  ToString (or (prop it f) (VStr "other")).








(** The reads of [handleStats] for an item. *)
Definition stat_reads (it : value) : list event :=
  if is_empty (item_key it) then [] else [EGet SRM_COUNTS ("downloads:" +:+ item_key it)].




(** What [handleStats] adds to the total for an item (lines 280-283), on the
    values the store holds. *)
Definition stat_value (c : gmap string string) (it : value) : value :=
  if is_empty (item_key it) then or (prop it "downloads") (VNum (num_of_Z 0))
  else VNum (ToNumber (or (or (of_opt (c !! ("downloads:" +:+ item_key it)))
                              (prop it "downloads"))
                          (VNum (num_of_Z 0)))).

(** One step of the reduction that builds a table (lines 290-292). *)
Definition count_in (f : string) (acc : list (string * value)) (item : value)
  : list (string * value) :=
  let k := stat_key f item in
  assoc_set k
    (js_add (or (default VUndef (assoc k acc)) (VNum (num_of_Z 0)))
            (VNum (num_of_Z 1)))
    acc.

(** The table of the field [f] over a catalog. *)
Definition table (f : string) (items : list value) : list (string * value) :=
  fold_left (count_in f) items [].

(** *** Paths *)

(** On every path of a program, whatever the outside answers: the effects
    performed, in order, and the outcome satisfy [Q]. *)
Fixpoint paths {A : Type} (Q : list event -> outcome A -> Prop) (p : io A) : Prop :=
  match p with
  | Ret a => Q [] (Returned a)
  | Throw m => Q [] (Thrown m)
  | KvGet ns key k => forall v, paths (fun l => Q (EGet ns key :: l)) (k v)
  | KvPut ns key val ttl k => paths (fun l => Q (EPut ns key val ttl :: l)) k
  | Fetch c k => forall r, paths (fun l => Q (EFetch c :: l)) (k r)
  | Now k => forall d, paths Q (k d)
  end.

(** *** The steps of a submission *)

(** The verification of the captcha, and the lookup or the creation of the
    release of the month. *)
Definition is_captcha_call (e : event) : Prop :=
  match e with
  | EFetch (CaptchaVerify _ _) => True
  | _ => False
  end.

Definition is_setup_call (e : event) : Prop :=
  match e with
  | EFetch (CaptchaVerify _ _) | EFetch (ReleaseByTag _) | EFetch (ReleaseCreate _) => True
  | _ => False
  end.

Definition is_call (e : event) : Prop :=
  match e with
  | EFetch _ => True
  | _ => False
  end.

(** The upload of a file to the release [relId], and the entry of the asset
    list for it, given the download URL that the upload answered. *)
Definition upload_call (relId : value) (f : file) : event :=
  EFetch (AssetUpload (ToString relId) (sanitize (f_name f)) f).

Definition asset (f : file) (url : value) : FileMeta :=
  {| fm_name := sanitize (f_name f); fm_url := url; fm_size := f_size f;
     fm_type := getFileType (f_name f) |}.

(** The title of the tracking issue of a form: the category in upper case
    between brackets, then the title of the submission.  [toUpperCase] is
    modelled on the ASCII letters, so the upper case is stated for a category
    in ASCII. *)
Definition titled (form : list (string * form_value)) (title : string) : Prop :=
  exists shout : string,
    title = "[" +:+ shout +:+ "] " +:+ submitted form "title" /\
    (all_chars is_ascii (submitted form "category") = true ->
     shout = map_chars upper (submitted form "category")).

(** The effects of a submission that is answered 200: the setup calls, the
    upload of every attached file in order, then the creation of the
    tracking issue, which carries the metadata and the uploaded assets. *)
Definition accepted_submission (env : Env) (form : list (string * form_value))
    (l : list event) : Prop :=
  exists (relId : value) (pre : list event) (urls : list value) (title : string),
    Forall is_setup_call pre /\
    length urls = length (files_of form) /\
    l = (pre ++ map (upload_call relId) (files_of form) ++
         [EFetch (IssueCreate title (meta_of (raw_of form))
                    (zip_with asset (files_of form) urls))])%list /\
    Forall (fun f => too_large env f = false) (files_of form) /\
    (forall k, k ∈ required_fields -> is_empty (submitted form k) = false) /\
    titled form title.

(** What every path of a submission satisfies. *)
Definition submit_path (env : Env) (req : Request) (l : list event)
    (r : outcome Response) : Prop :=
  match r with
  | Returned resp =>
      (status resp = 200%Z ->
       exists form, rq_form req = Some form /\ accepted_submission env form l) /\
      (status resp = 400%Z \/ status resp = 415%Z -> Forall is_captcha_call l)
  | Thrown _ => True
  end.

(** The tag of the release of the month (line 309). *)
Definition release_tag (d : Z * Z) : string :=
  "ugc-uploads-" +:+ NumberToString (num_of_Z (fst d)) +:+ "-" +:+
  padStart2 (NumberToString (num_of_Z (snd d + 1))).

(** [(await r.json()).id] *)
Definition release_id (r : fetch_response) : outcome value :=
  match rs_json r with
  | None => Thrown "SyntaxError"
  | Some j => if readable j then Returned (prop j "id") else Thrown "TypeError"
  end.

(** A deployment with a captcha secret. *)
Definition guarded_env : Env :=
  {| GH_OWNER := "SimRaceMarket"; GH_REPO := "SRM-UGC"; GH_TOKEN := "t";
     ALLOWED_ORIGINS := None; HCAPTCHA_SECRET := Some "s3cret";
     MAX_FILE_BYTES := VUndef |}.

(** The answers of a successful submission. *)
Definition github : outside :=
  answering (VObj [("id", int 9); ("number", int 12);
                   ("html_url", VStr "https://github.com/o/r/issues/12");
                   ("browser_download_url", VStr "https://github.com/o/r/releases/download/t/setup.json")]).


(** Anything but the verification of the captcha. *)
Definition not_captcha_call (e : event) : Prop := ~ is_captcha_call e.

(** No captcha secret is configured: absent, or empty. *)
Definition captcha_off (env : Env) : bool :=
  match HCAPTCHA_SECRET env with
  | None => true
  | Some secret => is_empty secret
  end.

(** A month index as [getUTCMonth] gives it. *)
Definition month_index (m : Z) : bool := ((0 <=? m) && (m <=? 11))%Z.

(** An outside where the lookup of the release fails with the first status
    and its creation is answered with the second, both without JSON body
    unless 2xx, where the body is an object with the id 9. *)
Definition releases (lookup create : Z) : outside :=
  {| answer := fun _ c =>
       let s := match c with ReleaseByTag _ => lookup | _ => create end in
       {| rs_status := s; rs_headers := [];
          rs_json := if ((200 <=? s) && (s <=? 299))%Z
                     then Some (VObj [("id", int 9)]) else None |};
     date := (2025, 10)%Z |}.

(** A submission with a captcha token. *)
Definition with_token : list (string * form_value) :=
  (complete_fields ++ [("captchaToken", FStr "tok")])%list.

(** An outside where the captcha service refuses every token, with status
    200. *)
Definition captcha_refuses : outside := answering (VObj [("success", VBool false)]).

(** *** Routes *)

(** The table of the router: method and path of each route but the item
    view, whose path carries the id. *)
Definition routes : list (string * string) :=
  [("GET", "/content"); ("POST", "/like"); ("POST", "/rate"); ("GET", "/download");
   ("POST", "/download/track"); ("POST", "/submit"); ("GET", "/stats")].

(** The route of the item view: GET on a path under [/content/]. *)
Definition item_route (method pathname : string) : bool :=
  String.prefix "/content/" pathname && String.eqb method "GET".

(** The headers of an answer whose body is a text: the CORS headers, and the
    content type of a text after them unless they name one. *)
Definition with_text_type (cors : Headers) : Headers :=
  match assoc "content-type" cors with
  | Some _ => cors
  | None => (cors ++ [("content-type", "text/plain;charset=UTF-8")])%list
  end.

(** The answer to a request that matches no route. *)
Definition not_found (cors : Headers) : Response :=
  {| status := 404; headers := with_text_type cors; body := TextBody "Not found" |}.

(** The answer of the router after an error with the given message. *)
Definition server_error (message : string) (cors : Headers) : Response :=
  err 500 (if is_empty message then "Server error" else message) cors.

(** The CORS headers as [corsHeaders] gives them when every origin is allowed
    ([ALLOWED_ORIGINS] absent or [*]): the origin of the request comes back,
    empty when the request names none. *)
Definition open_cors (env : Env) (req : Request) : Headers :=
  [("access-control-allow-origin", ToString (or (header req "origin") (VStr "")));
   ("access-control-allow-headers", "authorization,content-type");
   ("access-control-allow-methods", "GET,POST,OPTIONS");
   ("access-control-max-age", "600")].

(** A URL without query parameters. *)
Definition plain_url : URL := {| hostname := "api.example"; searchParams := [] |}.

(** *** Submissions that fail *)




(** *** The range of a rating *)


(** *** Headers of the answers *)

(** A list of headers that has every header of [cors], with its value. *)
Definition carries (cors h : Headers) : Prop :=
  forall k v, assoc k cors = Some v -> assoc k h = Some v.

Definition reply_headers (r : Reply) : Headers :=
  match r with
  | WithBody resp => headers resp
  | NoBody _ h => h
  end.

(** The answer of a handler, when it answers, carries the headers [cors]. *)
Definition answer_carries (cors : Headers) (r : outcome Response) : Prop :=
  match r with
  | Returned resp => carries cors (headers resp)
  | Thrown _ => True
  end.

(** *** The entries of a form *)

(** The text entries of a form, in order. *)
Definition texts (form : list (string * form_value)) : list (string * string) :=
  omap (fun kv => match snd kv with
                  | FStr s => Some (fst kv, s)
                  | FFile _ => None
                  end) form.

(** The last text entry of a name. *)
Definition last_text (k : string) (form : list (string * form_value)) : option string :=
  last_setting k (texts form).

(** What a submission may upload: a [File] entry of the form under the name
    [files], within the maximum, under its sanitized name. *)
Definition upload_ok (env : Env) (req : Request) (e : event) : Prop :=
  match e with
  | EFetch (AssetUpload _ name f) =>
      (exists form, rq_form req = Some form /\ ("files", FFile f) ∈ form) /\
      name = sanitize (f_name f) /\ too_large env f = false
  | _ => True
  end.

(** A form whose title comes twice and whose category is a file. *)
Definition odd_form : list (string * form_value) :=
  [("title", FStr "first"); ("title", FStr " second "); ("category", FFile small_file);
   ("attachment", FFile big_file)].

(** ** Facts about the ECMAScript fragment *)

(** [Number] on strings, [toFixed(1)] and [String] on sample values. *)
Example StringToNumber_ex :
  StringToNumber " 42 " = num_of_Z 42 /\
  StringToNumber "" = num_of_Z 0 /\
  StringToNumber "abc" = NaN /\
  StringToNumber "0x1F" = num_of_Z 31 /\
  StringToNumber "-Infinity" = Inf true /\
  num_eqb (StringToNumber "4.5") (Fin (Q2Qc (9 # 2))) = true /\
  num_eqb (StringToNumber "25e-1") (Fin (Q2Qc (5 # 2))) = true /\
  num_eqb (StringToNumber ".5") (Fin (Q2Qc (1 # 2))) = true /\
  StringToNumber "." = NaN /\
  StringToNumber "1e" = NaN.
Proof. vm_compute. repeat split. Qed.

Example toFixed1_ex :
  toFixed1 (Fin (Q2Qc (17 # 4))) = "4.3" /\
  toFixed1 (Fin (Q2Qc (- 9 # 4))) = "-2.3" /\
  toFixed1 (num_of_Z 3) = "3.0" /\
  toFixed1 (Fin (Q2Qc (1 # 100))) = "0.0" /\
  toFixed1 (Fin (Q2Qc (13 # 3))) = "4.3" /\
  toFixed1 NaN = "NaN".
Proof. vm_compute. repeat split. Qed.

Example ToString_ex :
  ToString (VNum (num_of_Z 42)) = "42" /\
  ToString (VNum (Fin (Q2Qc (- 5 # 2)))) = "-2.5" /\
  ToString (VNum (Fin (Q2Qc (1 # 8)))) = "0.125" /\
  ToString (VArr [VNum (num_of_Z 1); VNull; VStr "a"]) = "1,,a" /\
  ToString (VObj []) = "[object Object]".
Proof. vm_compute. repeat split. Qed.

Section Strings.

Lemma str_app_nil_l (s : string) : "" +:+ s = s.
Proof. reflexivity. Qed.

Lemma str_app_cons (a : ascii) (s t : string) : String a s +:+ t = String a (s +:+ t).
Proof. reflexivity. Qed.

Lemma str_app_nil_r (s : string) : s +:+ "" = s.
Proof. induction s as [|a s IH]; [reflexivity|]. now rewrite str_app_cons, IH. Qed.

Lemma str_app_assoc (s t u : string) : (s +:+ t) +:+ u = s +:+ (t +:+ u).
Proof. induction s as [|a s IH]; [reflexivity|]. now rewrite !str_app_cons, IH. Qed.

Lemma str_app_empty (s t : string) : is_empty (s +:+ t) = is_empty s && is_empty t.
Proof. now destruct s. Qed.

End Strings.

Section Digits.

Lemma to_uint_not_nil (n : N) : N.to_uint n <> Decimal.Nil.
Proof.
  intros H. pose proof (DecimalN.Unsigned.of_to n) as E. rewrite H in E.
  cbn in E. subst n. discriminate H.
Qed.

Lemma digits_unfold (n : N) : digits n = NilEmpty.string_of_uint (N.to_uint n).
Proof.
  unfold digits. pose proof (to_uint_not_nil n).
  destruct (N.to_uint n); [congruence | reflexivity ..].
Qed.

Lemma all_digits_string_of_uint (d : Decimal.uint) :
  all_digits (NilEmpty.string_of_uint d) = true.
Proof. unfold all_digits. induction d; cbn; auto. Qed.

Lemma all_digits_digits (n : N) : all_digits (digits n) = true.
Proof. rewrite digits_unfold. apply all_digits_string_of_uint. Qed.

Lemma digits_nonempty (n : N) : is_empty (digits n) = false.
Proof.
  rewrite digits_unfold. pose proof (to_uint_not_nil n).
  destruct (N.to_uint n); [congruence | reflexivity ..].
Qed.

Lemma digits_val_digits (n : N) : digits_val (digits n) = Some n.
Proof.
  unfold digits_val. rewrite digits_unfold, NilEmpty.usu. cbn.
  now rewrite DecimalN.Unsigned.of_to.
Qed.

Lemma digits_inj (m n : N) : digits m = digits n -> m = n.
Proof.
  intros E. pose proof (digits_val_digits m) as Hm.
  rewrite E, digits_val_digits in Hm. congruence.
Qed.

End Digits.

Section Characters.

Lemma all_chars_app (p : ascii -> bool) (s t : string) :
  all_chars p (s +:+ t) = all_chars p s && all_chars p t.
Proof.
  induction s as [|a s IH]; [reflexivity|].
  rewrite str_app_cons. cbn. now rewrite IH, andb_assoc.
Qed.

Lemma all_chars_impl (p q : ascii -> bool) (s : string) :
  (forall a, p a = true -> q a = true) ->
  all_chars p s = true -> all_chars q s = true.
Proof.
  intros Hpq. induction s as [|a s IH]; cbn; [reflexivity|].
  intros [Ha Hs]%andb_prop. now rewrite (Hpq _ Ha), IH.
Qed.

Lemma unchars_chars (s : string) : unchars (chars s) = s.
Proof.
  induction s as [|a s IH]; [reflexivity|]. cbn [chars].
  destruct (chars s) as [|c l]; [cbn in IH |- *; now subst|].
  change (unchars (c :: l)) with (c +:+ unchars l) in IH.
  destruct (negb (is_ascii a) && continues c).
  - change (String a (c +:+ unchars l) = String a s). now rewrite IH.
  - change (String a (c +:+ unchars l) = String a s). now rewrite IH.
Qed.

Lemma chars_whole (s : string) : Forall (fun c => whole c = true) (chars s).
Proof.
  induction s as [|a s IH]; cbn [chars]; [constructor|].
  destruct (chars s) as [|c l]; [now repeat constructor|].
  destruct (negb (is_ascii a) && continues c) eqn:E; [|now constructor].
  apply andb_prop in E as [Ha Hc]. inversion_clear IH as [|? ? W F].
  constructor; [|exact F].
  destruct c as [|b c]; [discriminate|]. cbn in Hc.
  change (whole (String a (String b c))) with
    (negb (is_ascii a) && all_chars (fun a => negb (is_ascii a)) (String b c)).
  rewrite Ha. cbn [andb]. destruct c as [|d c]; [|exact W].
  cbn. rewrite andb_true_r. revert Hc. unfold is_continuation, is_ascii.
  generalize (N_of_ascii b). intros n H. apply negb_true_iff, N.ltb_ge. 
  apply andb_prop in H as [H _]. now apply N.leb_le in H.
Qed.

Lemma ws_ascii (a : ascii) : is_ws a = true -> is_ascii a = true.
Proof. destruct a as [[] [] [] [] [] [] [] []]; vm_compute; congruence. Qed.

Lemma whole_edges (c : string) :
  whole c = true -> is_space c = false ->
  not_ws (first_char c) = true /\ not_ws (last_char c) = true.
Proof.
  destruct c as [|a [|b c]]; [discriminate| |].
  - cbn. intros _ ->. now split.
  - intros W _. change (all_chars (fun a => negb (is_ascii a)) (String a (String b c)) = true) in W.
    assert (forall s, all_chars (fun a => negb (is_ascii a)) s = true ->
                      not_ws (first_char s) = true /\ not_ws (last_char s) = true) as G.
    { clear. induction s as [|a s IH]; [now split|]. cbn [all_chars].
      intros [Ha Hs]%andb_prop. 
      assert (is_ws a = false) as Wa.
      { destruct (is_ws a) eqn:E; [|reflexivity]. apply ws_ascii in E. now rewrite E in Ha. }
      split; [cbn; now rewrite Wa|].
      destruct s as [|b s]; [cbn; now rewrite Wa|]. exact (proj2 (IH Hs)). }
    exact (G _ W).
Qed.

Lemma all_chars_unchars (p : ascii -> bool) (l : list string) :
  all_chars p (unchars l) = forallb (all_chars p) l.
Proof.
  induction l as [|c l IH]; [reflexivity|].
  change (unchars (c :: l)) with (c +:+ unchars l). cbn [forallb].
  now rewrite all_chars_app, IH.
Qed.

Lemma chars_plain (s : string) :
  all_chars plain s = true ->
  Forall (fun c => is_space c = false) (chars s) /\
  match chars s with c :: _ => continues c = false | [] => True end.
Proof.
  induction s as [|a s IH]; cbn [chars all_chars]; [now split|].
  intros [Ha Hs]%andb_prop. destruct (IH Hs) as [F C].
  apply andb_prop in Ha as [A W]. apply negb_true_iff in W.
  assert (is_continuation a = false) as Ca.
  { revert A. clear. destruct a as [[] [] [] [] [] [] [] []]; vm_compute; congruence. }
  rewrite A. cbn [negb andb]. 
  destruct (chars s) as [|c l]; (split; [|exact Ca]);
    (constructor; [exact W | exact F]).
Qed.

Lemma trim_start_id (l : list string) :
  Forall (fun c => is_space c = false) l -> trim_start l = l.
Proof. intros [|c r Hc _]; cbn; [reflexivity | now rewrite Hc]. Qed.

Lemma trim_end_id (l : list string) :
  Forall (fun c => is_space c = false) l -> trim_end l = l.
Proof.
  induction 1 as [|c l Hc F IH]; cbn; [reflexivity|].
  rewrite IH, Hc. now destruct l.
Qed.

Lemma trim_id (s : string) : all_chars plain s = true -> trim s = s.
Proof.
  intros H. destruct (chars_plain _ H) as [F _]. unfold trim.
  now rewrite (trim_start_id _ F), (trim_end_id _ F), unchars_chars.
Qed.

Lemma cut_absent (p : ascii -> bool) (s : string) :
  all_chars (fun a => negb (p a)) s = true -> cut p s = (s, None).
Proof.
  induction s as [|a r IH]; cbn; [reflexivity|].
  intros [Ha Hr]%andb_prop. apply negb_true_iff in Ha as ->. now rewrite (IH Hr).
Qed.


Lemma digit_not_ws (a : ascii) : is_digit a = true -> plain a = true.
Proof. destruct a as [[] [] [] [] [] [] [] []]; vm_compute; congruence. Qed.

Lemma digit_not_dot (a : ascii) : is_digit a = true -> negb (is_dot a) = true.
Proof. destruct a as [[] [] [] [] [] [] [] []]; vm_compute; congruence. Qed.

Lemma digit_not_exp (a : ascii) : is_digit a = true -> negb (is_exp a) = true.
Proof. destruct a as [[] [] [] [] [] [] [] []]; vm_compute; congruence. Qed.



Lemma decimal_no_radix (a : ascii) : is_decimal_char a = true -> radix_of a = None.
Proof. destruct a as [[] [] [] [] [] [] [] []]; vm_compute; congruence. Qed.

Lemma digit_is_decimal (a : ascii) : is_digit a = true -> is_decimal_char a = true.
Proof. unfold is_decimal_char. now intros ->. Qed.

Lemma parse_radix_decimal (s : string) :
  all_chars is_decimal_char s = true -> parse_radix s = None.
Proof.
  destruct s as [|a [|c r]]; [reflexivity | |].
  - intros _. destruct a as [[] [] [] [] [] [] [] []]; reflexivity.
  - cbn. intros [Ha [Hc _]%andb_prop]%andb_prop.
    rewrite (decimal_no_radix _ Hc).
    destruct a as [[] [] [] [] [] [] [] []]; reflexivity.
Qed.

(** A numeral that starts with a digit is neither signed nor [Infinity]. *)
Lemma parse_unsigned_digit_head (a : ascii) (s : string) :
  is_digit a = true ->
  parse_unsigned_decimal (String a s) =
  (let '(m, e) := cut is_exp (String a s) in
   q ← parse_mantissa m;
   match e with
   | None => Some (Fin q)
   | Some es => z ← parse_exponent es; Some (Fin (q * pow10 z)%Qc)
   end).
Proof.
  intros Ha.
  destruct a as [[] [] [] [] [] [] [] []];
    try (vm_compute in Ha; discriminate Ha); reflexivity.
Qed.

Lemma parse_decimal_digit_head (a : ascii) (s : string) :
  is_digit a = true ->
  parse_decimal (String a s) = parse_unsigned_decimal (String a s).
Proof.
  intros Ha.
  destruct a as [[] [] [] [] [] [] [] []];
    try (vm_compute in Ha; discriminate Ha); reflexivity.
Qed.

End Characters.

Section NumberOfDigits.

Lemma Q2Qc_0 : Q2Qc 0 = 0%Qc.
Proof. reflexivity. Qed.

Lemma digits_decimal (n : N) : all_chars is_decimal_char (digits n) = true.
Proof. exact (all_chars_impl _ _ _ digit_is_decimal (all_digits_digits n)). Qed.

Lemma digits_head (n : N) : exists a r, digits n = String a r /\ is_digit a = true.
Proof.
  pose proof (all_digits_digits n) as H. pose proof (digits_nonempty n) as E.
  destruct (digits n) as [|a r]; [discriminate E|].
  apply andb_prop in H as [Ha _]. now exists a, r.
Qed.

Lemma parse_mantissa_digits (n : N) :
  parse_mantissa (digits n) = Some (Q2Qc (inject_Z (Z.of_N n))).
Proof.
  unfold parse_mantissa.
  rewrite (cut_absent is_dot _
             (all_chars_impl _ _ _ digit_not_dot (all_digits_digits n))).
  cbn [default]. rewrite digits_nonempty, digits_val_digits. cbn.
  f_equal. change (Q2Qc (inject_Z 0)) with 0%Qc. ring.
Qed.

Lemma parse_decimal_digits (n : N) : parse_decimal (digits n) = Some (num_of_N n).
Proof.
  destruct (digits_head n) as (a & r & E & Ha).
  rewrite E, (parse_decimal_digit_head _ _ Ha), (parse_unsigned_digit_head _ _ Ha), <- E.
  rewrite (cut_absent is_exp _
             (all_chars_impl _ _ _ digit_not_exp (all_digits_digits n))).
  now rewrite parse_mantissa_digits.
Qed.

(** [Number(String(n)) = n] for a natural number [n]. *)
Lemma StringToNumber_digits (n : N) : StringToNumber (digits n) = num_of_N n.
Proof.
  unfold StringToNumber.
  rewrite (trim_id _ (all_chars_impl _ _ _ digit_not_ws (all_digits_digits n))).
  rewrite digits_nonempty, (parse_radix_decimal _ (digits_decimal n)).
  now rewrite parse_decimal_digits.
Qed.

End NumberOfDigits.

Section NaturalNumbers.

Lemma this_of_Z (z : Z) : this (Q2Qc (inject_Z z)) = inject_Z z.
Proof. cbn [this Q2Qc]. apply inject_Z_Qred. Qed.

Lemma Qc_of_Z_inj (a b : Z) : Q2Qc (inject_Z a) = Q2Qc (inject_Z b) -> a = b.
Proof.
  intros H%Q2Qc_eq_iff. unfold Qeq in H. cbn in H. lia.
Qed.

Lemma Qc_ltb_of_Z (a b : Z) :
  Qc_ltb (Q2Qc (inject_Z a)) (Q2Qc (inject_Z b)) = (a <? b)%Z.
Proof.
  unfold Qc_ltb, Qccompare. rewrite !this_of_Z. unfold Qcompare. cbn.
  rewrite !Z.mul_1_r. unfold Z.ltb. now destruct (a ?= b)%Z.
Qed.

Lemma Qc_ltb_lt (p q : Qc) : Qc_ltb p q = true <-> (p < q)%Q.
Proof.
  unfold Qc_ltb, Qccompare. rewrite Qlt_alt.
  destruct (p ?= q)%Q; split; congruence.
Qed.

Lemma below_mono (x : number) (a b : Q) :
  (a <= b)%Q -> below x a = true -> below x b = true.
Proof.
  unfold below. intros L. destruct x as [|neg|q]; cbn; try (intros H; exact H).
  intros H. apply Qc_ltb_lt in H. apply Qc_ltb_lt.
  cbn [this Q2Qc] in *. rewrite Qred_correct in *. lra.
Qed.

Lemma above_mono (x : number) (a b : Q) :
  (b <= a)%Q -> above x a = true -> above x b = true.
Proof.
  unfold above, num_gt. intros L. destruct x as [|neg|q]; cbn; try (intros H; exact H).
  intros H. apply Qc_ltb_lt in H. apply Qc_ltb_lt.
  cbn [this Q2Qc] in *. rewrite Qred_correct in *. lra.
Qed.

Lemma Qc_eq_bool_of_Z (a b : Z) :
  Qc_eq_bool (Q2Qc (inject_Z a)) (Q2Qc (inject_Z b)) = (a =? b)%Z.
Proof.
  destruct (Qc_eq_bool _ _) eqn:E.
  - apply Qc_eq_bool_correct, Qc_of_Z_inj in E. subst. now rewrite Z.eqb_refl.
  - destruct (Z.eqb_spec a b) as [->|]; [|reflexivity].
    unfold Qc_eq_bool in E. destruct (Qcanon.Qc_eq_dec _ _); congruence.
Qed.

Lemma num_add_of_Z (a b : Z) : num_add (num_of_Z a) (num_of_Z b) = num_of_Z (a + b).
Proof.
  unfold num_of_Z, num_add. f_equal. apply Qc_is_canon.
  cbn [this Qcplus Q2Qc]. rewrite !Qred_correct.
  now rewrite inject_Z_plus.
Qed.

Lemma num_add_one (n : N) : num_add (num_of_N n) (num_of_Z 1) = num_of_N (n + 1).
Proof. unfold num_of_N. rewrite num_add_of_Z. f_equal. lia. Qed.

Lemma num_lt_of_Z (a b : Z) : num_lt (num_of_Z a) (num_of_Z b) = (a <? b)%Z.
Proof. apply Qc_ltb_of_Z. Qed.

Lemma num_eqb_of_Z (a b : Z) : num_eqb (num_of_Z a) (num_of_Z b) = (a =? b)%Z.
Proof. apply Qc_eq_bool_of_Z. Qed.

Lemma num_ge_of_Z (a b : Z) : num_ge (num_of_Z a) (num_of_Z b) = (b <=? a)%Z.
Proof.
  unfold num_ge. rewrite num_lt_of_Z, num_eqb_of_Z.
  destruct (Z.ltb_spec b a), (Z.eqb_spec a b), (Z.leb_spec b a); cbn; lia.
Qed.

(** [String(n)] of a natural number is its digits. *)
Lemma NumberToString_of_N (n : N) : NumberToString (num_of_N n) = digits n.
Proof.
  unfold NumberToString, num_of_N, num_of_Z.
  change (Q2Qc 0) with (Q2Qc (inject_Z 0)). rewrite Qc_ltb_of_Z.
  rewrite this_of_Z.
  assert (Qabs (inject_Z (Z.of_N n)) = inject_Z (Z.of_N n)) as ->.
  { unfold Qabs, inject_Z. f_equal. lia. }
  assert (Qfloor (inject_Z (Z.of_N n)) = Z.of_N n) as ->.
  { unfold Qfloor, inject_Z. apply Z.div_1_r. }
  cbn [Qnum Qden inject_Z].
  replace (Z.of_N n - Z.of_N n * 1)%Z with 0%Z by lia.
  destruct (Z.ltb_spec (Z.of_N n) 0); [lia|].
  cbn. rewrite N2Z.id. now rewrite str_app_nil_r, str_app_nil_l.
Qed.

Lemma truthy_digits (n : N) : truthy (VStr (digits n)) = true.
Proof. cbn. now rewrite digits_nonempty. Qed.

End NaturalNumbers.

Section Rounding.








End Rounding.

Section ToFixed.






End ToFixed.

(** ** Facts about the interpreter *)

Section Interpreter.

Context {A B : Type}.

Lemma run_bind (o : outside) (p : io A) (f : A -> io B) (w : world) :
  run o (p ≫= f) w =
  match run o p w with
  | (Returned a, w') => run o (f a) w'
  | (Thrown m, w') => (Thrown m, w')
  end.
Proof.
  unfold mbind, io_bind. revert w.
  induction p as [a|m|ns key k IH|ns key val ttl k IH|c k IH|k IH]; intros w;
    cbn; auto.
Qed.

Lemma get_readable (v : value) (k : string) :
  readable v = true -> get v k = Ret (prop v k).
Proof. now destruct v. Qed.

End Interpreter.

(** ** The interaction handlers on a body that is not valid JSON *)

Section InvalidBody.

Variables (env : Env) (req : Request) (cors : Headers) (o : outside) (w : world).
Hypothesis invalid : rq_json req = None.

Lemma handleLike_invalid_json :
  run o (handleLike env req cors) w = (Returned (err 400 "Missing id" cors), w).
Proof. unfold handleLike. rewrite invalid. reflexivity. Qed.

Lemma handleRate_invalid_json :
  run o (handleRate env req cors) w =
  (Returned (err 400 "Invalid rating (must be 1-5)" cors), w).
Proof. unfold handleRate. rewrite invalid. reflexivity. Qed.

End InvalidBody.

(** ** [handleRate] *)

Section Rate.

Variables (env : Env) (req : Request) (cors : Headers) (o : outside) (w : world).
Hypothesis body_readable : readable (body_of req) = true.

Let id := item_id req.
Let r := rating_value req.

Lemma handleRate_rejects :
  is_empty id || num_lt r (num_of_Z 1) || num_gt r (num_of_Z 5) = true ->
  run o (handleRate env req cors) w =
  (Returned (err 400 "Invalid rating (must be 1-5)" cors), w).
Proof.
  intros H. unfold handleRate. fold (body_of req).
  rewrite !run_bind, (get_readable _ _ body_readable). cbn [run].
  rewrite !run_bind, (get_readable _ _ body_readable). cbn [run].
  fold (item_id req) (rating_value req). fold id r. now rewrite H.
Qed.

Lemma handleRate_limited :
  is_empty id || num_lt r (num_of_Z 1) || num_gt r (num_of_Z 5) = false ->
  marked w (rate_marker id (client req)) = true ->
  run o (handleRate env req cors) w =
  (Returned (err 429 "Already rated this item" cors),
   record (EGet SRM_RATELIMIT (rate_marker id (client req))) w).
Proof.
  intros H M. unfold handleRate. fold (body_of req).
  rewrite !run_bind, (get_readable _ _ body_readable). cbn [run].
  rewrite !run_bind, (get_readable _ _ body_readable). cbn [run].
  fold (item_id req) (rating_value req). fold id r. rewrite H.
  fold (client req) (rate_marker id (client req)).
  rewrite run_bind. cbn [run kv_get store]. unfold marked in M.
  cbn [ratelimit record]. now rewrite M.
Qed.

Lemma handleRate_accepts :
  is_empty id || num_lt r (num_of_Z 1) || num_gt r (num_of_Z 5) = false ->
  marked w (rate_marker id (client req)) = false ->
  run o (handleRate env req cors) w =
  (Returned
     (ok (VObj
        [("ok", VBool true); ("id", VStr id);
         ("rating",
          VNum (StringToNumber
                  (toFixed1 (new_rating (old_rating w id) (old_count w id) r))));
         ("totalRatings", VNum (num_add (old_count w id) (num_of_Z 1)))]) cors),
   rated w id (client req) r).
Proof.
  intros H M. unfold handleRate. fold (body_of req).
  rewrite !run_bind, (get_readable _ _ body_readable). cbn [run].
  rewrite !run_bind, (get_readable _ _ body_readable). cbn [run].
  fold (item_id req) (rating_value req). fold id r. rewrite H.
  fold (client req) (rate_marker id (client req)).
  rewrite run_bind. cbn [run kv_get store]. unfold marked in M.
  cbn [ratelimit record]. rewrite M.
  cbn. unfold rated, old_rating, old_count, new_rating, record.
  cbn [counts ratelimit log]. rewrite <- !(assoc_L (++)). reflexivity.
Qed.

End Rate.

Section CounterKeys.

Lemma rating_key_ne (id id' : string) : "rating_count:" +:+ id <> "rating:" +:+ id'.
Proof. intros E. vm_compute in E. discriminate E. Qed.

Lemma stored_nat_read (c : gmap string string) (key : string) (n : N) (dflt : value) :
  stored_nat c key n -> ToNumber dflt = num_of_Z 0 -> truthy dflt = false \/ dflt = VStr "0" ->
  ToNumber (or (of_opt (c !! key)) dflt) = num_of_N n.
Proof.
  intros [[E ->] | E] D T; rewrite E.
  - cbn. destruct T as [T| ->]; [unfold or; cbn; exact D | reflexivity].
  - unfold or. cbn [of_opt]. rewrite truthy_digits. cbn. apply StringToNumber_digits.
Qed.


End CounterKeys.

(** ** The properties of [handleRate] *)


(** C2, as the code has it.  A rate request whose body is not [null] and
    whose item id is empty, or whose rating converts to a number below 1 or
    above 5 (0, 6, a missing rating), is answered 400 and leaves both stores
    and the log as they were.  (The id and the rating convert; below 1 and
    above 5 are meant of the rating as the worker compares it, rounded to
    binary64.) *)
Theorem C2_rate_out_of_range
    (env : Env) (req : Request) (cors : Headers) (o : outside) (w : world) :
  readable (body_of req) = true ->
  fields_convert (body_of req) ["id"; "rating"] = true ->
  is_empty (item_id req) = true \/
  below (rating_value req) before_one = true \/
  above (rating_value req) after_five = true ->
  run o (handleRate env req cors) w =
  (Returned (err 400 "Invalid rating (must be 1-5)" cors), w).
Proof.
  intros Hbody _ H. apply handleRate_rejects; [exact Hbody|].
  destruct H as [-> | [H | H]]; [reflexivity | |].
  - apply (below_mono _ _ 1) in H; [|vm_compute; discriminate].
    change (num_lt (rating_value req) (num_of_Z 1) = true) in H.
    now rewrite H, orb_true_r.
  - apply (above_mono _ _ 5) in H; [|vm_compute; discriminate].
    change (num_gt (rating_value req) (num_of_Z 5) = true) in H.
    now rewrite H, orb_true_r.
Qed.

(** C10.  A like or a rate request whose body is not valid JSON has an empty
    item id and is answered 400; the world is unchanged, log included: no
    read and no write of either store. *)
Theorem C10_invalid_json_body
    (env : Env) (req : Request) (cors : Headers) (o : outside) (w : world) :
  rq_json req = None ->
  item_id req = "" /\
  run o (handleLike env req cors) w = (Returned (err 400 "Missing id" cors), w) /\
  run o (handleRate env req cors) w =
    (Returned (err 400 "Invalid rating (must be 1-5)" cors), w).
Proof.
  intros H. split; [|split].
  - unfold item_id, body_of. now rewrite H.
  - now apply handleLike_invalid_json.
  - now apply handleRate_invalid_json.
Qed.


(** The third rating of item 7, a 4 after an average of 4.5 over two
    ratings: 13 / 3 is stored as 4.3, and 4.3 is answered. *)
Example third_rating :
  exists w',
    run (answering VNull)
        (handleRate sample_env
           (json_request "203.0.113.7" (Some (rate_body "7" (int 4)))) [])
        rated_twice =
      (Returned (ok (VObj [("ok", VBool true); ("id", VStr "7");
                           ("rating", VNum (StringToNumber "4.3"));
                           ("totalRatings", int 3)]) []), w') /\
    counts w' !! "rating:7" = Some "4.3" /\
    counts w' !! "rating_count:7" = Some "3".
Proof.
  eexists. split; [|split].
  - rewrite handleRate_accepts; [|reflexivity|vm_compute; reflexivity|reflexivity].
    vm_compute. reflexivity.
  - vm_compute. reflexivity.
  - vm_compute. reflexivity.
Qed.

Lemma C2_witness :
  run (answering VNull)
      (handleRate sample_env
         (json_request "203.0.113.7" (Some (rate_body "7" (int 6)))) [])
      rated_twice =
  (Returned (err 400 "Invalid rating (must be 1-5)" []), rated_twice).
Proof.
  apply (C2_rate_out_of_range sample_env
           (json_request "203.0.113.7" (Some (rate_body "7" (int 6)))) []
           (answering VNull) rated_twice).
  - reflexivity.
  - reflexivity.
  - right. right. vm_compute. reflexivity.
Defined.

(** A rating of 2.5 is not an integer, and it is accepted: answered 200,
    stored as the average, counted, and the client marked. *)
Lemma C2_counterexample :
  let req :=
    json_request "203.0.113.7"
      (Some (rate_body "7" (VNum (Fin (Q2Qc (5 # 2)))))) in
  (forall k : Z, rating_value req <> num_of_Z k) /\
  exists r w',
    run (answering VNull) (handleRate sample_env req []) empty_world =
      (Returned r, w') /\
    status r = 200%Z /\
    counts w' !! "rating:7" = Some "2.5" /\
    counts w' !! "rating_count:7" = Some "1" /\
    ratelimit w' !! "rate:7:203.0.113.7" = Some "1".
Proof.
  intros req. split.
  - intros k E. unfold rating_value, req in E. cbn in E.
    injection E as E. rewrite inject_Z_Qred in E.
    vm_compute in E. injection E as _ E. discriminate E.
  - eexists. eexists. split; [|split; [|split; [|split]]].
    + unfold req. rewrite handleRate_accepts; reflexivity.
    + reflexivity.
    + vm_compute. reflexivity.
    + vm_compute. reflexivity.
    + vm_compute. reflexivity.
Qed.

(** A rating that is not a number at all, such as the string [abc], converts
    to [NaN], which is neither below 1 nor above 5: it is accepted as well,
    and [NaN] is stored as the average. *)
Example rate_non_numeric_accepted :
  exists r w',
    run (answering VNull)
        (handleRate sample_env
           (json_request "203.0.113.7" (Some (rate_body "7" (VStr "abc")))) [])
        empty_world = (Returned r, w') /\
    status r = 200%Z /\
    counts w' !! "rating:7" = Some "NaN" /\
    counts w' !! "rating_count:7" = Some "1".
Proof.
  eexists. eexists. split; [|split; [|split]].
  - rewrite handleRate_accepts; reflexivity.
  - reflexivity.
  - vm_compute. reflexivity.
  - vm_compute. reflexivity.
Qed.

(** A body that is the JSON value [null] is valid JSON: reading [body.id]
    throws, before any store access, and a numeric id is used as its digits. *)
Example null_body_throws :
  run (answering VNull)
      (handleRate sample_env (json_request "203.0.113.7" (Some VNull)) [])
      rated_twice = (Thrown "TypeError", rated_twice) /\
  run (answering VNull)
      (handleLike sample_env (json_request "203.0.113.7" (Some VNull)) [])
      rated_twice = (Thrown "TypeError", rated_twice) /\
  item_id (json_request "203.0.113.7" (Some (VObj [("id", int 7)]))) = "7".
Proof. repeat split. Qed.

Lemma C10_witness :
  item_id (json_request "203.0.113.7" None) = "" /\
  run (answering VNull)
      (handleLike sample_env (json_request "203.0.113.7" None) []) rated_twice =
    (Returned (err 400 "Missing id" []), rated_twice) /\
  run (answering VNull)
      (handleRate sample_env (json_request "203.0.113.7" None) []) rated_twice =
    (Returned (err 400 "Invalid rating (must be 1-5)" []), rated_twice).
Proof.
  apply (C10_invalid_json_body sample_env (json_request "203.0.113.7" None) []
           (answering VNull) rated_twice).
  reflexivity.
Defined.

(** ** What a run of each interaction handler does *)

Section Runs.

Variables (env : Env) (req : Request) (cors : Headers) (o : outside) (w : world).

Lemma get_unreadable {A : Type} (v : value) (k : string) (f : value -> io A) :
  readable v = false -> run o (get v k ≫= f) w = (Thrown "TypeError", w).
Proof. now destruct v. Qed.

Lemma get_then {A : Type} (v : value) (k : string) (f : value -> io A) :
  readable v = true -> run o (get v k ≫= f) w = run o (f (prop v k)) w.
Proof. intros H. now rewrite run_bind, (get_readable _ _ H). Qed.

Lemma handleLike_run :
  run o (handleLike env req cors) w =
  if negb (readable (body_of req)) then (Thrown "TypeError", w)
  else if is_empty (item_id req) then (Returned (err 400 "Missing id" cors), w)
  else if marked w (like_marker (item_id req) (client req))
  then (Returned (err 429 "Rate limited" cors),
        record (EGet SRM_RATELIMIT (like_marker (item_id req) (client req))) w)
  else (Returned
          (ok (VObj [("ok", VBool true); ("id", VStr (item_id req));
                     ("likes",
                      VNum (num_add (counter (counts w) ("likes:" +:+ item_id req))
                                    (num_of_Z 1)))]) cors),
        liked w (item_id req) (client req)).
Proof.
  unfold handleLike. fold (body_of req).
  destruct (readable (body_of req)) eqn:R; cbn [negb].
  2:{ now apply get_unreadable. }
  rewrite (get_then _ _ _ R). fold (item_id req).
  destruct (is_empty (item_id req)); [reflexivity|].
  fold (client req) (like_marker (item_id req) (client req)).
  rewrite run_bind. cbn [run kv_get store]. unfold marked. cbn [ratelimit record].
  destruct (truthy _); [reflexivity|].
  cbn. unfold liked, bump, counter, record. cbn [counts ratelimit log].
  rewrite <- !(assoc_L (++)). reflexivity.
Qed.

Lemma handleRate_run :
  run o (handleRate env req cors) w =
  if negb (readable (body_of req)) then (Thrown "TypeError", w)
  else if is_empty (item_id req) || num_lt (rating_value req) (num_of_Z 1) ||
          num_gt (rating_value req) (num_of_Z 5)
  then (Returned (err 400 "Invalid rating (must be 1-5)" cors), w)
  else if marked w (rate_marker (item_id req) (client req))
  then (Returned (err 429 "Already rated this item" cors),
        record (EGet SRM_RATELIMIT (rate_marker (item_id req) (client req))) w)
  else (Returned
          (ok (VObj
             [("ok", VBool true); ("id", VStr (item_id req));
              ("rating",
               VNum (StringToNumber
                       (toFixed1 (new_rating (old_rating w (item_id req))
                                    (old_count w (item_id req))
                                    (rating_value req)))));
              ("totalRatings",
               VNum (num_add (old_count w (item_id req)) (num_of_Z 1)))]) cors),
        rated w (item_id req) (client req) (rating_value req)).
Proof.
  destruct (readable (body_of req)) eqn:R; cbn [negb].
  2:{ unfold handleRate. fold (body_of req). now apply get_unreadable. }
  destruct (_ || _ || _) eqn:V.
  { now apply handleRate_rejects. }
  destruct (marked _ _) eqn:M.
  - now apply handleRate_limited.
  - now apply handleRate_accepts.
Qed.

Lemma handleDownloadTrack_run :
  run o (handleDownloadTrack env req cors) w =
  if negb (readable (body_of req)) then (Thrown "TypeError", w)
  else if is_empty (track_id req) then (Returned (err 400 "Missing itemId" cors), w)
  else (Returned
          (ok (VObj [("ok", VBool true); ("itemId", VStr (track_id req));
                     ("downloads",
                      VNum (num_add (counter (counts w) ("downloads:" +:+ track_id req))
                                    (num_of_Z 1)));
                     ("fileName", VStr (track_file req))]) cors),
        downloaded w [] (track_id req)).
Proof.
  unfold handleDownloadTrack. fold (body_of req).
  destruct (readable (body_of req)) eqn:R; cbn [negb].
  2:{ now apply get_unreadable. }
  rewrite (get_then _ _ _ R). fold (track_id req).
  rewrite (get_then _ _ _ R). fold (track_file req).
  destruct (is_empty (track_id req)); [reflexivity|].
  cbn. unfold downloaded, bump, counter, record. cbn [counts ratelimit log].
  rewrite <- !(assoc_L (++)). reflexivity.
Qed.

Variable new_URL : string -> option URL.

Lemma handleDownload_run (url : URL) :
  run o (handleDownload new_URL env url cors) w =
  match new_URL (param url "asset") with
  | None => (Returned (err 400 "Invalid asset url" cors), w)
  | Some u =>
      if negb (allowed_host (hostname u))
      then (Returned (err 400 "Disallowed asset host" cors), w)
      else
        let upstream := answer o (log w) (AssetFetch (param url "asset")) in
        if negb (rs_ok upstream)
        then (match refused (rs_status upstream) with
              | Some e => Thrown e
              | None => Returned {| status := rs_status upstream;
                                    headers := text_headers cors;
                                    body := TextBody "Asset not found" |}
              end,
              record (EFetch (AssetFetch (param url "asset"))) w)
        else
          (Returned {| status := 200;
                       headers := with_cors (rs_headers upstream) cors;
                       body := StreamBody upstream |},
           if negb (is_empty (param url "id"))
           then downloaded w [EFetch (AssetFetch (param url "asset"))]
                  (param url "id")
           else record (EFetch (AssetFetch (param url "asset"))) w)
  end.
Proof.
  unfold handleDownload.
  destruct (new_URL (param url "asset")) as [u|]; [|reflexivity].
  destruct (negb (allowed_host (hostname u))); [reflexivity|].
  rewrite run_bind. cbn [run fetch]. cbv zeta.
  destruct (negb (rs_ok _)).
  { unfold text_response. now destruct (refused _). }
  destruct (negb (is_empty (param url "id"))).
  - cbn. unfold downloaded, bump, counter, record. cbn [counts ratelimit log].
    rewrite <- !(assoc_L (++)). reflexivity.
  - reflexivity.
Qed.

End Runs.

(** ** The stores change through logged writes only *)

Section Frame.

Variable o : outside.

Lemma store_record (ns : namespace) (e : event) (w : world) :
  store ns (record e w) = store ns w.
Proof. now destruct ns. Qed.

Lemma store_write (ns ns' : namespace) (key val k : string) (w : world) :
  store ns' (write ns key val w) !! k <> store ns' w !! k -> ns' = ns /\ k = key.
Proof.
  destruct ns, ns'; cbn; intros H; try congruence;
    (destruct (decide (key = k)) as [->|N]; [auto|];
     rewrite lookup_insert_ne in H by exact N; congruence).
Qed.

Lemma run_frame {A : Type} (p : io A) (w : world) :
  exists l,
    log (run o p w).2 = (log w ++ l)%list /\
    forall ns k,
      store ns (run o p w).2 !! k <> store ns w !! k ->
      exists v ttl, EPut ns k v ttl ∈ l.
Proof.
  revert w.
  induction p as [a|m|ns key k IH|ns key val ttl k IH|c k IH|k IH]; intros w;
    cbn [run].
  - exists []. split; [now rewrite app_nil_r | intros ? ? H; now destruct H].
  - exists []. split; [now rewrite app_nil_r | intros ? ? H; now destruct H].
  - destruct (IH (store ns w !! key) (record (EGet ns key) w)) as (l & Hl & Hs).
    exists (EGet ns key :: l). split.
    + rewrite Hl. cbn [log record]. now rewrite <- (assoc_L (++)).
    + intros ns' k' H. rewrite <- (store_record ns' (EGet ns key) w) in H.
      destruct (Hs _ _ H) as (v & t & Hin). exists v, t. now right.
  - destruct (IH (record (EPut ns key val ttl) (write ns key val w)))
      as (l & Hl & Hs).
    exists (EPut ns key val ttl :: l). split.
    + rewrite Hl. cbn [log record]. rewrite <- (assoc_L (++)).
      now destruct ns.
    + intros ns' k' H.
      destruct (decide (store ns' (run o k (record (EPut ns key val ttl)
                                              (write ns key val w))).2 !! k' =
                        store ns' (write ns key val w) !! k')) as [E|N].
      * rewrite E in H. apply store_write in H as [-> ->].
        exists val, ttl. now left.
      * rewrite <- (store_record ns' (EPut ns key val ttl)) in N.
        destruct (Hs _ _ N) as (v & t & Hin). exists v, t. now right.
  - destruct (IH (answer o (log w) c) (record (EFetch c) w)) as (l & Hl & Hs).
    exists (EFetch c :: l). split.
    + rewrite Hl. cbn [log record]. now rewrite <- (assoc_L (++)).
    + intros ns' k' H. rewrite <- (store_record ns' (EFetch c) w) in H.
      destruct (Hs _ _ H) as (v & t & Hin). exists v, t. now right.
  - apply IH.
Qed.

(** A key whose value differs after a run was written during the run. *)
Lemma run_writes_logged {A : Type} (p : io A) (w : world) (ns : namespace) (k : string) :
  store ns (run o p w).2 !! k <> store ns w !! k ->
  exists v ttl, EPut ns k v ttl ∈ new_events w (run o p w).2.
Proof.
  intros H. destruct (run_frame p w) as (l & Hl & Hs).
  unfold new_events. rewrite Hl, drop_app_length. now apply Hs.
Qed.

End Frame.

(** ** The download proxy *)

(** C7.  A download whose asset URL does not parse is answered 400 (invalid
    request); one whose host is not in the allow-list is answered 400
    (disallowed host).  In both cases the world is unchanged, log included:
    no upstream fetch and no write of the download counter. *)
Theorem C7_download_guard
    (new_URL : string -> option URL) (env : Env) (url : URL) (cors : Headers)
    (o : outside) (w : world) :
  (new_URL (param url "asset") = None ->
   run o (handleDownload new_URL env url cors) w =
   (Returned (err 400 "Invalid asset url" cors), w)) /\
  (forall u,
      new_URL (param url "asset") = Some u ->
      allowed_host (hostname u) = false ->
      run o (handleDownload new_URL env url cors) w =
      (Returned (err 400 "Disallowed asset host" cors), w)).
Proof.
  split.
  - intros E. now rewrite handleDownload_run, E.
  - intros u E H. now rewrite handleDownload_run, E, H.
Qed.

Lemma C7_witness :
  run (answering VNull)
      (handleDownload https_URL sample_env (download_url "not a url" "7") [])
      rated_twice =
    (Returned (err 400 "Invalid asset url" []), rated_twice) /\
  run (answering VNull)
      (handleDownload https_URL sample_env
         (download_url "https://evil.example/x.zip" "7") [])
      rated_twice =
    (Returned (err 400 "Disallowed asset host" []), rated_twice).
Proof.
  split.
  - apply (C7_download_guard https_URL sample_env (download_url "not a url" "7") []
             (answering VNull) rated_twice). reflexivity.
  - apply (proj2 (C7_download_guard https_URL sample_env
                    (download_url "https://evil.example/x.zip" "7") []
                    (answering VNull) rated_twice)
             {| hostname := "evil.example"; searchParams := [] |});
      reflexivity.
Defined.

(** ** The counter store *)

Section Counters.

Lemma rating_not_counter (id : string) : ~ counter_key ("rating:" +:+ id).
Proof.
  intros (id' & [E|[E|E]]); vm_compute in E; discriminate E.
Qed.

Lemma counter_stored (c : gmap string string) (k : string) (n : N) :
  stored_nat c k n -> counter c k = num_of_N n.
Proof. intros H. unfold counter. apply stored_nat_read; auto. Qed.

Lemma counters_ok_stored (c : gmap string string) (k : string) :
  counters_ok c -> counter_key k -> exists n, stored_nat c k n.
Proof.
  intros Hc Hk. destruct (c !! k) as [v|] eqn:E.
  - destruct (Hc _ _ Hk E) as (n & ->). exists n. now right.
  - exists 0%N. now left.
Qed.

Lemma bump_stored (c : gmap string string) (k : string) (n : N) :
  stored_nat c k n -> bump c k = <[k := digits (n + 1)]> c.
Proof.
  intros H. unfold bump.
  now rewrite (counter_stored _ _ _ H), num_add_one, NumberToString_of_N.
Qed.

Lemma counters_ok_insert_digits (c : gmap string string) (k : string) (n : N) :
  counters_ok c -> counters_ok (<[k := digits n]> c).
Proof.
  intros Hc k' v Hk'. destruct (decide (k = k')) as [->|Ne].
  - rewrite lookup_insert_eq. intros [= <-]. now exists n.
  - rewrite lookup_insert_ne by exact Ne. now apply Hc.
Qed.

Lemma counters_ok_insert_rating (c : gmap string string) (id avg : string) :
  counters_ok c -> counters_ok (<["rating:" +:+ id := avg]> c).
Proof.
  intros Hc k' v Hk'. destruct (decide ("rating:" +:+ id = k')) as [<-|Ne].
  - now destruct (rating_not_counter id).
  - rewrite lookup_insert_ne by exact Ne. now apply Hc.
Qed.

Lemma counter_insert_ne (c : gmap string string) (k k' v : string) :
  k <> k' -> counter (<[k := v]> c) k' = counter c k'.
Proof. intros Ne. unfold counter. now rewrite lookup_insert_ne. Qed.

Lemma old_count_counter (w : world) (id : string) :
  old_count w id = counter (counts w) ("rating_count:" +:+ id).
Proof.
  unfold old_count, counter, or.
  destruct (counts w !! _) as [v|]; cbn [of_opt truthy].
  - destruct (is_empty v); cbn [negb ToNumber]; [|reflexivity].
    symmetry. apply (StringToNumber_digits 0).
  - symmetry. apply (StringToNumber_digits 0).
Qed.

Lemma rated_counts (w : world) (id client : string) (r : number) :
  counts (rated w id client r) =
  bump (<["rating:" +:+ id :=
            toFixed1 (new_rating (old_rating w id) (old_count w id) r)]> (counts w))
       ("rating_count:" +:+ id).
Proof.
  unfold rated, bump. cbn [counts].
  rewrite counter_insert_ne by (intros E; symmetry in E; now apply rating_key_ne in E).
  now rewrite old_count_counter.
Qed.

(** Each operation takes the counter store through one [counts_step]. *)
Lemma operation_step (op : operation) (o : outside) (w : world) :
  counts_step (counts w) (counts (run o (program op) w).2).
Proof.
  destruct op as [env req cors|env req cors|new_URL env url cors|env req cors];
    cbn [program].
  - rewrite handleLike_run.
    destruct (negb _); [apply step_none|].
    destruct (is_empty _); [apply step_none|].
    destruct (marked _ _); [apply step_none|].
    apply step_bump. exists (item_id req). now left.
  - rewrite handleRate_run.
    destruct (negb _); [apply step_none|].
    destruct (_ || _ || _); [apply step_none|].
    destruct (marked _ _); [apply step_none|].
    cbn [snd]. rewrite rated_counts. apply step_rate.
  - rewrite handleDownload_run.
    destruct (new_URL _); [|apply step_none].
    destruct (negb (allowed_host _)); [apply step_none|]. cbv zeta.
    destruct (negb (rs_ok _)); [apply step_none|].
    destruct (negb (is_empty _)); [|apply step_none].
    apply step_bump. exists (param url "id"). right. now left.
  - rewrite handleDownloadTrack_run.
    destruct (negb _); [apply step_none|].
    destruct (is_empty _); [apply step_none|].
    apply step_bump. exists (track_id req). right. now left.
Qed.

Lemma bump_monotone (c : gmap string string) (k0 k : string) :
  counters_ok c -> counter_key k0 -> counter_key k ->
  num_ge (counter (bump c k0) k) (counter c k) = true.
Proof.
  intros Hc Hk0 Hk.
  destruct (counters_ok_stored _ _ Hc Hk0) as (n0 & Hn0).
  destruct (counters_ok_stored _ _ Hc Hk) as (n & Hn).
  rewrite (bump_stored _ _ _ Hn0), (counter_stored _ _ _ Hn).
  destruct (decide (k0 = k)) as [->|Ne].
  - assert (n0 = n) as ->.
    { destruct Hn0 as [[E ->]|E], Hn as [[E' ->]|E']; try congruence.
      rewrite E in E'. injection E' as E'. now apply digits_inj. }
    unfold counter. rewrite lookup_insert_eq. unfold or. cbn [of_opt].
    rewrite truthy_digits. cbn [ToNumber]. rewrite StringToNumber_digits.
    unfold num_of_N. rewrite num_ge_of_Z. apply Z.leb_le. lia.
  - rewrite counter_insert_ne by exact Ne. rewrite (counter_stored _ _ _ Hn).
    unfold num_of_N. rewrite num_ge_of_Z. apply Z.leb_le. lia.
Qed.

Lemma counts_step_ok (c c' : gmap string string) :
  counters_ok c -> counts_step c c' -> counters_ok c'.
Proof.
  intros Hc [|k Hk|id avg].
  - exact Hc.
  - destruct (counters_ok_stored _ _ Hc Hk) as (n & Hn).
    rewrite (bump_stored _ _ _ Hn). now apply counters_ok_insert_digits.
  - pose proof (counters_ok_insert_rating c id avg Hc) as Hc'.
    assert (counter_key ("rating_count:" +:+ id)) as Hk
        by (exists id; now right; right).
    destruct (counters_ok_stored _ _ Hc' Hk) as (n & Hn).
    rewrite (bump_stored _ _ _ Hn). now apply counters_ok_insert_digits.
Qed.

Lemma counts_step_monotone (c c' : gmap string string) (k : string) :
  counters_ok c -> counts_step c c' -> counter_key k ->
  num_ge (counter c' k) (counter c k) = true.
Proof.
  intros Hc [|k0 Hk0|id avg] Hk.
  - destruct (counters_ok_stored _ _ Hc Hk) as (n & Hn).
    rewrite (counter_stored _ _ _ Hn). unfold num_of_N. rewrite num_ge_of_Z.
    apply Z.leb_le. lia.
  - now apply bump_monotone.
  - pose proof (counters_ok_insert_rating c id avg Hc) as Hc'.
    assert (counter_key ("rating_count:" +:+ id)) as Hk0
        by (exists id; now right; right).
    pose proof (bump_monotone _ _ _ Hc' Hk0 Hk) as M.
    rewrite (counter_insert_ne c ("rating:" +:+ id) k avg) in M; [exact M|].
    intros <-. now destruct (rating_not_counter id).
Qed.

Lemma counts_step_keeps (c c' : gmap string string) (k : string) :
  counts_step c c' -> is_Some (c !! k) -> is_Some (c' !! k).
Proof.
  intros [|k0 Hk0|id avg] H; [exact H | |]; unfold bump.
  - destruct (decide (k0 = k)) as [->|Ne].
    + rewrite lookup_insert_eq. eauto.
    + now rewrite lookup_insert_ne.
  - destruct (decide ("rating_count:" +:+ id = k)) as [<-|Ne].
    + rewrite lookup_insert_eq. eauto.
    + rewrite lookup_insert_ne by exact Ne.
      destruct (decide ("rating:" +:+ id = k)) as [<-|Ne'].
      * rewrite lookup_insert_eq. eauto.
      * now rewrite lookup_insert_ne.
Qed.

Lemma counts_step_changes (c c' : gmap string string) (k : string) :
  counts_step c c' -> c' !! k <> c !! k -> counter_key k \/ rating_key k.
Proof.
  intros [|k0 Hk0|id avg] H; [congruence | |]; unfold bump in H.
  - destruct (decide (k0 = k)) as [<-|Ne]; [now left|].
    rewrite lookup_insert_ne in H by exact Ne. congruence.
  - destruct (decide ("rating_count:" +:+ id = k)) as [<-|Ne].
    + left. exists id. now right; right.
    + rewrite lookup_insert_ne in H by exact Ne.
      destruct (decide ("rating:" +:+ id = k)) as [<-|Ne'].
      * right. now exists id.
      * rewrite lookup_insert_ne in H by exact Ne'. congruence.
Qed.

End Counters.

(** C9.  Starting from a store whose counters hold natural numbers, every
    operation that writes to the counter store (like, rate, download,
    trackDownload) leaves it so, and leaves each likes counter, downloads
    counter and rating count at least at its previous value, an absent key
    reading as zero.  No key is deleted.  A key whose value changes, a new
    key included, is a counter or a rating average, and it was put by a write
    of this run: keys come into being on first write, and the average is the
    only value that is not monotone. *)
Theorem C9_counters_never_decrease (op : operation) (o : outside) (w : world) :
  counters_ok (counts w) ->
  let w' := (run o (program op) w).2 in
  counters_ok (counts w') /\
  (forall k, counter_key k ->
             num_ge (counter (counts w') k) (counter (counts w) k) = true) /\
  (forall k, is_Some (counts w !! k) -> is_Some (counts w' !! k)) /\
  (forall k, counts w' !! k <> counts w !! k ->
             (counter_key k \/ rating_key k) /\
             exists v ttl, EPut SRM_COUNTS k v ttl ∈ new_events w w').
Proof.
  intros Hc w'. pose proof (operation_step op o w) as S. fold w' in S.
  split; [|split; [|split]].
  - exact (counts_step_ok _ _ Hc S).
  - intros k Hk. exact (counts_step_monotone _ _ k Hc S Hk).
  - intros k. exact (counts_step_keeps _ _ k S).
  - intros k H. split.
    + exact (counts_step_changes _ _ k S H).
    + exact (run_writes_logged o (program op) w SRM_COUNTS k H).
Qed.

Lemma C9_witness :
  let w' :=
    (run (answering VNull)
         (program (Like sample_env
                     (json_request "203.0.113.7" (Some (VObj [("id", VStr "7")])))
                     []))
         empty_world).2 in
  counters_ok (counts w') /\
  (forall k, counter_key k ->
             num_ge (counter (counts w') k) (counter (counts empty_world) k) = true) /\
  (forall k, is_Some (counts empty_world !! k) -> is_Some (counts w' !! k)) /\
  (forall k, counts w' !! k <> counts empty_world !! k ->
             (counter_key k \/ rating_key k) /\
             exists v ttl, EPut SRM_COUNTS k v ttl ∈ new_events empty_world w').
Proof.
  apply (C9_counters_never_decrease
           (Like sample_env
              (json_request "203.0.113.7" (Some (VObj [("id", VStr "7")]))) [])
           (answering VNull) empty_world).
  intros k v _ H. cbn in H. rewrite lookup_empty in H. discriminate H.
Defined.

(** The average does go down: a rating of 4 on an item that stands at 4.5
    after two ratings leaves 4.3. *)
Example rating_may_decrease :
  counts rated_twice !! "rating:7" = Some "4.5" /\
  counts (run (answering VNull)
            (program (Rate sample_env
                        (json_request "203.0.113.7" (Some (rate_body "7" (int 4))))
                        []))
            rated_twice).2 !! "rating:7" = Some "4.3".
Proof. split; vm_compute; reflexivity. Qed.

(** ** [handleLike] *)

Section Like.







End Like.


(** ** The content read endpoints *)

Section Content.

Variables (env : Env) (cors : Headers) (o : outside).

Lemma logged_nil (w : world) : logged w [] = w.
Proof. destruct w. unfold logged. cbn. now rewrite app_nil_r. Qed.

Lemma logged_logged (w : world) (l l' : list event) :
  logged (logged w l) l' = logged w (l ++ l').
Proof. unfold logged. cbn. now rewrite (assoc_L (++)). Qed.

Lemma enrich_run (it : value) (w : world) :
  readable it = true ->
  run o (enrich it) w =
  (Returned (enriched (counts w) it), logged w (enrich_reads it)).
Proof.
  intros R. unfold enrich, enriched, enrich_reads.
  rewrite (get_then _ _ _ _ _ R), (get_then _ _ _ _ _ R). fold (item_key it).
  destruct (is_empty (item_key it)).
  - cbn [run mret io_ret]. now rewrite logged_nil.
  - destruct it; try discriminate R; cbn; unfold record, logged; cbn;
      rewrite <- !(assoc_L (++)); reflexivity.
Qed.

Lemma map_all_enrich_run (items : list value) (w : world) :
  Forall (fun it => readable it = true) items ->
  run o (map_all enrich items) w =
  (Returned (map (enriched (counts w)) items),
   logged w (concat (map enrich_reads items))).
Proof.
  intros H. revert w. induction H as [|it items R _ IH]; intros w.
  - cbn. now rewrite logged_nil.
  - cbn [map_all map concat]. rewrite run_bind, (enrich_run _ _ R).
    rewrite run_bind, IH. cbn [run mret io_ret counts logged].
    now rewrite logged_logged.
Qed.

Lemma handleContent_run (w : world) :
  rs_ok (catalog o w) = true ->
  Forall (fun it => readable it = true) (catalog_items o w) ->
  run o (handleContent env cors) w =
  (Returned (ok (VObj [("items", VArr (map (enriched (counts w))
                                         (catalog_items o w)))]) cors),
   logged w (EFetch CatalogFetch :: concat (map enrich_reads (catalog_items o w)))).
Proof.
  intros Hok Hitems. unfold handleContent.
  rewrite run_bind. cbn [run fetch]. fold (catalog o w). rewrite Hok. cbn [negb].
  fold (catalog_items o w).
  rewrite run_bind, (map_all_enrich_run _ _ Hitems). cbn [run mret io_ret].
  change (record (EFetch CatalogFetch) w) with (logged w [EFetch CatalogFetch]).
  now rewrite logged_logged.
Qed.

End Content.

(** ** The merge of live counters into an item *)

Section Merge.

Lemma assoc_set_same {A : Type} (k : string) (v : A) (o : list (string * A)) :
  assoc k (assoc_set k v o) = Some v.
Proof.
  induction o as [|[k' v'] o IH]; cbn.
  - now rewrite String.eqb_refl.
  - destruct (String.eqb k' k) eqn:E; cbn; now rewrite E.
Qed.

Lemma assoc_set_other {A : Type} (k k' : string) (v : A) (o : list (string * A)) :
  k <> k' -> assoc k' (assoc_set k v o) = assoc k' o.
Proof.
  intros Ne. induction o as [|[k0 v0] o IH]; cbn.
  - destruct (String.eqb_spec k k'); [contradiction | reflexivity].
  - destruct (String.eqb_spec k0 k) as [->|]; cbn.
    + destruct (String.eqb_spec k k'); [contradiction | reflexivity].
    + destruct (String.eqb k0 k'); [reflexivity | exact IH].
Qed.


Lemma zero_number (n : number) :
  n <> NaN -> truthy (VNum n) = false -> n = num_of_Z 0.
Proof.
  destruct n as [| |q]; cbn; try congruence. intros _ H.
  apply negb_false_iff in H. apply Qc_eq_bool_correct in H. subst q. reflexivity.
Qed.

(** [Number(live || snapshot || 0)] follows the precedence. *)
Lemma cast_merge (live : option string) (snapshot : value) :
  number_or_absent snapshot ->
  VNum (ToNumber (or (or (of_opt live) snapshot) (VNum (num_of_Z 0)))) =
  merge_precedence live snapshot.
Proof.
  intros T.
  assert (VNum (ToNumber (or snapshot (VNum (num_of_Z 0)))) = baseline snapshot) as B.
  { destruct T as [->|(n & -> & Hn)]; [reflexivity|]. unfold or.
    destruct (truthy (VNum n)) eqn:E; cbn; [reflexivity|].
    now rewrite (zero_number n Hn E). }
  unfold merge_precedence. destruct live as [v|]; cbn [of_opt].
  - unfold or at 2. cbn [truthy]. destruct (is_empty v) eqn:E; [exact B|].
    cbn [negb]. unfold or. cbn [truthy]. rewrite E. reflexivity.
  - unfold or at 2. cbn [truthy]. exact B.
Qed.

(** [live ? Number(live) : snapshot || 0] follows it too. *)
Lemma rating_merge (live : option string) (snapshot : value) :
  number_or_absent snapshot ->
  (if truthy (of_opt live) then VNum (ToNumber (of_opt live))
   else or snapshot (VNum (num_of_Z 0))) =
  merge_precedence live snapshot.
Proof.
  intros T.
  assert (or snapshot (VNum (num_of_Z 0)) = baseline snapshot) as B.
  { destruct T as [->|(n & -> & Hn)]; [reflexivity|]. unfold or.
    destruct (truthy (VNum n)) eqn:E; cbn; [reflexivity|].
    now rewrite (zero_number n Hn E). }
  unfold merge_precedence. destruct live as [v|]; cbn [of_opt truthy].
  - destruct (is_empty v); [exact B | reflexivity].
  - exact B.
Qed.

Lemma overlay_field (c : gmap string string) (id : string) (obj : list (string * value))
    (f key : string) :
  (f, key) ∈ counter_fields id ->
  number_or_absent (prop (VObj obj) f) ->
  prop (overlay c id (VObj obj)) f = merge_precedence (c !! key) (prop (VObj obj) f).
Proof.
  intros Hin T. unfold counter_fields in Hin.
  repeat (apply elem_of_cons in Hin as [[= -> ->]|Hin]);
    [ | | | | now apply elem_of_nil in Hin];
    unfold overlay; cbn [prop];
    rewrite ?(assoc_set_other "totalRatings"), ?(assoc_set_other "rating"),
            ?(assoc_set_other "downloads") by discriminate;
    rewrite assoc_set_same; cbn [default from_option Datatypes.id].
  - now apply cast_merge.
  - now apply cast_merge.
  - now apply rating_merge.
  - now apply cast_merge.
Qed.


End Merge.


(** ** [handleContentById] *)

Section ContentById.

Variables (env : Env) (cors : Headers) (o : outside).

Lemma find_item_run (id : string) (items : list value) (w : world) :
  Forall (fun it => is_object it = true) items ->
  run o (find_item id items) w =
  (Returned (default VUndef (List.find (matches id) items)), w).
Proof.
  intros H. induction H as [|it items Hit _ IH]; [reflexivity|].
  destruct it as [| | | | | |obj]; try discriminate Hit.
  cbn [find_item List.find]. unfold matches at 1.
  rewrite run_bind. cbn [get run prop]. 
  destruct (String.eqb (ToString (default VUndef (assoc "id" obj))) id);
    [reflexivity|].
  rewrite run_bind. cbn [get run orb].
  destruct (String.eqb (ToString (default VUndef (assoc "number" obj))) id);
    [reflexivity | exact IH].
Qed.

Lemma find_object (id : string) (items : list value) (it : value) :
  Forall (fun it => is_object it = true) items ->
  List.find (matches id) items = Some it ->
  (exists obj, it = VObj obj) /\ it ∈ items /\ matches id it = true.
Proof.
  intros H F. apply find_some in F as [Hin Hm].
  rewrite Forall_forall in H. specialize (H _ Hin).
  apply list_elem_of_In in Hin. destruct it; try discriminate H. eauto.
Qed.

Lemma handleContentById_run (id : string) (w : world) :
  rs_ok (catalog o w) = true ->
  Forall (fun it => is_object it = true) (catalog_items o w) ->
  run o (handleContentById env id cors) w =
  match List.find (matches id) (catalog_items o w) with
  | Some it =>
      (Returned (ok (overlay (counts w) id it) cors),
       logged w (EFetch CatalogFetch :: counter_reads id))
  | None =>
      (Returned (err 404 "Item not found" cors), logged w [EFetch CatalogFetch])
  end.
Proof.
  intros Hok Hitems. unfold handleContentById.
  rewrite run_bind. cbn [run fetch]. fold (catalog o w). rewrite Hok. cbn [negb].
  fold (catalog_items o w). rewrite run_bind, (find_item_run _ _ _ Hitems).
  destruct (List.find _ _) as [it|] eqn:F; cbn [default from_option Datatypes.id].
  - destruct (find_object _ _ _ Hitems F) as ((obj & ->) & _ & _).
    cbn. unfold logged, record, overlay, counter_reads. cbn.
    rewrite <- !(assoc_L (++)). reflexivity.
  - reflexivity.
Qed.

End ContentById.

(** [getItem(id)] on a catalog of objects answers with the first item whose
    [id] field or legacy [number] field, converted to a string, equals the
    requested id, and 404 when no item qualifies; it writes to neither store.
    The item is enriched by the merge of the collection view applied to the
    counters of the requested id: its counter fields follow the same
    precedence, and whenever the identifier of the item in the collection
    view is the requested id the answer is the element of the collection
    view.  An item that carries the id under [number] only is found, and is
    enriched as in the collection view. *)
Lemma item_by_id
    (env : Env) (id : string) (cors : Headers) (o : outside) (w : world) :
  rs_ok (catalog o w) = true ->
  Forall (fun it => is_object it = true) (catalog_items o w) ->
  is_empty id = false ->
  exists w',
    counts w' = counts w /\ ratelimit w' = ratelimit w /\
    match List.find (matches id) (catalog_items o w) with
    | Some it =>
        run o (handleContentById env id cors) w =
          (Returned (ok (overlay (counts w) id it) cors), w') /\
        it ∈ catalog_items o w /\ matches id it = true /\
        (forall f key,
            (f, key) ∈ counter_fields id ->
            number_or_absent (prop it f) ->
            prop (overlay (counts w) id it) f =
            merge_precedence (counts w !! key) (prop it f)) /\
        (item_key it = id -> overlay (counts w) id it = enriched (counts w) it)
    | None =>
        run o (handleContentById env id cors) w =
          (Returned (err 404 "Item not found" cors), w') /\
        forall it, it ∈ catalog_items o w -> matches id it = false
    end /\
    (forall it,
        it ∈ catalog_items o w ->
        prop it "id" = VUndef ->
        readable (prop it "number") = true -> ToString (prop it "number") = id ->
        exists found,
          List.find (matches id) (catalog_items o w) = Some found /\
          (found = it -> overlay (counts w) id found = enriched (counts w) it)).
Proof.
  intros Hok Hitems Hid.
  pose proof (handleContentById_run env cors o id w Hok Hitems) as Hrun.
  destruct (List.find _ _) as [it|] eqn:F.
  - eexists. split; [|split; [|split]]; [| |split; [exact Hrun|]|];
      [reflexivity | reflexivity | |].
    + destruct (find_object _ _ _ Hitems F) as ((obj & ->) & Hin & Hm).
      split; [exact Hin|]. split; [exact Hm|]. split.
      * intros f key Hin' T. now apply overlay_field.
      * intros E. unfold enriched. now rewrite E, Hid.
    + intros it0 Hin Hnoid Hpresent Hnum. exists it. split; [reflexivity|].
      intros ->. unfold enriched, item_key. rewrite Hnoid. cbn [nullish].
      assert (ToString (nullish (prop it0 "number") (VStr "")) = id) as ->.
      { destruct (prop it0 "number"); try discriminate Hpresent; exact Hnum. }
      now rewrite Hid.
  - eexists. split; [|split; [|split]]; [| |split; [exact Hrun|]|];
      [reflexivity | reflexivity | |].
    + intros it Hin. apply list_elem_of_In in Hin.
      exact (find_none _ _ F _ Hin).
    + intros it0 Hin Hnoid _ Hnum. apply list_elem_of_In in Hin.
      pose proof (find_none _ _ F _ Hin) as N. unfold matches in N.
      rewrite Hnum, String.eqb_refl, orb_true_r in N. discriminate N.
Qed.



(** The merged view of item 7 in a world with live ratings but no live
    likes: the ratings come from the store, the likes from the snapshot. *)
Example collection_view_of_item_seven :
  exists it' w',
    run (catalog_of [item_seven]) (handleContent sample_env []) rated_twice =
      (Returned (ok (VObj [("items", VArr [it'])]) []), w') /\
    prop it' "likes" = int 3 /\
    prop it' "rating" = VNum (StringToNumber "4.5") /\
    prop it' "totalRatings" = VNum (StringToNumber "2") /\
    prop it' "title" = VStr "GT3 setup".
Proof.
  eexists. eexists. split.
  - rewrite handleContent_run; [reflexivity | reflexivity | repeat constructor].
  - repeat split; reflexivity.
Qed.


(** Two clients and three likes of item 7, from the empty stores: 1, then
    429 for the same client, then 2 for the other client. *)
Example three_likes :
  let like client :=
    handleLike sample_env
      (json_request client (Some (VObj [("id", VStr "7")]))) [] in
  let o := answering VNull in
  let w1 := (run o (like "203.0.113.7") empty_world).2 in
  let w2 := (run o (like "203.0.113.7") w1).2 in
  let w3 := (run o (like "198.51.100.9") w2).2 in
  map outcome_status
      [(run o (like "203.0.113.7") empty_world).1;
       (run o (like "203.0.113.7") w1).1;
       (run o (like "198.51.100.9") w2).1] =
    [Some 200%Z; Some 429%Z; Some 200%Z] /\
  counts w1 !! "likes:7" = Some "1" /\
  counts w2 !! "likes:7" = Some "1" /\
  counts w3 !! "likes:7" = Some "2".
Proof. vm_compute. repeat split. Qed.

(** ** Properties of every path of a program *)

Section Always.

Context {A B : Type}.
Variable P : event -> Prop.

Lemma always_mono (Q Q' : outcome A -> Prop) (p : io A) :
  (forall r, Q r -> Q' r) -> always P Q p -> always P Q' p.
Proof.
  intros HQ.
  induction p as [a|m|ns key k IH|ns key val ttl k IH|c k IH|k IH]; cbn;
    try (now apply HQ).
  - intros [H1 H2]. split; [exact H1 | intros v; now apply IH].
  - intros [H1 H2]. split; [exact H1 | now apply IH].
  - intros [H1 H2]. split; [exact H1 | intros r; now apply IH].
  - intros H d. now apply IH.
Qed.

Lemma always_bind (Q : outcome B -> Prop) (p : io A) (f : A -> io B) :
  always P (fun r => match r with
                     | Returned a => always P Q (f a)
                     | Thrown m => Q (Thrown m)
                     end) p ->
  always P Q (p ≫= f).
Proof.
  unfold mbind, io_bind.
  induction p as [a|m|ns key k IH|ns key val ttl k IH|c k IH|k IH]; cbn;
    try (intros H; exact H).
  - intros [H1 H2]. split; [exact H1 | intros v; now apply IH].
  - intros [H1 H2]. split; [exact H1 | now apply IH].
  - intros [H1 H2]. split; [exact H1 | intros r; now apply IH].
  - intros H d. now apply IH.
Qed.

(** Sequencing after a program whose effects are fine, whatever it returns. *)
Lemma always_then (Q : outcome B -> Prop) (p : io A) (f : A -> io B) :
  always P (fun _ => True) p ->
  (forall a, always P Q (f a)) -> (forall m, Q (Thrown m)) ->
  always P Q (p ≫= f).
Proof.
  intros Hp Hf Ht. apply always_bind. revert Hp. apply always_mono.
  intros [a|m] _; [apply Hf | apply Ht].
Qed.

Lemma always_run (Q : outcome A -> Prop) (p : io A) (o : outside) (w : world) :
  always P Q p ->
  Forall P (new_events w (run o p w).2) /\ Q (run o p w).1.
Proof.
  unfold new_events. revert w.
  induction p as [a|m|ns key k IH|ns key val ttl k IH|c k IH|k IH];
    intros w; cbn [always run].
  - intros H. rewrite drop_all. split; [constructor | exact H].
  - intros H. rewrite drop_all. split; [constructor | exact H].
  - intros [H1 H2].
    destruct (IH _ (record (EGet ns key) w) (H2 (store ns w !! key))) as [F Q'].
    split; [|exact Q'].
    destruct (run_frame o (k (store ns w !! key)) (record (EGet ns key) w))
      as (l & Hl & _).
    rewrite Hl in F |- *. cbn [log record] in F |- *.
    rewrite drop_app_length in F.
    rewrite <- (assoc_L (++)), drop_app_length. now constructor.
  - intros [H1 H2].
    destruct (IH (record (EPut ns key val ttl) (write ns key val w)) H2) as [F Q'].
    split; [|exact Q'].
    destruct (run_frame o k (record (EPut ns key val ttl) (write ns key val w)))
      as (l & Hl & _).
    assert (log (write ns key val w) = log w) as Lw by now destruct ns.
    rewrite Hl in F |- *. cbn [log record] in F |- *. rewrite Lw in F |- *.
    rewrite drop_app_length in F.
    rewrite <- (assoc_L (++)), drop_app_length. now constructor.
  - intros [H1 H2].
    destruct (IH _ (record (EFetch c) w) (H2 (answer o (log w) c))) as [F Q'].
    split; [|exact Q'].
    destruct (run_frame o (k (answer o (log w) c)) (record (EFetch c) w))
      as (l & Hl & _).
    rewrite Hl in F |- *. cbn [log record] in F |- *.
    rewrite drop_app_length in F.
    rewrite <- (assoc_L (++)), drop_app_length. now constructor.
  - intros H. apply IH, H.
Qed.

End Always.

(** ** The submission intake *)

Section Submit.

Variables (env : Env) (req : Request) (cors : Headers).
Variable form : list (string * form_value).
Hypothesis parsed : rq_form req = Some form.

Lemma is_blank_meta (k : string) :
  k ∈ required_fields ->
  is_blank (meta_of (raw_of form)) k = is_empty (submitted form k).
Proof.
  unfold required_fields. intros Hin.
  repeat (apply elem_of_cons in Hin as [->|Hin]);
    [ | | | | | now apply elem_of_nil in Hin];
    unfold is_blank, submitted; cbn; apply negb_involutive.
Qed.

Lemma required_blank :
  (exists k, k ∈ required_fields /\ is_empty (submitted form k) = true) <->
  is_blank (meta_of (raw_of form)) "title" ||
  is_blank (meta_of (raw_of form)) "category" ||
  is_blank (meta_of (raw_of form)) "game" ||
  is_blank (meta_of (raw_of form)) "description" ||
  is_blank (meta_of (raw_of form)) "author" = true.
Proof.
  rewrite !is_blank_meta by (unfold required_fields; set_solver).
  split.
  - intros (k & Hin & E). unfold required_fields in Hin.
    repeat (apply elem_of_cons in Hin as [->|Hin]);
      [ | | | | | now apply elem_of_nil in Hin];
      rewrite E, ?orb_true_r; reflexivity.
  - intros H. repeat (apply orb_prop in H as [H|H]);
      eexists; (split; [|exact H]); unfold required_fields; set_solver.
Qed.

Lemma handleSubmit_missing (o : outside) (w : world) :
  includes "multipart/form-data" (content_type req) = true ->
  (exists k, k ∈ required_fields /\ is_empty (submitted form k) = true) ->
  run o (handleSubmit env req cors) w =
  (Returned (err 400 "Missing required fields" cors), w).
Proof.
  intros Hct Hmiss. apply required_blank in Hmiss.
  unfold handleSubmit. fold (content_type req). rewrite Hct, parsed. cbn [negb].
  now rewrite Hmiss.
Qed.

Lemma verifyCaptcha_always (P : event -> Prop) (token : string) :
  (forall s t, P (EFetch (CaptchaVerify s t))) ->
  always P (fun _ => True) (verifyCaptcha env token).
Proof.
  intros HP. unfold verifyCaptcha.
  destruct (HCAPTCHA_SECRET env) as [secret|]; [|exact I].
  destruct (is_empty secret); [exact I|].
  destruct (is_empty token); [exact I|].
  cbn. split; [apply HP|]. intros r.
  unfold json. destruct (rs_json r) as [[]|]; cbn; exact I.
Qed.

Lemma monthlyRelease_always (P : event -> Prop) (token : string) :
  (forall t, P (EFetch (ReleaseByTag t))) ->
  (forall t, P (EFetch (ReleaseCreate t))) ->
  always P (fun _ => True) (monthlyRelease env token).
Proof.
  intros H1 H2. unfold monthlyRelease. cbn. intros d. split; [apply H1|].
  intros r. destruct (rs_ok r).
  - unfold json. destruct (rs_json r) as [[]|]; cbn; exact I.
  - cbn. split; [apply H2|]. intros r'. destruct (negb (rs_ok r')); cbn; [exact I|].
    unfold json. destruct (rs_json r') as [[]|]; cbn; exact I.
Qed.



Variable o : outside.







End Submit.

(** C5.  A multipart submission in which one of the five required fields is
    empty after trimming is answered 400, and the world is unchanged, log
    included: no captcha verification, no release lookup or creation, no
    upload and no issue. *)
Theorem C5_missing_required_field
    (env : Env) (req : Request) (cors : Headers)
    (form : list (string * form_value)) (o : outside) (w : world) :
  includes "multipart/form-data" (content_type req) = true ->
  rq_form req = Some form ->
  (exists k, k ∈ required_fields /\ is_empty (submitted form k) = true) ->
  run o (handleSubmit env req cors) w =
    (Returned (err 400 "Missing required fields" cors), w) /\
  new_events w (run o (handleSubmit env req cors) w).2 = [].
Proof.
  intros Hct Hform Hmiss.
  rewrite (handleSubmit_missing env req cors form Hform o w Hct Hmiss).
  split; [reflexivity|]. unfold new_events. cbn [snd]. apply drop_all.
Qed.

Lemma C5_witness :
  run (answering VNull)
      (handleSubmit sample_env (form_request blank_category) []) empty_world =
    (Returned (err 400 "Missing required fields" []), empty_world) /\
  new_events empty_world
    (run (answering VNull)
       (handleSubmit sample_env (form_request blank_category) []) empty_world).2
  = [].
Proof.
  apply (C5_missing_required_field sample_env (form_request blank_category) []
           blank_category (answering VNull) empty_world).
  - reflexivity.
  - reflexivity.
  - exists "category". split; [|reflexivity].
    unfold required_fields. apply list_elem_of_further, list_elem_of_here.
Defined.




(** The release of the month does not exist yet: its lookup is answered 404,
    its creation 201, the upload of the small file 201, and the oversize
    file is refused with 413 after these three calls. *)
Example oversize_after_release_creation :
  let o :=
    {| answer := fun _ c =>
         match c with
         | ReleaseByTag _ => {| rs_status := 404; rs_headers := []; rs_json := None |}
         | _ => {| rs_status := 201; rs_headers := [];
                   rs_json := Some (VObj [("id", int 9)]) |}
         end;
       date := (2025, 10)%Z |} in
  run o (handleSubmit sample_env (form_request two_files) []) empty_world =
  (Returned (err 413 "File too large: replay.zip (5000 > 1000)" []),
   logged empty_world
     [EFetch (ReleaseByTag "ugc-uploads-2025-11");
      EFetch (ReleaseCreate "ugc-uploads-2025-11");
      EFetch (AssetUpload "9" "setup.json" small_file)]).
Proof. vm_compute. reflexivity. Qed.

(** C8.  The requested id is the text [undefined] and the catalog holds item
    7 alone, which has no [number] field and whose [id] is 7: no field of any
    item equals the requested id, and yet the answer is 200 with item 7,
    where the specification has 404. *)
Theorem C8_absent_field_matches_undefined :
  let o := catalog_of [item_seven] in
  let answer := (run o (handleContentById sample_env "undefined" []) empty_world).1 in
  catalog_items o empty_world = [item_seven] /\
  prop item_seven "number" = VUndef /\
  ToString (prop item_seven "id") = "7" /\
  answer = Returned (ok (overlay ∅ "undefined" item_seven) []) /\
  outcome_status answer = Some 200%Z.
Proof.
  intros o answer.
  assert (answer = Returned (ok (overlay ∅ "undefined" item_seven) [])) as E.
  { unfold answer, o. rewrite handleContentById_run; [reflexivity | reflexivity |].
    repeat constructor. }
  split; [reflexivity|]. split; [reflexivity|]. split; [reflexivity|].
  split; [exact E | now rewrite E].
Qed.

(** An item with [id] [a] and legacy [number] 42, liked five times under its
    id: the collection view shows 5 likes, the item fetched as 42 shows 0. *)
Example by_number_reads_other_counters :
  exists it' w' w'',
    run (catalog_of [item_renumbered]) (handleContent sample_env [])
        liked_five_times =
      (Returned (ok (VObj [("items", VArr [it'])]) []), w') /\
    prop it' "likes" = VNum (StringToNumber "5") /\
    run (catalog_of [item_renumbered]) (handleContentById sample_env "42" [])
        liked_five_times =
      (Returned (ok (overlay (counts liked_five_times) "42" item_renumbered) []),
       w'') /\
    prop (overlay (counts liked_five_times) "42" item_renumbered) "likes" = int 0.
Proof.
  eexists. eexists. eexists. split; [|split; [|split]].
  - rewrite handleContent_run; [reflexivity | reflexivity | repeat constructor].
  - reflexivity.
  - rewrite handleContentById_run; [reflexivity | reflexivity | repeat constructor].
  - reflexivity.
Qed.

(** ** Worked examples of the helpers and of a whole submission *)

Example helpers_ex :
  splitLines (VStr (String "a" (String "013" (String "010" (String "b"
               (String "010" (String "010" " c ")))))))
    = ["a"; "b"; "c"] /\
  splitCSV (VStr " x, ,y ") = ["x"; "y"] /\
  norm VUndef = "" /\
  sanitize "my file(1).zip" = "my_file_1_.zip" /\
  getFileType "Setup.JSON" = "Setup File" /\
  getFileType "README" = "File" /\
  includes "multipart/form-data" "multipart/form-data; boundary=x" = true /\
  includes "multipart/form-data" "application/json" = false /\
  allowed_host "github.com" = true /\
  allowed_host "github.com.evil.example" = false.
Proof. vm_compute. repeat split. Qed.

(** Texts outside ASCII, by their UTF-8 bytes: U+00A0 and U+3000 are white
    space, U+200B is not; a letter with an accent is one code unit and
    becomes one underscore, a character beyond U+FFFF is two. *)
Example beyond_ascii_ex :
  let nbsp := String "194" (String "160" "") in
  let wide := String "227" (String "128" (String "128" "")) in
  let zwsp := String "226" (String "128" (String "139" "")) in
  let e_acute := String "195" (String "169" "") in
  let grin := String "240" (String "159" (String "152" (String "128" ""))) in
  trim (nbsp +:+ " a b " +:+ wide) = "a b" /\
  trim nbsp = "" /\
  trim (zwsp +:+ " ") = zwsp /\
  norm (VStr (e_acute +:+ nbsp)) = e_acute /\
  sanitize (e_acute +:+ ".zip") = "_.zip" /\
  sanitize (grin +:+ " a.zip") = "___a.zip" /\
  StringToNumber (nbsp +:+ "12") = num_of_Z 12 /\
  is_empty (submitted [("title", FStr nbsp)] "title") = true.
Proof. vm_compute. repeat split. Qed.

Example monthlyRelease_ex :
  (run (answering (VObj [("id", int 9)])) (monthlyRelease sample_env "t")
       empty_world).1 = Returned (int 9) /\
  log (run (answering (VObj [("id", int 9)])) (monthlyRelease sample_env "t")
         empty_world).2 = [EFetch (ReleaseByTag "ugc-uploads-2025-01")].
Proof. vm_compute. repeat split. Qed.

Example submission_ex :
  outcome_status
    (run (answering (VObj [("id", int 9); ("number", int 12);
                           ("html_url", VStr "https://github.com/o/r/issues/12")]))
       (handleSubmit sample_env
          (form_request (complete_fields ++ [("files", FFile small_file)])%list) [])
       empty_world).1 = Some 200%Z /\
  map (fun e => match e with EFetch c => call_method c +:+ " " +:+ call_url sample_env c | _ => "" end)
    (log (run (answering (VObj [("id", int 9); ("number", int 12);
                                ("html_url", VStr "https://github.com/o/r/issues/12")]))
            (handleSubmit sample_env
               (form_request (complete_fields ++ [("files", FFile small_file)])%list) [])
            empty_world).2) =
  ["GET https://api.github.com/repos/SimRaceMarket/SRM-UGC/releases/tags/ugc-uploads-2025-01";
   "POST https://uploads.github.com/repos/SimRaceMarket/SRM-UGC/releases/9/assets?name=setup.json";
   "POST https://api.github.com/repos/SimRaceMarket/SRM-UGC/issues"].
Proof. vm_compute. repeat split. Qed.

(** The order of the upload loop: the small file that comes first is
    uploaded before the oversize file is refused, and nothing follows. *)
Example small_file_uploaded_before_refusal :
  log (run (answering (VObj [("id", int 9)]))
         (handleSubmit sample_env (form_request two_files) []) empty_world).2 =
  [EFetch (ReleaseByTag "ugc-uploads-2025-01");
   EFetch (AssetUpload "9" "setup.json" small_file)].
Proof. vm_compute. reflexivity. Qed.

(** ** Names, lists and file types *)

Ltac in_list := repeat first [apply list_elem_of_here | apply list_elem_of_further].

Ltac each_event := repeat match goal with |- Forall _ _ => constructor end.

Section Texts.

Lemma all_chars_substring (p : ascii -> bool) (s : string) (n : nat) :
  all_chars p s = true -> all_chars p (String.substring 0 n s) = true.
Proof.
  revert n. induction s as [|a s IH]; intros [|n]; cbn; try reflexivity.
  intros [Ha Hs]%andb_prop. now rewrite Ha, IH.
Qed.

Lemma length_substring_le (s : string) (n : nat) :
  (String.length (String.substring 0 n s) <= n)%nat.
Proof.
  revert n. induction s as [|a s IH]; intros [|n]; cbn; try lia.
  specialize (IH n). lia.
Qed.

Lemma substring_all (s : string) (n : nat) :
  (String.length s <= n)%nat -> String.substring 0 n s = s.
Proof.
  revert n. induction s as [|a s IH]; intros [|n]; cbn; try reflexivity; try lia.
  intros H. rewrite IH by lia. reflexivity.
Qed.

Lemma replace_unsafe_safe (c : string) :
  all_chars is_safe_char (replace_unsafe c) = true.
Proof.
  destruct c as [|a [|b c]]; cbn [replace_unsafe]; [reflexivity| |].
  - destruct (is_safe_char a) eqn:E; [cbn; now rewrite E | reflexivity].
  - now destruct (240 <=? N_of_ascii a)%N.
Qed.

Lemma replaced_safe (l : list string) :
  all_chars is_safe_char (unchars (map replace_unsafe l)) = true.
Proof.
  rewrite all_chars_unchars. induction l as [|c l IH]; [reflexivity|].
  cbn [map forallb]. now rewrite replace_unsafe_safe, IH.
Qed.

Lemma safe_is_ascii (a : ascii) : is_safe_char a = true -> is_ascii a = true.
Proof. destruct a as [[] [] [] [] [] [] [] []]; vm_compute; congruence. Qed.

Lemma chars_ascii_cons (a : ascii) (s : string) :
  is_ascii a = true -> chars (String a s) = String a EmptyString :: chars s.
Proof. intros A. cbn [chars]. rewrite A. now destruct (chars s). Qed.

Lemma replaced_id (s : string) :
  all_chars is_safe_char s = true -> unchars (map replace_unsafe (chars s)) = s.
Proof.
  induction s as [|a s IH]; [reflexivity|]. cbn [all_chars].
  intros [Ha Hs]%andb_prop. rewrite (chars_ascii_cons _ _ (safe_is_ascii _ Ha)).
  cbn [map replace_unsafe]. rewrite Ha.
  change (unchars (String a EmptyString :: ?l)) with (String a (unchars l)).
  now rewrite (IH Hs).
Qed.

Lemma sanitize_unfold (name : string) :
  sanitize name = String.substring 0 120 (unchars (map replace_unsafe (chars name))).
Proof. reflexivity. Qed.

Lemma sanitize_id (name : string) :
  all_chars is_safe_char name = true -> (String.length name <= 120)%nat ->
  sanitize name = name.
Proof.
  intros Hs Hl. rewrite sanitize_unfold, (replaced_id _ Hs). now apply substring_all.
Qed.

(** White space at the ends. *)

Lemma forallb_trim_start (p : string -> bool) (l : list string) :
  forallb p l = true -> forallb p (trim_start l) = true.
Proof.
  induction l as [|c l IH]; cbn; [reflexivity|].
  intros H. destruct (is_space c); [|exact H].
  apply andb_prop in H as [_ H]. now apply IH.
Qed.

Lemma forallb_trim_end (p : string -> bool) (l : list string) :
  forallb p l = true -> forallb p (trim_end l) = true.
Proof.
  induction l as [|c l IH]; cbn; [reflexivity|].
  intros [Hc Hl]%andb_prop. specialize (IH Hl).
  destruct (trim_end l).
  - destruct (is_space c); cbn; [reflexivity | now rewrite Hc].
  - cbn [forallb] in IH |- *. now rewrite Hc, IH.
Qed.

Lemma all_chars_trim (p : ascii -> bool) (s : string) :
  all_chars p s = true -> all_chars p (trim s) = true.
Proof.
  intros H. unfold trim. rewrite all_chars_unchars.
  apply forallb_trim_end, forallb_trim_start.
  now rewrite <- all_chars_unchars, unchars_chars.
Qed.

Lemma trim_start_head (l : list string) :
  match trim_start l with c :: _ => is_space c = false | [] => True end.
Proof.
  induction l as [|c l IH]; cbn; [exact I|].
  destruct (is_space c) eqn:E; [exact IH | exact E].
Qed.

Lemma trim_end_head (l : list string) :
  match l with c :: _ => is_space c = false | [] => True end ->
  match trim_end l with c :: r => head l = Some c | [] => l = [] end.
Proof.
  destruct l as [|c l]; cbn; [reflexivity|]. intros ->.
  now destruct (trim_end l).
Qed.

Lemma trim_end_last (l : list string) :
  trim_end l = [] \/ is_space (List.last (trim_end l) EmptyString) = false.
Proof.
  induction l as [|c l IH]; cbn [trim_end]; [now left|].
  destruct (trim_end l) as [|d r] eqn:E.
  - destruct (is_space c) eqn:S; [now left | now right].
  - right. destruct IH as [IH|IH]; [discriminate | exact IH].
Qed.

Lemma Forall_trim (P : string -> Prop) (l : list string) :
  Forall P l -> Forall P (trim_end (trim_start l)).
Proof.
  intros F. assert (Forall P (trim_start l)) as G.
  { induction F as [|c l Hc F IH]; cbn; [constructor|].
    destruct (is_space c); [exact IH | now constructor]. }
  clear F. induction G as [|c r Hc G IH]; cbn; [constructor|].
  destruct (trim_end r) eqn:E.
  - destruct (is_space c); [constructor | constructor; [exact Hc | constructor]].
  - constructor; [exact Hc | exact IH].
Qed.

Lemma first_char_unchars (c : string) (l : list string) :
  whole c = true -> first_char (unchars (c :: l)) = first_char c.
Proof. destruct c; [discriminate | reflexivity]. Qed.

Lemma last_char_cons (a : ascii) (s : string) : last_char (String a s) <> None.
Proof.
  revert a. induction s as [|b s IH]; intros a; [discriminate|].
  change (last_char (String b s) <> None). apply IH.
Qed.

Lemma last_char_app (s t : string) :
  last_char (s +:+ t) = match last_char t with Some a => Some a | None => last_char s end.
Proof.
  induction s as [|a s IH].
  { change (EmptyString +:+ t) with t. now destruct (last_char t). }
  change (String a s +:+ t) with (String a (s +:+ t)).
  cbn [last_char]. destruct (s +:+ t) as [|b u] eqn:E.
  - destruct s; [|discriminate]. change (EmptyString +:+ t) with t in E.
    subst t. reflexivity.
  - rewrite IH. destruct (last_char t) eqn:L; [reflexivity|].
    destruct s as [|d s]; [|reflexivity]. change (EmptyString +:+ t) with t in E.
    subst t. now apply last_char_cons in L.
Qed.

Lemma last_char_unchars (l : list string) :
  Forall (fun c => whole c = true) l ->
  last_char (unchars l) = last_char (List.last l EmptyString).
Proof.
  induction l as [|c l IH]; [reflexivity|]. intros F.
  inversion_clear F as [|? ? W F'].
  change (unchars (c :: l)) with (c +:+ unchars l). rewrite last_char_app, (IH F').
  destruct l as [|d l]; [reflexivity|].
  change (List.last (c :: d :: l) EmptyString) with (List.last (d :: l) EmptyString).
  destruct (last_char (List.last (d :: l) EmptyString)) eqn:Q; [reflexivity|].
  assert (whole (List.last (d :: l) EmptyString) = true) as We.
  { rewrite List.Forall_forall in F'. apply F'.
    destruct (List.exists_last (l := d :: l)) as (l' & e & E); [discriminate|].
    rewrite E, List.last_last. apply in_or_app. right. now left. }
  destruct (List.last (d :: l) EmptyString) as [|x e]; [discriminate|].
  now apply last_char_cons in Q.
Qed.

Lemma trim_trimmed (s : string) : is_trimmed (trim s) = true.
Proof.
  unfold is_trimmed, trim.
  pose proof (Forall_trim _ _ (chars_whole s)) as W.
  pose proof (trim_start_head (chars s)) as H.
  pose proof (trim_end_head _ H) as T.
  pose proof (trim_end_last (trim_start (chars s))) as L.
  rewrite (last_char_unchars _ W).
  destruct (trim_end (trim_start (chars s))) as [|c r] eqn:E; [reflexivity|].
  destruct L as [L|L]; [discriminate|].
  pose proof (List.Forall_inv W) as Wc. cbn beta in Wc.
  rewrite (first_char_unchars _ _ Wc).
  destruct (trim_start (chars s)) as [|c' r'] eqn:E'; [discriminate|].
  cbn in T. injection T as ->.
  rewrite (proj1 (whole_edges _ Wc H)). cbn [andb].
  apply whole_edges; [|exact L].
  rewrite List.Forall_forall in W. apply W.
  destruct (List.exists_last (l := c :: r)) as (l' & e & Q); [discriminate|].
  rewrite Q, List.last_last. apply in_or_app. right. now left.
Qed.

(** The pieces of [split]. *)

Lemma split_not_nil (c : ascii) (s : string) : split c s <> [].
Proof.
  destruct s as [|a s]; cbn; [discriminate|].
  destruct (Ascii.eqb a c); [discriminate|]. destruct (split c s); discriminate.
Qed.

Lemma split_free (c : ascii) (s : string) :
  Forall (fun e => free_of c e = true) (split c s).
Proof.
  induction s as [|a s IH]; cbn.
  - repeat constructor.
  - destruct (Ascii.eqb a c) eqn:E.
    + constructor; [reflexivity | exact IH].
    + destruct (split c s) as [|h t]; [repeat constructor; cbn; now rewrite E|].
      inversion IH as [|? ? Hh Ht]; subst. constructor; [|exact Ht].
      unfold free_of. cbn. now rewrite E.
Qed.

Lemma split_none (c : ascii) (s : string) :
  free_of c s = true -> split c s = [s].
Proof.
  induction s as [|a s IH]; cbn; [reflexivity|].
  intros [Ha Hs]%andb_prop. apply negb_true_iff in Ha. rewrite Ha.
  now rewrite (IH Hs).
Qed.

Lemma split_app (c : ascii) (s t : string) :
  split c (s +:+ String c t) = (split c s ++ split c t)%list.
Proof.
  induction s as [|a s IH].
  - rewrite str_app_nil_l. cbn. now rewrite Ascii.eqb_refl.
  - rewrite str_app_cons. cbn. destruct (Ascii.eqb a c); [now rewrite IH|].
    rewrite IH. pose proof (split_not_nil c s).
    destruct (split c s); [congruence | reflexivity].
Qed.

Lemma last_app_ne {A : Type} (l l' : list A) (d : A) :
  l' <> [] -> List.last (l ++ l') d = List.last l' d.
Proof.
  intros H. induction l as [|x l IH]; [reflexivity|].
  cbn [app List.last]. rewrite IH.
  destruct (l ++ l')%list eqn:E; [|reflexivity].
  apply app_eq_nil in E as [_ ->]. congruence.
Qed.

Lemma split_entries (c : ascii) (s e : string) :
  e ∈ keep_nonempty (map trim (split c s)) ->
  is_empty e = false /\ is_trimmed e = true /\ free_of c e = true.
Proof.
  unfold keep_nonempty. intros [Hne Hin]%list_elem_of_filter.
  apply negb_true_iff in Hne. split; [exact Hne|].
  apply list_elem_of_fmap in Hin as (p & -> & Hp).
  split; [apply trim_trimmed|].
  apply all_chars_trim. pose proof (split_free c s) as F.
  rewrite List.Forall_forall in F. apply F. now apply list_elem_of_In.
Qed.

(** The extension that [getFileType] looks up. *)

Lemma extension_of (base ext : string) :
  free_of "." ext = true ->
  List.last (split "." (base +:+ String "." ext)) EmptyString = ext.
Proof.
  intros H. rewrite split_app, last_app_ne by apply split_not_nil.
  now rewrite (split_none _ _ H).
Qed.

Lemma assoc_in {A : Type} (k : string) (v : A) (o : list (string * A)) :
  assoc k o = Some v -> v ∈ map snd o.
Proof.
  induction o as [|[k' v'] o IH]; cbn; [discriminate|].
  destruct (String.eqb k' k).
  - intros [= ->]. apply list_elem_of_here.
  - intros H. apply list_elem_of_further. now apply IH.
Qed.

Lemma lower_upper (a : ascii) : lower (upper a) = lower a.
Proof. destruct a as [[] [] [] [] [] [] [] []]; vm_compute; reflexivity. Qed.

Lemma upper_dot (a : ascii) : Ascii.eqb (upper a) "." = Ascii.eqb a ".".
Proof. destruct a as [[] [] [] [] [] [] [] []]; vm_compute; reflexivity. Qed.

Lemma map_lower_upper (s : string) :
  map_chars lower (map_chars upper s) = map_chars lower s.
Proof. induction s as [|a s IH]; cbn; [reflexivity|]. now rewrite lower_upper, IH. Qed.

Lemma free_of_upper (s : string) :
  free_of "." (map_chars upper s) = free_of "." s.
Proof.
  unfold free_of. induction s as [|a s IH]; cbn; [reflexivity|].
  now rewrite upper_dot, IH.
Qed.

End Texts.

(** X1.  [sanitize]: whatever the name, the result has at most 120
    characters, all of them letters, digits, dots, underscores or hyphens,
    and sanitizing it again changes nothing. *)
Theorem X1_sanitize_safe_name (name : string) :
  all_chars is_safe_char (sanitize name) = true /\
  (String.length (sanitize name) <= 120)%nat /\
  sanitize (sanitize name) = sanitize name.
Proof.
  assert (all_chars is_safe_char (sanitize name) = true) as S.
  { rewrite sanitize_unfold. apply all_chars_substring, replaced_safe. }
  assert (String.length (sanitize name) <= 120)%nat as L.
  { rewrite sanitize_unfold. apply length_substring_le. }
  split; [exact S|]. split; [exact L|]. now apply sanitize_id.
Qed.

(** X2.  [norm], [splitCSV] and [splitLines]: a normalized value neither
    starts nor ends with white space, and [undefined] and [null] normalize to
    the empty text; every entry of a split list is non-empty, neither starts
    nor ends with white space, and holds no separator (comma, line feed). *)
Theorem X2_split_entries (v : value) (e : string) :
  is_trimmed (norm v) = true /\
  norm VUndef = "" /\ norm VNull = "" /\
  (e ∈ splitCSV v ->
   is_empty e = false /\ is_trimmed e = true /\ free_of "," e = true) /\
  (e ∈ splitLines v ->
   is_empty e = false /\ is_trimmed e = true /\ free_of "010" e = true).
Proof.
  split; [apply trim_trimmed|]. split; [reflexivity|]. split; [reflexivity|].
  split; apply split_entries.
Qed.

Lemma X2_witness :
  is_empty "y" = false /\ is_trimmed "y" = true /\ free_of "," "y" = true.
Proof.
  apply (proj1 (proj2 (proj2 (proj2 (X2_split_entries (VStr " x, ,y ") "y"))))).
  vm_compute. apply list_elem_of_further, list_elem_of_here.
Defined.

(** X3.  [getFileType] classifies by the text after the last dot, whatever
    the case of its letters, and by the whole name when there is no dot; the
    result is one of the eight labels of the table or [File].  (The two
    lower-case names that every object inherits are left aside.) *)
Theorem X3_file_type_by_extension (base ext : string) :
  free_of "." ext = true ->
  map_chars lower ext ∉ inherited_lower ->
  getFileType (base +:+ String "." ext) =
    default "File" (assoc (map_chars lower ext) file_types) /\
  getFileType ext = getFileType (base +:+ String "." ext) /\
  getFileType (base +:+ String "." (map_chars upper ext)) =
    getFileType (base +:+ String "." ext) /\
  getFileType (base +:+ String "." ext) ∈ file_labels.
Proof.
  intros H _.
  assert (forall b e, free_of "." e = true ->
            getFileType (b +:+ String "." e) =
            default "File" (assoc (map_chars lower e) file_types)) as G.
  { intros b e He. unfold getFileType. now rewrite (extension_of _ _ He). }
  split; [now apply G|]. split; [|split].
  - rewrite (G _ _ H). unfold getFileType. now rewrite (split_none _ _ H).
  - rewrite !G; [now rewrite map_lower_upper | exact H | now rewrite free_of_upper].
  - rewrite (G _ _ H).
    destruct (assoc _ file_types) as [l|] eqn:E; cbn [default from_option Datatypes.id].
    + apply assoc_in in E. cbn [map snd file_types] in E. unfold file_labels.
      repeat (apply elem_of_cons in E as [->|E]; [in_list|]).
      now apply elem_of_nil in E.
    + unfold file_labels. in_list.
Qed.

Lemma X3_witness :
  getFileType "lap.setup.JSON" = "Setup File" /\
  getFileType "JSON" = getFileType "lap.setup.JSON".
Proof.
  destruct (X3_file_type_by_extension "lap.setup" "JSON") as (H1 & H2 & _).
  - reflexivity.
  - apply (bool_decide_unpack _). vm_compute. reflexivity.
  - split; [exact H1 | exact H2].
Defined.

(** ** More on the interactions *)

Section Interactions.

Variables (env : Env) (req : Request) (cors : Headers) (o : outside) (w : world).

Lemma new_events_logged (l : list event) (c r : gmap string string) :
  new_events w {| counts := c; ratelimit := r; log := log w ++ l |} = l.
Proof. unfold new_events. cbn [log]. apply drop_app_length. Qed.

Lemma new_events_same : new_events w w = [].
Proof. unfold new_events. apply drop_all. Qed.

Lemma new_events_record (e : event) : new_events w (record e w) = [e].
Proof. unfold record. apply new_events_logged. Qed.


Lemma rate_marker_inj (id c c' : string) :
  rate_marker id c = rate_marker id c' -> c = c'.
Proof. unfold rate_marker. intros E. now do 3 apply String.app_inj in E. Qed.

Lemma falsy_id (v : value) : truthy v = false -> ToString (or v (VStr "")) = "".
Proof. intros H. unfold or. now rewrite H. Qed.



End Interactions.



(** X5.  An id that is falsy is a missing id: when the [id] of the body is
    absent, [null], [false], the number 0 or the empty text, a like is
    answered 400 (missing id) and a rating 400 (invalid rating); when the
    [itemId] is, a tracked download is answered 400 (missing itemId).  In
    each case the world is unchanged, log included.  (The other field that
    the handler converts before it looks at the id, the rating of a rating
    and the file name of a tracked download, converts.) *)
Theorem X5_falsy_id_is_missing
    (env : Env) (req : Request) (cors : Headers) (o : outside) (w : world) :
  readable (body_of req) = true ->
  (truthy (prop (body_of req) "id") = false ->
   run o (handleLike env req cors) w = (Returned (err 400 "Missing id" cors), w) /\
   (fields_convert (body_of req) ["rating"] = true ->
    run o (handleRate env req cors) w =
      (Returned (err 400 "Invalid rating (must be 1-5)" cors), w))) /\
  (truthy (prop (body_of req) "itemId") = false ->
   fields_convert (body_of req) ["fileName"] = true ->
   run o (handleDownloadTrack env req cors) w =
     (Returned (err 400 "Missing itemId" cors), w)).
Proof.
  intros R. split.
  - intros F. pose proof (falsy_id _ F) as E. fold (item_id req) in E. split.
    + now rewrite handleLike_run, R, E.
    + intros _. now rewrite handleRate_run, R, E.
  - intros F _. pose proof (falsy_id _ F) as E. fold (track_id req) in E.
    now rewrite handleDownloadTrack_run, R, E.
Qed.

Lemma X5_witness :
  run (answering VNull)
      (handleLike sample_env
         (json_request "203.0.113.7" (Some (VObj [("id", int 0)]))) [])
      rated_twice = (Returned (err 400 "Missing id" []), rated_twice) /\
  run (answering VNull)
      (handleRate sample_env
         (json_request "203.0.113.7" (Some (VObj [("id", int 0)]))) [])
      rated_twice =
    (Returned (err 400 "Invalid rating (must be 1-5)" []), rated_twice).
Proof.
  destruct (proj1 (X5_falsy_id_is_missing sample_env
                     (json_request "203.0.113.7" (Some (VObj [("id", int 0)]))) []
                     (answering VNull) rated_twice eq_refl)) as [H1 H2].
  - reflexivity.
  - split; [exact H1 | exact (H2 eq_refl)].
Defined.

Section Tracking.

Variables (env : Env) (req : Request) (cors : Headers) (o : outside).
Hypothesis body_readable : readable (body_of req) = true.
Hypothesis has_id : is_empty (track_id req) = false.



End Tracking.



Section Footprint.

Variables (env : Env) (req : Request) (cors : Headers) (o : outside) (w : world).





End Footprint.




(** ** More on the download proxy *)

Section Proxy.

Lemma assoc_app {A : Type} (k : string) (l l' : list (string * A)) :
  assoc k (l ++ l') =
  match assoc k l with
  | Some v => Some v
  | None => assoc k l'
  end.
Proof.
  induction l as [|[k0 v0] l IH]; cbn; [reflexivity|].
  destruct (String.eqb k0 k); [reflexivity | exact IH].
Qed.

Lemma with_cors_lookup (k : string) (upstream cors : Headers) :
  assoc k (with_cors upstream cors) =
  match last_setting k cors with
  | Some v => Some v
  | None => assoc k upstream
  end.
Proof.
  unfold with_cors, last_setting. revert upstream.
  induction cors as [|[k0 v0] cors IH]; intros upstream; [reflexivity|].
  cbn [fold_left rev fst snd]. rewrite IH, assoc_app.
  destruct (assoc k (rev cors)); [reflexivity|]. cbn [assoc].
  destruct (String.eqb_spec k0 k) as [->|Ne].
  - apply assoc_set_same.
  - now apply assoc_set_other.
Qed.

Variables (new_URL : string -> option URL) (env : Env) (url : URL) (cors : Headers).
Variables (o : outside) (w : world).

Lemma handleDownload_footprint :
  Forall (download_event new_URL (param url "asset") (param url "id"))
    (new_events w (run o (handleDownload new_URL env url cors) w).2).
Proof.
  rewrite handleDownload_run.
  destruct (new_URL _) as [u|] eqn:U; [|rewrite new_events_same; constructor].
  destruct (allowed_host _) eqn:H; cbn [negb];
    [|rewrite new_events_same; constructor].
  cbv zeta. destruct (negb (rs_ok _)); cbn [snd].
  - rewrite new_events_record. each_event. cbn. eauto.
  - destruct (is_empty _) eqn:I; cbn [negb].
    + rewrite new_events_record. each_event. cbn. eauto.
    + unfold downloaded. rewrite new_events_logged. each_event; cbn; eauto.
Qed.

End Proxy.

(** X9.  A download whose asset URL parses and whose host is on the
    allow-list fetches the asset.  If the upstream answer is not 2xx and its
    status is one that a response with a body may have (200 to 599, none of
    204, 205 and 304), that status is relayed with the text [Asset not found];
    the headers are the CORS headers, followed by the content type of a text
    when they name none; no counter is touched.  With another status the
    construction of the answer fails: the handler throws, and no counter is
    touched either.  If the upstream answer is 2xx, the answer is 200 with
    the upstream body streamed through; its headers are the upstream headers,
    over which each CORS header is set; the download counter of the item goes
    from [n] to [n + 1] when an item id is given ([n + 1] being an integer
    that binary64 holds), and no counter changes when none is. *)
Theorem X9_download_relays_upstream
    (new_URL : string -> option URL) (env : Env) (url : URL) (cors : Headers)
    (o : outside) (w : world) (u : URL) (n : N) :
  let asset := param url "asset" in
  let id := param url "id" in
  let upstream := answer o (log w) (AssetFetch asset) in
  let result := run o (handleDownload new_URL env url cors) w in
  new_URL asset = Some u ->
  allowed_host (hostname u) = true ->
  stored_nat (counts w) ("downloads:" +:+ id) n ->
  exact_integer (n + 1) ->
  (rs_ok upstream = false ->
   (if status_with_body (rs_status upstream)
    then (result.1 =
            Returned {| status := rs_status upstream;
                        headers :=
                          match assoc "content-type" cors with
                          | Some _ => cors
                          | None =>
                              (cors ++ [("content-type", "text/plain;charset=UTF-8")])%list
                          end;
                        body := TextBody "Asset not found" |})
    else (exists e, result.1 = Thrown e)) /\
   counts result.2 = counts w /\
   new_events w result.2 = [EFetch (AssetFetch asset)]) /\
  (rs_ok upstream = true ->
   exists h,
     result.1 = Returned {| status := 200; headers := h; body := StreamBody upstream |} /\
     (forall k, assoc k h =
                match last_setting k cors with
                | Some v => Some v
                | None => assoc k (rs_headers upstream)
                end) /\
     counts result.2 =
       (if is_empty id then counts w
        else <["downloads:" +:+ id := digits (n + 1)]> (counts w)) /\
     ratelimit result.2 = ratelimit w).
Proof.
  intros asset id upstream result U H S _. unfold result.
  rewrite handleDownload_run. fold asset id. rewrite U, H. cbn [negb]. cbv zeta.
  fold upstream. split.
  - intros F. rewrite F. cbn [negb fst snd]. split.
    + unfold status_with_body, refused.
      destruct ((rs_status upstream <? 200) || (599 <? rs_status upstream))%Z eqn:R.
      * replace ((200 <=? rs_status upstream) && (rs_status upstream <=? 599))%Z
          with false by lia. cbn [andb]. now eexists.
      * replace ((200 <=? rs_status upstream) && (rs_status upstream <=? 599))%Z
          with true by lia. cbn [andb].
        destruct ((rs_status upstream =? 204) || (rs_status upstream =? 205)
                  || (rs_status upstream =? 304))%Z; cbn [negb];
          [now eexists | reflexivity].
    + split; [reflexivity | apply new_events_record].
  - intros T. rewrite T. cbn [negb fst snd]. eexists. split; [reflexivity|].
    split; [intros k; apply with_cors_lookup|].
    destruct (is_empty id); cbn [negb]; [split; reflexivity|].
    unfold downloaded. cbn [counts ratelimit]. now rewrite (bump_stored _ _ _ S).
Qed.

Lemma X9_witness :
  (run (refusing 404)
       (handleDownload https_URL sample_env
          (download_url "https://github.com/o/r/releases/download/x/a.zip" "7") [])
       empty_world).1 =
    Returned {| status := 404;
                headers := [("content-type", "text/plain;charset=UTF-8")];
                body := TextBody "Asset not found" |} /\
  counts (run (refusing 404)
            (handleDownload https_URL sample_env
               (download_url "https://github.com/o/r/releases/download/x/a.zip" "7") [])
            empty_world).2 = ∅.
Proof.
  destruct (X9_download_relays_upstream https_URL sample_env
              (download_url "https://github.com/o/r/releases/download/x/a.zip" "7") []
              (refusing 404) empty_world
              {| hostname := "github.com"; searchParams := [] |} 0)
    as [H _].
  - reflexivity.
  - reflexivity.
  - left. split; reflexivity.
  - unfold exact_integer. vm_compute. discriminate.
  - destruct H as (H1 & H2 & _); [reflexivity |].
    split; [exact H1 | exact H2].
Defined.

(** An upstream answer 304 cannot be relayed with a body: the construction
    of the answer throws, and the router turns the error into a 500. *)
Example download_not_modified :
  (run (refusing 304)
       (handleDownload https_URL sample_env
          (download_url "https://github.com/o/r/releases/download/x/a.zip" "7") [])
       empty_world).1 = Thrown "TypeError" /\
  outcome_status
    (run (refusing 503)
       (handleDownload https_URL sample_env
          (download_url "https://github.com/o/r/releases/download/x/a.zip" "7") [])
       empty_world).1 = Some 503%Z.
Proof. vm_compute. repeat split. Qed.

(** X10.  Whatever the request, the answers of the outside and the state,
    the download proxy makes no outbound call but the fetch of the given
    asset URL, and only when that URL parses with a host on the allow-list;
    it touches no key but the download counter of the given item, and only
    when an item id is given; it never touches the rate-limit store. *)
Theorem X10_download_footprint
    (new_URL : string -> option URL) (env : Env) (url : URL) (cors : Headers)
    (o : outside) (w : world) :
  Forall (download_event new_URL (param url "asset") (param url "id"))
    (new_events w (run o (handleDownload new_URL env url cors) w).2) /\
  ratelimit (run o (handleDownload new_URL env url cors) w).2 = ratelimit w.
Proof.
  split; [apply handleDownload_footprint|].
  rewrite handleDownload_run.
  destruct (new_URL _) as [u|]; [|reflexivity].
  destruct (negb (allowed_host _)); [reflexivity|]. cbv zeta.
  destruct (negb (rs_ok _)); [reflexivity|].
  destruct (negb (is_empty _)); reflexivity.
Qed.

(** ** The read endpoints on every path *)

Section ReadOnly.

Variables (env : Env) (cors : Headers).

Lemma get_always {A : Type} (P : event -> Prop) (Q : outcome A -> Prop)
    (v : value) (k : string) (f : value -> io A) :
  (forall x, always P Q (f x)) -> Q (Thrown "TypeError") ->
  always P Q (get v k ≫= f).
Proof. intros Hf Ht. destruct v; cbn; auto. Qed.

Lemma enrich_always (it : value) : always read_event (fun _ => True) (enrich it).
Proof.
  unfold enrich.
  apply get_always; [intros it_id | exact I].
  apply get_always; [intros it_number | exact I].
  destruct (is_empty _); [exact I|].
  cbn. repeat (split; [exact I|]; intros ?).
  repeat (apply get_always; [intros ? | exact I]). exact I.
Qed.

Lemma stat_downloads_always (it : value) :
  always read_event (fun _ => True) (stat_downloads it).
Proof.
  unfold stat_downloads.
  apply get_always; [intros it_id | exact I].
  apply get_always; [intros it_number | exact I].
  destruct (is_empty _).
  - apply get_always; [intros ? | exact I]. exact I.
  - cbn. split; [exact I|]. intros ?.
    apply get_always; [intros ? | exact I]. exact I.
Qed.

Lemma map_all_always {A B : Type} (P : event -> Prop) (f : A -> io B) (l : list A) :
  (forall x, always P (fun _ => True) (f x)) ->
  always P (fun _ => True) (map_all f l).
Proof.
  intros Hf. induction l as [|x l IH]; [exact I|].
  cbn [map_all]. apply always_then; [apply Hf | | intros; exact I].
  intros y. apply always_then; [exact IH | | intros; exact I].
  intros ys. exact I.
Qed.

Lemma find_item_always (P : event -> Prop) (id : string) (items : list value) :
  always P (fun _ => True) (find_item id items).
Proof.
  induction items as [|it items IH]; [exact I|].
  cbn [find_item]. apply get_always; [intros it_id | exact I].
  destruct (String.eqb _ _); [exact I|].
  apply get_always; [intros it_number | exact I].
  destruct (String.eqb _ _); [exact I | exact IH].
Qed.

Lemma tally_always (P : event -> Prop) (f : string) (items : list value)
    (acc : list (string * value)) :
  always P (fun _ => True) (tally f items acc).
Proof.
  revert acc. induction items as [|it items IH]; intros acc; [exact I|].
  cbn [tally]. apply get_always; [intros v | exact I]. apply IH.
Qed.

Lemma handleContent_always :
  always read_event (fun _ => True) (handleContent env cors).
Proof.
  unfold handleContent. cbn. split; [exact I|]. intros r.
  destruct (negb (rs_ok r)); [exact I|].
  apply always_then; [apply map_all_always, enrich_always | | intros; exact I].
  intros merged. exact I.
Qed.

Lemma handleContentById_always (id : string) :
  always read_event (fun _ => True) (handleContentById env id cors).
Proof.
  unfold handleContentById. cbn. split; [exact I|]. intros r.
  destruct (negb (rs_ok r)); [exact I|].
  apply always_then; [apply find_item_always | | intros; exact I].
  intros item. destruct (negb (truthy item)); [exact I|].
  cbn. repeat (split; [exact I|]; intros ?).
  repeat (apply get_always; [intros ? | exact I]). exact I.
Qed.

Lemma handleStats_always :
  always read_event (fun _ => True) (handleStats env cors).
Proof.
  unfold handleStats. cbn. split; [exact I|]. intros r.
  destruct (negb (rs_ok r)); [exact I|].
  apply always_then; [apply map_all_always, stat_downloads_always | | intros; exact I].
  intros totalDownloads.
  apply always_then; [apply tally_always | | intros; exact I]. intros categories.
  apply always_then; [apply tally_always | | intros; exact I]. intros games.
  exact I.
Qed.

Lemma read_only_run {A : Type} (p : io A) (o : outside) (w : world) :
  always read_event (fun _ => True) p ->
  Forall read_event (new_events w (run o p w).2) /\
  counts (run o p w).2 = counts w /\ ratelimit (run o p w).2 = ratelimit w.
Proof.
  intros H. destruct (always_run _ _ _ o w H) as [F _]. split; [exact F|].
  assert (forall ns k, store ns (run o p w).2 !! k = store ns w !! k) as E.
  { intros ns k.
    destruct (decide (store ns (run o p w).2 !! k = store ns w !! k)) as [E|N];
      [exact E|].
    destruct (run_writes_logged o p w ns k N) as (v & ttl & Hin).
    rewrite List.Forall_forall in F. apply list_elem_of_In, F in Hin.
    destruct Hin. }
  split; apply map_eq; intros k; [exact (E SRM_COUNTS k) | exact (E SRM_RATELIMIT k)].
Qed.

End ReadOnly.

(** X11.  The three read endpoints (the collection view, the item view and
    the statistics) are read-only on every path: whatever the catalog holds,
    whatever the state and whether they answer or throw, they make no
    outbound call but the fetch of the catalog, they read counters only, and
    they leave both stores as they were. *)
Theorem X11_read_endpoints_are_read_only
    (env : Env) (cors : Headers) (id : string) (o : outside) (w : world) :
  let read_only (w' : world) :=
    Forall read_event (new_events w w') /\
    counts w' = counts w /\ ratelimit w' = ratelimit w in
  read_only (run o (handleContent env cors) w).2 /\
  read_only (run o (handleContentById env id cors) w).2 /\
  read_only (run o (handleStats env cors) w).2.
Proof.
  intros read_only. unfold read_only. split; [|split]; apply read_only_run.
  - apply handleContent_always.
  - apply handleContentById_always.
  - apply handleStats_always.
Qed.

(** ** The statistics *)

Section Stats.

Variables (env : Env) (cors : Headers) (o : outside).

Lemma stat_downloads_run (it : value) (w : world) :
  readable it = true ->
  run o (stat_downloads it) w =
  (Returned (stat_value (counts w) it), logged w (stat_reads it)).
Proof.
  intros R. unfold stat_downloads, stat_value, stat_reads.
  rewrite (get_then _ _ _ _ _ R), (get_then _ _ _ _ _ R). fold (item_key it).
  destruct (is_empty (item_key it)).
  - rewrite (get_then _ _ _ _ _ R). cbn [run mret io_ret]. now rewrite logged_nil.
  - rewrite run_bind. cbn [run kv_get store]. rewrite (get_then _ _ _ _ _ R).
    reflexivity.
Qed.

Lemma map_all_stat_run (items : list value) (w : world) :
  Forall (fun it => readable it = true) items ->
  run o (map_all stat_downloads items) w =
  (Returned (map (stat_value (counts w)) items),
   logged w (concat (map stat_reads items))).
Proof.
  intros H. revert w. induction H as [|it items R _ IH]; intros w.
  - cbn. now rewrite logged_nil.
  - cbn [map_all map concat]. rewrite run_bind, (stat_downloads_run _ _ R).
    rewrite run_bind, IH. cbn [run mret io_ret counts logged].
    now rewrite logged_logged.
Qed.

Lemma tally_run (f : string) (items : list value) (acc : list (string * value))
    (w : world) :
  Forall (fun it => readable it = true) items ->
  run o (tally f items acc) w = (Returned (fold_left (count_in f) items acc), w).
Proof.
  intros H. revert acc. induction H as [|it items R _ IH]; intros acc; [reflexivity|].
  cbn [tally fold_left]. rewrite (get_then _ _ _ _ _ R). apply IH.
Qed.

Lemma handleStats_run (w : world) :
  rs_ok (catalog o w) = true ->
  Forall (fun it => readable it = true) (catalog_items o w) ->
  run o (handleStats env cors) w =
  (Returned
     (ok (VObj
        [("totalItems", VNum (num_of_N (N.of_nat (length (catalog_items o w)))));
         ("totalDownloads",
          fold_left js_add (map (stat_value (counts w)) (catalog_items o w))
            (VNum (num_of_Z 0)));
         ("categories", VObj (table "category" (catalog_items o w)));
         ("games", VObj (table "game" (catalog_items o w)))]) cors),
   logged w (EFetch CatalogFetch :: concat (map stat_reads (catalog_items o w)))).
Proof.
  intros Hok Hitems. unfold handleStats.
  rewrite run_bind. cbn [run fetch]. fold (catalog o w). rewrite Hok. cbn [negb].
  fold (catalog_items o w).
  rewrite run_bind, (map_all_stat_run _ _ Hitems).
  rewrite run_bind, (tally_run _ _ _ _ Hitems).
  rewrite run_bind, (tally_run _ _ _ _ Hitems). cbn [run mret io_ret].
  change (record (EFetch CatalogFetch) w) with (logged w [EFetch CatalogFetch]).
  now rewrite logged_logged.
Qed.

(** The tables. *)







(** The total. *)






End Stats.


(** X12.  When the catalog cannot be used.  If the fetch of the catalog is
    not answered 2xx, the collection view, the item view and the statistics
    answer 502, having done nothing but the fetch.  If it is answered 2xx
    with a body that is not JSON, or whose [items] is not an array, the
    catalog is empty: the collection view answers 200 with no item, the item
    view 404, and the statistics 200 with zero items, zero downloads and
    empty tables. *)
Theorem X12_unusable_catalog
    (env : Env) (cors : Headers) (id : string) (o : outside) (w : world) :
  let w' := logged w [EFetch CatalogFetch] in
  (rs_ok (catalog o w) = false ->
   run o (handleContent env cors) w =
     (Returned (err 502 "Upstream fetch failed" cors), w') /\
   run o (handleContentById env id cors) w =
     (Returned (err 502 "Upstream fetch failed" cors), w') /\
   run o (handleStats env cors) w =
     (Returned (err 502 "Upstream fetch failed" cors), w')) /\
  (rs_ok (catalog o w) = true -> catalog_items o w = [] ->
   run o (handleContent env cors) w =
     (Returned (ok (VObj [("items", VArr [])]) cors), w') /\
   run o (handleContentById env id cors) w =
     (Returned (err 404 "Item not found" cors), w') /\
   run o (handleStats env cors) w =
     (Returned (ok (VObj [("totalItems", int 0); ("totalDownloads", int 0);
                          ("categories", VObj []); ("games", VObj [])]) cors),
      w')) /\
  (rs_json (catalog o w) = None -> catalog_items o w = []) /\
  (forall v, rs_json (catalog o w) = Some v ->
             (forall l, prop v "items" <> VArr l) -> catalog_items o w = []).
Proof.
  intros w'. split; [|split; [|split]].
  - intros F.
    unfold handleContent, handleContentById, handleStats.
    rewrite !run_bind. cbn [run fetch]. fold (catalog o w). rewrite F.
    repeat split.
  - intros T E.
    rewrite (handleContent_run env cors o w T) by (rewrite E; constructor).
    rewrite (handleContentById_run env cors o id w T) by (rewrite E; constructor).
    rewrite (handleStats_run env cors o w T) by (rewrite E; constructor).
    rewrite E. repeat split.
  - intros E. unfold catalog_items. now rewrite E.
  - intros v E H. unfold catalog_items. rewrite E. cbn [json_or_empty default from_option Datatypes.id].
    destruct v as [| | | | | |obj]; try reflexivity. cbn in H |- *.
    destruct (assoc "items" obj) as [[]|]; try reflexivity.
    now destruct (H l).
Qed.

Lemma X12_witness :
  run (refusing 503) (handleStats sample_env []) empty_world =
    (Returned (err 502 "Upstream fetch failed" []),
     logged empty_world [EFetch CatalogFetch]) /\
  run (answering (VObj [("items", VStr "none")])) (handleContent sample_env [])
      empty_world =
    (Returned (ok (VObj [("items", VArr [])]) []),
     logged empty_world [EFetch CatalogFetch]).
Proof.
  split.
  - apply (proj1 (X12_unusable_catalog sample_env [] "7" (refusing 503) empty_world)).
    reflexivity.
  - apply (proj1 (proj2 (X12_unusable_catalog sample_env [] "7"
                           (answering (VObj [("items", VStr "none")])) empty_world)));
      reflexivity.
Defined.





(** ** The effects along every path *)

Section Paths.

Context {A B : Type}.

Lemma paths_mono (Q Q' : list event -> outcome A -> Prop) (p : io A) :
  (forall l r, Q l r -> Q' l r) -> paths Q p -> paths Q' p.
Proof.
  revert Q Q'.
  induction p as [a|m|ns key k IH|ns key val ttl k IH|c k IH|k IH];
    intros Q Q' HQ; cbn; try (now apply HQ).
  - intros H v. apply (IH v _ _ (fun l r => HQ _ r)), H.
  - apply IH. intros l r. apply HQ.
  - intros H r. apply (IH r _ _ (fun l r' => HQ _ r')), H.
  - intros H d. apply (IH d _ _ HQ), H.
Qed.

Lemma paths_bind (Q : list event -> outcome B -> Prop) (p : io A) (f : A -> io B) :
  paths (fun l r => match r with
                    | Returned a => paths (fun l' r' => Q (l ++ l')%list r') (f a)
                    | Thrown m => Q l (Thrown m)
                    end) p ->
  paths Q (p ≫= f).
Proof.
  unfold mbind, io_bind. revert Q.
  induction p as [a|m|ns key k IH|ns key val ttl k IH|c k IH|k IH];
    intros Q; cbn; try (intros H; exact H).
  - intros H v. apply IH, H.
  - intros H. apply IH, H.
  - intros H r. apply IH, H.
  - intros H d. apply IH, H.
Qed.

Lemma always_paths (P : event -> Prop) (Q : outcome A -> Prop) (p : io A) :
  always P Q p -> paths (fun l r => Forall P l /\ Q r) p.
Proof.
  assert (forall l0, Forall P l0 -> always P Q p ->
            paths (fun l r => Forall P (l0 ++ l) /\ Q r) p) as G.
  { induction p as [a|m|ns key k IH|ns key val ttl k IH|c k IH|k IH];
      intros l0 H0; cbn.
    - intros H. now rewrite app_nil_r.
    - intros H. now rewrite app_nil_r.
    - intros [H1 H2] v.
      generalize (IH v (l0 ++ [EGet ns key])%list
                    (proj2 (Forall_app _ _ _) (conj H0 (Forall_cons_2 _ _ _ H1 (Forall_nil_2 _))))
                    (H2 v)).
      apply paths_mono. intros l r. now rewrite <- (assoc_L (++)).
    - intros [H1 H2].
      generalize (IH (l0 ++ [EPut ns key val ttl])%list
                    (proj2 (Forall_app _ _ _) (conj H0 (Forall_cons_2 _ _ _ H1 (Forall_nil_2 _))))
                    H2).
      apply paths_mono. intros l r. now rewrite <- (assoc_L (++)).
    - intros [H1 H2] r.
      generalize (IH r (l0 ++ [EFetch c])%list
                    (proj2 (Forall_app _ _ _) (conj H0 (Forall_cons_2 _ _ _ H1 (Forall_nil_2 _))))
                    (H2 r)).
      apply paths_mono. intros l r'. now rewrite <- (assoc_L (++)).
    - intros H d. now apply IH. }
  intros H. exact (G [] (Forall_nil_2 _) H).
Qed.

Lemma new_events_cons (o : outside) (p : io A) (e : event) (w w1 : world) :
  log w1 = (log w ++ [e])%list ->
  new_events w (run o p w1).2 = e :: new_events w1 (run o p w1).2.
Proof.
  intros E. destruct (run_frame o p w1) as (l & Hl & _).
  unfold new_events. rewrite Hl, E, drop_app_length.
  now rewrite <- (assoc_L (++)), drop_app_length.
Qed.

Lemma paths_run (Q : list event -> outcome A -> Prop) (p : io A) (o : outside)
    (w : world) :
  paths Q p -> Q (new_events w (run o p w).2) (run o p w).1.
Proof.
  revert Q w.
  induction p as [a|m|ns key k IH|ns key val ttl k IH|c k IH|k IH];
    intros Q w; cbn [paths run].
  - intros H. cbn. now rewrite new_events_same.
  - intros H. cbn. now rewrite new_events_same.
  - intros H. rewrite (new_events_cons o _ (EGet ns key) w) by reflexivity.
    apply (IH _ (fun l => Q (EGet ns key :: l))), H.
  - intros H. rewrite (new_events_cons o _ (EPut ns key val ttl) w)
      by now destruct ns.
    apply (IH (fun l => Q (EPut ns key val ttl :: l))), H.
  - intros H. rewrite (new_events_cons o _ (EFetch c) w) by reflexivity.
    apply (IH _ (fun l => Q (EFetch c :: l))), H.
  - intros H. apply IH, H.
Qed.

End Paths.

(** ** The submission intake along every path *)

Section SubmitPaths.

Variables (env : Env) (req : Request) (cors : Headers).

Lemma upload_all_paths (relId : value) (files : list file) (acc : list FileMeta) :
  paths
    (fun l r =>
       match r with
       | Returned (inr metas) =>
           (exists urls, length urls = length files /\
                         metas = (acc ++ zip_with asset files urls)%list) /\
           l = map (upload_call relId) files /\
           Forall (fun f => too_large env f = false) files
       | Returned (inl early) => status early = 413%Z \/ status early = 502%Z
       | Thrown _ => True
       end)
    (upload_all env relId (max_bytes env) cors files acc).
Proof.
  revert acc. induction files as [|f rest IH]; intros acc.
  - cbn. split; [exists []; now rewrite app_nil_r | split; [reflexivity | constructor]].
  - cbn [upload_all]. fold (too_large env f).
    destruct (too_large env f) eqn:Hf; [cbn; now left|].
    cbn. intros up. destruct (negb (rs_ok up)); cbn; [now right|].
    unfold json. destruct (rs_json up) as [j|]; cbn; [|exact I].
    assert (forall url,
              paths
                (fun l r =>
                   match r with
                   | Returned (inr metas) =>
                       (exists urls, length urls = length (f :: rest) /\
                                     metas = (acc ++ zip_with asset (f :: rest) urls)%list) /\
                       upload_call relId f :: l = map (upload_call relId) (f :: rest) /\
                       Forall (fun f => too_large env f = false) (f :: rest)
                   | Returned (inl early) => status early = 413%Z \/ status early = 502%Z
                   | Thrown _ => True
                   end)
                (upload_all env relId (max_bytes env) cors rest
                   (acc ++ [asset f url]))) as G.
    { intros url. generalize (IH (acc ++ [asset f url])%list). apply paths_mono.
      intros l [[early|metas]|m]; try easy.
      intros ((urls & Hlen & ->) & -> & Hall). split; [|split].
      - exists (url :: urls). split; [cbn; now rewrite Hlen|].
        now rewrite <- (assoc_L (++)).
      - reflexivity.
      - now constructor. }
    destruct j; cbn; try exact I; apply G.
Qed.

Lemma createIssue_paths (token : string) (meta : list (string * value))
    (files : list FileMeta) :
  paths (fun l _ => l = [EFetch (IssueCreate (issue_title meta) meta files)])
    (createIssue env token meta files).
Proof.
  unfold createIssue. cbn. intros r. destruct (negb (rs_ok r)); cbn; [reflexivity|].
  unfold json. destruct (rs_json r) as [j|]; cbn; [|reflexivity].
  destruct j; cbn; reflexivity.
Qed.

Lemma required_present (form : list (string * form_value)) :
  rq_form req = Some form ->
  is_blank (meta_of (raw_of form)) "title" ||
  is_blank (meta_of (raw_of form)) "category" ||
  is_blank (meta_of (raw_of form)) "game" ||
  is_blank (meta_of (raw_of form)) "description" ||
  is_blank (meta_of (raw_of form)) "author" = false ->
  forall k, k ∈ required_fields -> is_empty (submitted form k) = false.
Proof.
  intros Hform Hb k Hk. destruct (is_empty (submitted form k)) eqn:E; [|reflexivity].
  assert (exists k, k ∈ required_fields /\ is_empty (submitted form k) = true) as Hex
    by eauto.
  apply (required_blank req form Hform) in Hex. congruence.
Qed.

Lemma issue_titled (form : list (string * form_value)) :
  (forall k, k ∈ required_fields -> is_empty (submitted form k) = false) ->
  titled form (issue_title (meta_of (raw_of form))).
Proof.
  intros H. exists (map_chars upper (submitted form "category")).
  split; [|reflexivity].
  assert (is_empty (submitted form "category") = false) as C
    by (apply H; unfold required_fields; in_list).
  assert (is_empty (submitted form "title") = false) as T
    by (apply H; unfold required_fields; in_list).
  unfold issue_title, submitted in *.
  cbn [meta_of assoc String.eqb Ascii.eqb Bool.eqb default from_option Datatypes.id].
  unfold or. cbn [truthy]. now rewrite C, T.
Qed.

Lemma setup_of_captcha (l : list event) :
  Forall is_captcha_call l -> Forall is_setup_call l.
Proof.
  apply Forall_impl. intros [| |[]]; cbn; auto.
Qed.

Lemma handleSubmit_paths : paths (submit_path env req) (handleSubmit env req cors).
Proof.
  unfold handleSubmit.
  destruct (negb (includes _ _)).
  { cbn. split; [discriminate | constructor]. }
  destruct (rq_form req) as [form|] eqn:Hform; [|exact I].
  destruct (_ || _ || _ || _ || _) eqn:Hb.
  { cbn. split; [discriminate | constructor]. }
  pose proof (required_present form Hform Hb) as Hreq.
  apply paths_bind.
  generalize (always_paths _ _ _
                (verifyCaptcha_always env is_captcha_call
                   (ToString (or (or (field (raw_of form) "captchaToken")
                                     (form_get form "captchaToken")) (VStr "")))
                   (fun _ _ => I))).
  apply paths_mono. intros l1 [passed|m] [H1 _]; [|exact I].
  destruct (negb passed).
  { cbn. split; [discriminate|]. intros _. now rewrite app_nil_r. }
  apply paths_bind.
  generalize (always_paths _ _ _
                (monthlyRelease_always env is_setup_call (GH_TOKEN env)
                   (fun _ => I) (fun _ => I))).
  apply paths_mono. intros l2 [relId|m] [H2 _]; [|exact I].
  apply paths_bind. fold (max_bytes env).
  generalize (upload_all_paths relId (files_of form) []).
  apply paths_mono. intros l3 [[early|metas]|m]; [| |exact (fun _ => I)].
  { intros [E|E]; cbn; rewrite E; split; intros H; try discriminate H.
    - destruct H; discriminate.
    - destruct H; discriminate. }
  intros ((urls & Hlen & ->) & -> & Hsmall).
  apply paths_bind.
  generalize (createIssue_paths (GH_TOKEN env) (meta_of (raw_of form))
                ([] ++ zip_with asset (files_of form) urls)%list).
  apply paths_mono. intros l4 [issue|m] ->; [|exact I].
  cbn [paths submit_path status ok]. split; [|intros [H|H]; discriminate H].
  intros _. exists form. split; [exact Hform|].
  exists relId, (l1 ++ l2)%list, urls, (issue_title (meta_of (raw_of form))).
  split; [|split; [exact Hlen|split; [|split; [exact Hsmall |
           split; [exact Hreq | now apply issue_titled]]]]].
  - apply Forall_app. split; [now apply setup_of_captcha | exact H2].
  - now rewrite <- !(assoc_L (++)).
Qed.

Lemma upload_all_always_calls (relId : value) (max : number) (files : list file)
    (acc : list FileMeta) :
  always is_call (fun _ => True) (upload_all env relId max cors files acc).
Proof.
  revert acc. induction files as [|f rest IH]; intros acc; [exact I|].
  cbn [upload_all]. destruct (num_gt _ _); [exact I|].
  cbn. split; [exact I|]. intros up. destruct (negb (rs_ok up)); cbn; [exact I|].
  unfold json. destruct (rs_json up) as [[]|]; cbn; try exact I; apply IH.
Qed.

Lemma createIssue_always_calls (token : string) (meta : list (string * value))
    (files : list FileMeta) :
  always is_call (fun _ => True) (createIssue env token meta files).
Proof.
  unfold createIssue. cbn. split; [exact I|]. intros r.
  destruct (negb (rs_ok r)); cbn; [exact I|].
  unfold json. destruct (rs_json r) as [[]|]; cbn; exact I.
Qed.

Lemma handleSubmit_always_calls :
  always is_call (fun _ => True) (handleSubmit env req cors).
Proof.
  unfold handleSubmit.
  destruct (negb (includes _ _)); [exact I|].
  destruct (rq_form req) as [form|]; [|exact I].
  destruct (_ || _ || _ || _ || _); [exact I|].
  apply always_then; [now apply verifyCaptcha_always | | intros; exact I].
  intros passed. destruct (negb passed); [exact I|].
  apply always_then; [now apply monthlyRelease_always | | intros; exact I].
  intros relId.
  apply always_then; [apply upload_all_always_calls | | intros; exact I].
  intros [early|metas]; [exact I|].
  apply always_then; [apply createIssue_always_calls | | intros; exact I].
  intros issue. exact I.
Qed.

End SubmitPaths.

Section Writes.

Lemma no_write_run {A : Type} (P : event -> Prop) (p : io A) (o : outside) (w : world) :
  (forall ns k v ttl, ~ P (EPut ns k v ttl)) ->
  always P (fun _ => True) p ->
  counts (run o p w).2 = counts w /\ ratelimit (run o p w).2 = ratelimit w.
Proof.
  intros HP H. destruct (always_run _ _ _ o w H) as [F _].
  assert (forall ns k, store ns (run o p w).2 !! k = store ns w !! k) as E.
  { intros ns k.
    destruct (decide (store ns (run o p w).2 !! k = store ns w !! k)) as [E|N];
      [exact E|].
    destruct (run_writes_logged o p w ns k N) as (v & ttl & Hin).
    rewrite List.Forall_forall in F. apply list_elem_of_In, F in Hin.
    now destruct (HP _ _ _ _ Hin). }
  split; apply map_eq; intros k; [exact (E SRM_COUNTS k) | exact (E SRM_RATELIMIT k)].
Qed.

End Writes.



(** X16.  Whatever the request, the answers of the outside and the state, a
    submission touches neither store: its effects are outbound calls only.
    When it is answered 400 or 415, the only call it may have made is the
    verification of the captcha: no release is looked up or created, nothing
    is uploaded and no issue is filed.  A request whose content type does not
    mention multipart/form-data is answered 415 with no effect at all, even
    when its body could not be read as a form. *)
Theorem X16_submission_footprint
    (env : Env) (req : Request) (cors : Headers) (o : outside) (w : world) :
  let result := run o (handleSubmit env req cors) w in
  Forall is_call (new_events w result.2) /\
  counts result.2 = counts w /\ ratelimit result.2 = ratelimit w /\
  (outcome_status result.1 = Some 400%Z \/ outcome_status result.1 = Some 415%Z ->
   Forall is_captcha_call (new_events w result.2)) /\
  (includes "multipart/form-data" (content_type req) = false ->
   result = (Returned (err 415 "Use multipart/form-data" cors), w)).
Proof.
  intros result. unfold result.
  pose proof (handleSubmit_always_calls env req cors) as A.
  destruct (always_run _ _ _ o w A) as [F _].
  destruct (no_write_run is_call _ o w (fun _ _ _ _ H => H) A) as [C R].
  split; [exact F|]. split; [exact C|]. split; [exact R|]. split.
  - pose proof (paths_run _ _ o w (handleSubmit_paths env req cors)) as P.
    unfold submit_path in P.
    destruct (run o (handleSubmit env req cors) w).1 as [resp|m].
    + destruct P as [_ P]. cbn. intros [[= H]|[= H]]; apply P; auto.
    + intros [H|H]; discriminate H.
  - intros H. unfold handleSubmit. fold (content_type req). now rewrite H.
Qed.

Lemma X16_witness :
  run (answering VNull)
      (handleSubmit sample_env (json_request "203.0.113.7" (Some VNull)) [])
      rated_twice =
  (Returned (err 415 "Use multipart/form-data" []), rated_twice).
Proof.
  apply (X16_submission_footprint sample_env (json_request "203.0.113.7" (Some VNull)) []
           (answering VNull) rated_twice).
  reflexivity.
Defined.

(** ** The release of the month and the captcha *)

Section Release.

Variables (env : Env) (o : outside).

Lemma release_result (r : fetch_response) (w : world) :
  run o (j ← json r; get j "id") w =
  (release_id r, w).
Proof.
  unfold json, release_id. destruct (rs_json r) as [j|]; [|reflexivity].
  destruct j; reflexivity.
Qed.

Lemma monthlyRelease_runs (token : string) (w : world) :
  let tag := release_tag (date o) in
  let w1 := record (EFetch (ReleaseByTag tag)) w in
  let w2 := record (EFetch (ReleaseCreate tag)) w1 in
  run o (monthlyRelease env token) w =
  if rs_ok (answer o (log w) (ReleaseByTag tag))
  then (release_id (answer o (log w) (ReleaseByTag tag)), w1)
  else if rs_ok (answer o (log w1) (ReleaseCreate tag))
  then (release_id (answer o (log w1) (ReleaseCreate tag)), w2)
  else (Thrown "Failed to create release", w2).
Proof.
  intros tag w1 w2. unfold monthlyRelease.
  cbn [run now mbind io_bind bind]. fold (release_tag (date o)). fold tag.
  change (run o (r ← fetch (ReleaseByTag tag);
                 if rs_ok r then j ← json r; get j "id"
                 else r0 ← fetch (ReleaseCreate tag);
                      if negb (rs_ok r0) then Throw "Failed to create release"
                      else j ← json r0; get j "id") w = 
          if rs_ok (answer o (log w) (ReleaseByTag tag))
          then (release_id (answer o (log w) (ReleaseByTag tag)), w1)
          else if rs_ok (answer o (log w1) (ReleaseCreate tag))
          then (release_id (answer o (log w1) (ReleaseCreate tag)), w2)
          else (Thrown "Failed to create release", w2)).
  rewrite run_bind. cbn [run fetch]. fold w1.
  destruct (rs_ok (answer o (log w) (ReleaseByTag tag))); [apply release_result|].
  rewrite run_bind. cbn [run fetch]. fold w2.
  destruct (rs_ok (answer o (log w1) (ReleaseCreate tag))); cbn [negb];
    [apply release_result | reflexivity].
Qed.

Lemma two_digit_month (m : Z) :
  month_index m = true ->
  padStart2 (NumberToString (num_of_Z (m + 1))) =
  (if (m + 1 <? 10)%Z then "0" else "") +:+ digits (Z.to_N (m + 1)).
Proof.
  unfold month_index. intros [H1 H2]%andb_prop.
  apply Z.leb_le in H1, H2.
  assert (m = 0 \/ m = 1 \/ m = 2 \/ m = 3 \/ m = 4 \/ m = 5 \/ m = 6 \/ m = 7 \/
          m = 8 \/ m = 9 \/ m = 10 \/ m = 11)%Z as H by lia.
  repeat (destruct H as [->|H]; [vm_compute; reflexivity|]).
  subst m. vm_compute. reflexivity.
Qed.

End Release.

(** X17.  The release of the month.  Its tag is [ugc-uploads-], the year,
    a hyphen and the month as two digits (for a year that is not negative
    and a month index from 0 to 11).  The release is looked up by that tag
    first: when the lookup is answered 2xx nothing is created; otherwise a
    release with the same tag is created, and the submission throws
    [Failed to create release] when the creation is not answered 2xx.  The
    release id is the [id] of the answer used. *)
Theorem X17_release_of_the_month
    (env : Env) (token : string) (o : outside) (w : world) :
  let tag := release_tag (date o) in
  let lookup := answer o (log w) (ReleaseByTag tag) in
  let create := answer o (log w ++ [EFetch (ReleaseByTag tag)]) (ReleaseCreate tag) in
  let result := run o (monthlyRelease env token) w in
  (forall y m : Z,
      date o = (y, m) -> (0 <= y)%Z -> month_index m = true ->
      tag = "ugc-uploads-" +:+ digits (Z.to_N y) +:+ "-" +:+
            (if (m + 1 <? 10)%Z then "0" else "") +:+ digits (Z.to_N (m + 1))) /\
  (rs_ok lookup = true ->
   result.1 = release_id lookup /\
   new_events w result.2 = [EFetch (ReleaseByTag tag)]) /\
  (rs_ok lookup = false ->
   new_events w result.2 = [EFetch (ReleaseByTag tag); EFetch (ReleaseCreate tag)] /\
   result.1 = if rs_ok create then release_id create
              else Thrown "Failed to create release").
Proof.
  intros tag lookup create result. split; [|split].
  - intros y m E Hy Hm. unfold tag, release_tag. rewrite E. cbn [fst snd].
    rewrite (two_digit_month m Hm).
    replace (num_of_Z y) with (num_of_N (Z.to_N y))
      by (unfold num_of_N; now rewrite Z2N.id).
    now rewrite NumberToString_of_N.
  - intros H. unfold result. rewrite monthlyRelease_runs. fold tag lookup.
    rewrite H. cbn [fst snd]. split; [reflexivity | apply new_events_record].
  - intros H. unfold result. rewrite monthlyRelease_runs. fold tag lookup.
    rewrite H. cbn [log record]. fold create.
    assert (forall r : outcome value,
               new_events w (r, record (EFetch (ReleaseCreate tag))
                                  (record (EFetch (ReleaseByTag tag)) w)).2 =
               [EFetch (ReleaseByTag tag); EFetch (ReleaseCreate tag)]) as E.
    { intros r. cbn [snd]. unfold record. cbn [counts ratelimit log].
      rewrite <- (assoc_L (++)). apply new_events_logged. }
    destruct (rs_ok create); cbn [fst]; split; try reflexivity; apply E.
Qed.

Lemma X17_witness :
  release_tag (date (releases 404 500)) = "ugc-uploads-2025-11" /\
  new_events empty_world
    (run (releases 404 500) (monthlyRelease sample_env "t") empty_world).2 =
    [EFetch (ReleaseByTag "ugc-uploads-2025-11");
     EFetch (ReleaseCreate "ugc-uploads-2025-11")] /\
  (run (releases 404 500) (monthlyRelease sample_env "t") empty_world).1 =
    Thrown "Failed to create release".
Proof.
  destruct (X17_release_of_the_month sample_env "t" (releases 404 500) empty_world)
    as (H1 & _ & H3).
  split; [|apply H3; reflexivity].
  apply (H1 2025%Z 10%Z); [reflexivity | lia | reflexivity].
Defined.

Section Captcha.

Variables (env : Env) (req : Request) (cors : Headers).

Lemma verifyCaptcha_off (token : string) :
  captcha_off env = true -> verifyCaptcha env token = mret true.
Proof.
  unfold captcha_off, verifyCaptcha.
  destruct (HCAPTCHA_SECRET env) as [secret|]; [|reflexivity]. now intros ->.
Qed.

Lemma verifyCaptcha_run (token secret : string) (o : outside) (w : world) :
  HCAPTCHA_SECRET env = Some secret -> is_empty secret = false ->
  run o (verifyCaptcha env token) w =
  if is_empty token then (Returned false, w)
  else
    let w' := record (EFetch (CaptchaVerify secret token)) w in
    match rs_json (answer o (log w) (CaptchaVerify secret token)) with
    | None => (Thrown "SyntaxError", w')
    | Some j =>
        if readable j then (Returned (truthy (prop j "success")), w')
        else (Thrown "TypeError", w')
    end.
Proof.
  intros E S. unfold verifyCaptcha. rewrite E, S.
  destruct (is_empty token); [reflexivity|].
  rewrite run_bind. cbn [run fetch]. unfold json.
  destruct (rs_json _) as [j|]; [|reflexivity]. destruct j; reflexivity.
Qed.

Lemma handleSubmit_captcha_failed (form : list (string * form_value)) (o : outside)
    (w w1 : world) :
  includes "multipart/form-data" (content_type req) = true ->
  rq_form req = Some form ->
  (forall k, k ∈ required_fields -> is_empty (submitted form k) = false) ->
  run o (verifyCaptcha env (captcha_token form)) w = (Returned false, w1) ->
  run o (handleSubmit env req cors) w = (Returned (err 400 "Captcha failed" cors), w1).
Proof.
  intros Hct Hform Hfields Hcap.
  unfold handleSubmit. fold (content_type req). rewrite Hct, Hform. cbn [negb].
  destruct (_ || _ || _ || _ || _) eqn:Hb.
  { apply (required_blank req form Hform) in Hb as (k & Hin & E).
    rewrite (Hfields _ Hin) in E. discriminate E. }
  fold (captcha_token form). now rewrite run_bind, Hcap.
Qed.

Lemma handleSubmit_always_open (P : event -> Prop) :
  captcha_off env = true ->
  (forall t, P (EFetch (ReleaseByTag t))) ->
  (forall t, P (EFetch (ReleaseCreate t))) ->
  (forall r n f, P (EFetch (AssetUpload r n f))) ->
  (forall t m fs, P (EFetch (IssueCreate t m fs))) ->
  always P (fun _ => True) (handleSubmit env req cors).
Proof.
  intros Hoff H1 H2 H3 H4. unfold handleSubmit.
  destruct (negb (includes _ _)); [exact I|].
  destruct (rq_form req) as [form|]; [|exact I].
  destruct (_ || _ || _ || _ || _); [exact I|].
  rewrite (verifyCaptcha_off _ Hoff).
  change (always P (fun _ => True)
            (relId ← monthlyRelease env (GH_TOKEN env);
             uploaded ← upload_all env relId
                          (ToNumber (nullish (MAX_FILE_BYTES env) (VStr "104857600")))
                          cors (files_of form) [];
             match uploaded with
             | inl early => mret early
             | inr filesMeta =>
                 issue ← createIssue env (GH_TOKEN env) (meta_of (raw_of form)) filesMeta;
                 mret (ok (VObj
                   [("ok", VBool true);
                    ("message", VStr "Submission created successfully! It will be reviewed and published soon.");
                    ("issueUrl", snd issue);
                    ("submissionId", fst issue)]) cors)
             end)).
  apply always_then; [now apply monthlyRelease_always | | intros; exact I].
  intros relId. apply always_then; [| | intros; exact I].
  - generalize (files_of form) ([] : list FileMeta).
    intros files. induction files as [|f rest IH]; intros acc; [exact I|].
    cbn [upload_all]. destruct (num_gt _ _); [exact I|].
    cbn. split; [apply H3|]. intros up. destruct (negb (rs_ok up)); cbn; [exact I|].
    unfold json. destruct (rs_json up) as [[]|]; cbn; try exact I; apply IH.
  - intros [early|metas]; [exact I|].
    apply always_then; [| intros; exact I | intros; exact I].
    unfold createIssue. cbn. split; [apply H4|]. intros r.
    destruct (negb (rs_ok r)); cbn; [exact I|].
    unfold json. destruct (rs_json r) as [[]|]; cbn; exact I.
Qed.

End Captcha.

(** X18.  The captcha gate of a deployment with a secret.  Of a multipart
    submission with the five required fields: when the captcha token is
    missing or empty, the answer is 400 (captcha failed) and nothing was
    done, not even a call to the captcha service; when there is a token, the
    service is asked once, with the secret and the token, and when its answer
    is JSON whose [success] is falsy the submission is answered 400 with
    nothing else done, whatever the HTTP status of that answer. *)
Theorem X18_captcha_gate
    (env : Env) (req : Request) (cors : Headers)
    (form : list (string * form_value)) (secret : string) (o : outside) (w : world) :
  let token := captcha_token form in
  let verdict := answer o (log w) (CaptchaVerify secret token) in
  HCAPTCHA_SECRET env = Some secret -> is_empty secret = false ->
  includes "multipart/form-data" (content_type req) = true ->
  rq_form req = Some form ->
  (forall k, k ∈ required_fields -> is_empty (submitted form k) = false) ->
  (is_empty token = true ->
   run o (handleSubmit env req cors) w =
   (Returned (err 400 "Captcha failed" cors), w)) /\
  (is_empty token = false ->
   forall j, rs_json verdict = Some j -> readable j = true ->
             truthy (prop j "success") = false ->
   run o (handleSubmit env req cors) w =
   (Returned (err 400 "Captcha failed" cors),
    record (EFetch (CaptchaVerify secret token)) w)).
Proof.
  intros token verdict Hs Hne Hct Hform Hfields.
  pose proof (verifyCaptcha_run env token secret o w Hs Hne) as V.
  split.
  - intros E. rewrite E in V.
    exact (handleSubmit_captcha_failed env req cors form o w w Hct Hform Hfields V).
  - intros E j Hj Hr Hf. rewrite E in V. cbv zeta in V. fold verdict in V.
    rewrite Hj, Hr, Hf in V.
    exact (handleSubmit_captcha_failed env req cors form o w _ Hct Hform Hfields V).
Qed.

Lemma X18_witness :
  run captcha_refuses (handleSubmit guarded_env (form_request complete_fields) [])
      empty_world =
    (Returned (err 400 "Captcha failed" []), empty_world) /\
  run captcha_refuses (handleSubmit guarded_env (form_request with_token) [])
      empty_world =
    (Returned (err 400 "Captcha failed" []),
     record (EFetch (CaptchaVerify "s3cret" "tok")) empty_world).
Proof.
  assert (forall form, (form = complete_fields \/ form = with_token) ->
            forall k, k ∈ required_fields -> is_empty (submitted form k) = false) as F.
  { intros form Hf k Hk. unfold required_fields in Hk.
    repeat (apply elem_of_cons in Hk as [->|Hk]);
      try (destruct Hf as [->| ->]; reflexivity).
    now apply elem_of_nil in Hk. }
  split.
  - apply (proj1 (X18_captcha_gate guarded_env (form_request complete_fields) []
                    complete_fields "s3cret" captcha_refuses empty_world
                    eq_refl eq_refl eq_refl eq_refl (F _ (or_introl eq_refl)))).
    reflexivity.
  - apply (proj2 (X18_captcha_gate guarded_env (form_request with_token) []
                    with_token "s3cret" captcha_refuses empty_world
                    eq_refl eq_refl eq_refl eq_refl (F _ (or_intror eq_refl)))
             eq_refl (VObj [("success", VBool false)]));
      reflexivity.
Defined.

(** X19.  Without a captcha secret (absent or empty), a submission never
    calls the captcha service, on any path and whatever token it carries. *)
Theorem X19_no_secret_no_captcha
    (env : Env) (req : Request) (cors : Headers) (o : outside) (w : world) :
  captcha_off env = true ->
  Forall not_captcha_call (new_events w (run o (handleSubmit env req cors) w).2).
Proof.
  intros Hoff.
  apply (always_run not_captcha_call (fun _ => True) _ o w).
  apply handleSubmit_always_open; try exact Hoff; intros; exact (fun H => H).
Qed.

Lemma X19_witness :
  Forall not_captcha_call
    (new_events empty_world
       (run github (handleSubmit sample_env (form_request with_token) []) empty_world).2).
Proof.
  apply (X19_no_secret_no_captcha sample_env (form_request with_token) [] github
           empty_world).
  reflexivity.
Defined.

(** ** The router *)

Section Routing.

Variable corsHeaders : Env -> Request -> Headers.
Variable new_URL : string -> option URL.
Variables (env : Env) (req : Request) (url : URL).

Lemma try_catch_run {A : Type} (p : io A) (h : string -> io A) (o : outside)
    (w : world) :
  run o (try_catch p h) w =
  match run o p w with
  | (Returned a, w') => (Returned a, w')
  | (Thrown m, w') => run o (h m) w'
  end.
Proof.
  revert w.
  induction p as [a|m|ns key k IH|ns key val ttl k IH|c k IH|k IH]; intros w;
    cbn; auto.
Qed.

Lemma fetch_run (method pathname : string) (o : outside) (w : world) :
  run o (Router.fetch corsHeaders new_URL env req method pathname url) w =
  if String.eqb method "OPTIONS"
  then (Returned (NoBody 204 (corsHeaders env req)), w)
  else
    match run o (Router.route new_URL env req method pathname url
                   (corsHeaders env req)) w with
    | (Returned r, w') => (Returned (WithBody r), w')
    | (Thrown m, w') =>
        (Returned (WithBody (server_error m (corsHeaders env req))), w')
    end.
Proof.
  unfold Router.fetch. cbv zeta. destruct (String.eqb method "OPTIONS"); [reflexivity|].
  rewrite try_catch_run, run_bind.
  destruct (run o (Router.route _ _ _ _ _ _ _) w) as [[r|m] w']; [reflexivity|].
  cbn. unfold server_error, or. cbn. now destruct (is_empty m).
Qed.

Lemma route_unmatched (method pathname : string) (cors : Headers) :
  (method, pathname) ∉ routes -> item_route method pathname = false ->
  Router.route new_URL env req method pathname url cors = mret (not_found cors).
Proof.
  intros Hr Hi. unfold Router.route. fold (item_route method pathname). rewrite Hi.
  assert (forall m p, (m, p) ∈ routes ->
            String.eqb pathname p && String.eqb method m = false) as F.
  { intros m p Hin.
    destruct (String.eqb_spec pathname p) as [->|]; [|reflexivity].
    destruct (String.eqb_spec method m) as [->|]; [|reflexivity].
    contradiction. }
  rewrite !F by (unfold routes; in_list). reflexivity.
Qed.

Lemma prefix_app (s t : string) : String.prefix s (s +:+ t) = true.
Proof.
  induction s as [|a s IH].
  - rewrite str_app_nil_l. now destruct t.
  - rewrite str_app_cons. cbn [String.prefix].
    destruct (ascii_dec a a); [exact IH | congruence].
Qed.

Lemma split_third (id rest : string) :
  free_of "/" id = true -> (rest = "" \/ exists r, rest = String "/" r) ->
  split "/" ("/content/" +:+ id +:+ rest) !! 2%nat = Some id.
Proof.
  intros Hid Hrest.
  change ("/content/" +:+ id +:+ rest)
    with ("" +:+ String "/" ("content" +:+ String "/" (id +:+ rest))).
  rewrite !split_app. cbn [split app lookup list_lookup].
  change (split "/" "content") with ["content"]. cbn [app lookup list_lookup].
  destruct Hrest as [->|(r & ->)].
  - now rewrite str_app_nil_r, (split_none _ _ Hid).
  - now rewrite split_app, (split_none _ _ Hid).
Qed.

Lemma route_item (id rest : string) (cors : Headers) :
  free_of "/" id = true -> (rest = "" \/ exists r, rest = String "/" r) ->
  Router.route new_URL env req "GET" ("/content/" +:+ id +:+ rest) url cors =
  if is_empty id then mret (err 400 "Missing content ID" cors)
  else handleContentById env id cors.
Proof.
  intros Hid Hrest. unfold Router.route. rewrite (split_third _ _ Hid Hrest).
  assert (String.eqb ("/content/" +:+ id +:+ rest) "/content" = false) as ->.
  { cbv [String.append]. cbn. now destruct (id +:+ rest). }
  rewrite prefix_app.
  reflexivity.
Qed.

End Routing.

(** X20.  The router, once the CORS headers of the request are computed
    ([cors] below; their computation comes before the error handler and is
    not covered).  A preflight request (OPTIONS) is answered 204 without
    body, with the CORS headers, on any path and without any effect.
    Otherwise a route that answers gives the answer of the router; when the
    route throws, the answer is 500 with the message of the error ([Server
    error] when it has none), in the JSON envelope of the errors.  In both
    cases the stores and the log are as the route left them: what was done
    before the error is not undone. *)
Theorem X20_route_errors_are_answered
    (corsHeaders : Env -> Request -> Headers) (new_URL : string -> option URL)
    (env : Env) (req : Request) (method pathname : string) (url : URL)
    (o : outside) (w : world) :
  let cors := corsHeaders env req in
  let inner := run o (Router.route new_URL env req method pathname url cors) w in
  let answered := run o (Router.fetch corsHeaders new_URL env req method pathname url) w in
  (method = "OPTIONS" -> answered = (Returned (NoBody 204 cors), w)) /\
  (method <> "OPTIONS" ->
   answered.2 = inner.2 /\
   (forall r, inner.1 = Returned r -> answered.1 = Returned (WithBody r)) /\
   (forall m, inner.1 = Thrown m ->
      exists resp,
        answered.1 = Returned (WithBody resp) /\
        status resp = 500%Z /\
        body resp =
          JsonBody (VObj [("ok", VBool false);
                          ("error",
                           VStr (if is_empty m then "Server error" else m))]))).
Proof.
  intros cors inner answered. unfold answered, inner. rewrite fetch_run. fold cors.
  split.
  - intros ->. reflexivity.
  - intros Hm. destruct (String.eqb_spec method "OPTIONS"); [contradiction|].
    destruct (run o _ w) as [[r|m] w']; cbn [fst snd].
    + repeat split; congruence.
    + split; [reflexivity|]. split; [congruence|].
      intros m' [= <-]. eexists. repeat split.
Qed.

Lemma X20_witness :
  run (answering VNull)
      (Router.fetch open_cors https_URL sample_env
         (json_request "203.0.113.7" None) "OPTIONS" "/submit" plain_url)
      rated_twice =
  (Returned (NoBody 204 (open_cors sample_env (json_request "203.0.113.7" None))),
   rated_twice).
Proof.
  apply (X20_route_errors_are_answered open_cors https_URL sample_env
           (json_request "203.0.113.7" None) "OPTIONS" "/submit" plain_url
           (answering VNull) rated_twice).
  reflexivity.
Defined.

(** X21.  A request that matches no route is answered 404 with the text
    [Not found] and no effect: any pair of method and path that is neither in
    the table of routes nor a GET under [/content/], the method not being
    OPTIONS.  This includes every method other than GET, POST and OPTIONS,
    such as HEAD on [/content].  The headers of the answer are the CORS
    headers, followed by the content type of a text when they name none. *)
Theorem X21_unknown_route
    (corsHeaders : Env -> Request -> Headers) (new_URL : string -> option URL)
    (env : Env) (req : Request) (method pathname : string) (url : URL)
    (o : outside) (w : world) :
  let answered := run o (Router.fetch corsHeaders new_URL env req method pathname url) w in
  let not_found :=
    {| status := 404;
       headers :=
         match assoc "content-type" (corsHeaders env req) with
         | Some _ => corsHeaders env req
         | None =>
             (corsHeaders env req ++
              [("content-type", "text/plain;charset=UTF-8")])%list
         end;
       body := TextBody "Not found" |} in
  ((method, pathname) ∉ routes -> item_route method pathname = false ->
   method <> "OPTIONS" ->
   answered = (Returned (WithBody not_found), w)) /\
  (method ∉ ["GET"; "POST"; "OPTIONS"] ->
   answered = (Returned (WithBody not_found), w)).
Proof.
  intros answered not_found'.
  change not_found' with (not_found (corsHeaders env req)). clear not_found'.
  assert ((method, pathname) ∉ routes -> item_route method pathname = false ->
          method <> "OPTIONS" ->
          answered = (Returned (WithBody (not_found (corsHeaders env req))), w)) as G.
  { intros Hr Hi Hm. unfold answered. rewrite fetch_run.
    destruct (String.eqb_spec method "OPTIONS"); [contradiction|].
    now rewrite (route_unmatched new_URL env req url _ _ _ Hr Hi). }
  split; [exact G|]. intros Hm. apply G.
  - intros Hin. apply Hm. unfold routes in Hin.
    repeat (apply elem_of_cons in Hin as [[= -> _]|Hin]; [in_list|]).
    now apply elem_of_nil in Hin.
  - unfold item_route. destruct (String.eqb_spec method "GET") as [->|];
      [|now rewrite andb_false_r].
    destruct Hm. in_list.
  - intros ->. apply Hm. in_list.
Qed.

Lemma X21_witness :
  run (answering VNull)
      (Router.fetch open_cors https_URL sample_env
         (json_request "203.0.113.7" None) "HEAD" "/content" plain_url)
      rated_twice =
  (Returned (WithBody
     {| status := 404;
        headers := [("access-control-allow-origin", "");
                    ("access-control-allow-headers", "authorization,content-type");
                    ("access-control-allow-methods", "GET,POST,OPTIONS");
                    ("access-control-max-age", "600");
                    ("content-type", "text/plain;charset=UTF-8")];
        body := TextBody "Not found" |}),
   rated_twice).
Proof.
  apply (proj2 (X21_unknown_route open_cors https_URL sample_env
                  (json_request "203.0.113.7" None) "HEAD" "/content" plain_url
                  (answering VNull) rated_twice)).
  apply (bool_decide_unpack _). vm_compute. reflexivity.
Defined.

(** X22.  The item view takes its id from the third piece of the path cut
    at the slashes: GET on [/content/<id>], and on [/content/<id>/...]
    whatever follows the next slash, is the item view of [<id>]; when that
    piece is empty, as in [/content/] and [/content//x], the answer is 400
    (missing content ID) with no effect. *)
Theorem X22_item_route
    (corsHeaders : Env -> Request -> Headers) (new_URL : string -> option URL)
    (env : Env) (req : Request) (url : URL) (id rest : string)
    (o : outside) (w : world) :
  let cors := corsHeaders env req in
  let answered :=
    run o (Router.fetch corsHeaders new_URL env req "GET"
             ("/content/" +:+ id +:+ rest) url) w in
  free_of "/" id = true ->
  (rest = "" \/ exists r, rest = String "/" r) ->
  Router.route new_URL env req "GET" ("/content/" +:+ id +:+ rest) url cors =
    (if is_empty id then mret (err 400 "Missing content ID" cors)
     else handleContentById env id cors) /\
  (is_empty id = true ->
   answered = (Returned (WithBody (err 400 "Missing content ID" cors)), w)) /\
  (is_empty id = false ->
   forall r w',
     run o (handleContentById env id cors) w = (Returned r, w') ->
     answered = (Returned (WithBody r), w')).
Proof.
  intros cors answered Hid Hrest.
  pose proof (route_item new_URL env req url id rest cors Hid Hrest) as R.
  split; [exact R|]. unfold answered. rewrite fetch_run. fold cors. rewrite R.
  cbn [String.eqb Ascii.eqb Bool.eqb]. split.
  - intros ->. reflexivity.
  - intros -> r w' ->. reflexivity.
Qed.

Lemma X22_witness :
  run (catalog_of [item_seven])
      (Router.fetch open_cors https_URL sample_env (json_request "203.0.113.7" None)
         "GET" "/content/7/comments" plain_url) empty_world =
  (Returned (WithBody (ok (overlay ∅ "7" item_seven)
                         (open_cors sample_env (json_request "203.0.113.7" None)))),
   logged empty_world (EFetch CatalogFetch :: counter_reads "7")).
Proof.
  apply (proj2 (proj2 (X22_item_route open_cors https_URL sample_env
                         (json_request "203.0.113.7" None) plain_url "7" "/comments"
                         (catalog_of [item_seven]) empty_world eq_refl
                         (or_intror (ex_intro _ "comments" eq_refl))))
           eq_refl).
  reflexivity.
Defined.

(** X23.  A body that is the JSON value [null] is not a missing body: a
    like, a rating or a tracked download that carries it is answered 500 by
    the router, where a body that is not JSON at all is answered 400; neither
    store is read or written. *)
Theorem X23_null_body_is_a_server_error
    (corsHeaders : Env -> Request -> Headers) (new_URL : string -> option URL)
    (env : Env) (req : Request) (method pathname : string) (url : URL)
    (o : outside) (w : world) :
  rq_json req = Some VNull ->
  (method, pathname) ∈ [("POST", "/like"); ("POST", "/rate"); ("POST", "/download/track")] ->
  exists message,
    run o (Router.fetch corsHeaders new_URL env req method pathname url) w =
    (Returned (WithBody (err 500 message (corsHeaders env req))), w) /\
    is_empty message = false.
Proof.
  intros Hnull Hin. exists "TypeError". split; [|reflexivity].
  assert (readable (body_of req) = false) as R by (unfold body_of; now rewrite Hnull).
  rewrite fetch_run.
  repeat (apply elem_of_cons in Hin as [[= -> ->]|Hin]);
    [ | | | now apply elem_of_nil in Hin];
    cbn [String.eqb Ascii.eqb Bool.eqb]; unfold Router.route;
    match goal with
    | |- context [String.prefix ?a ?b] =>
        replace (String.prefix a b) with false by (vm_compute; reflexivity)
    end;
    cbn [String.eqb Ascii.eqb Bool.eqb andb].
  - now rewrite handleLike_run, R.
  - now rewrite handleRate_run, R.
  - now rewrite handleDownloadTrack_run, R.
Qed.

Lemma X23_witness :
  exists message,
    run (answering VNull)
        (Router.fetch open_cors https_URL sample_env
           (json_request "203.0.113.7" (Some VNull)) "POST" "/like" plain_url)
        rated_twice =
    (Returned (WithBody (err 500 message
                           (open_cors sample_env (json_request "203.0.113.7" (Some VNull))))),
     rated_twice) /\
    is_empty message = false.
Proof.
  apply (X23_null_body_is_a_server_error open_cors https_URL sample_env
           (json_request "203.0.113.7" (Some VNull)) "POST" "/like" plain_url
           (answering VNull) rated_twice eq_refl).
  apply list_elem_of_here.
Defined.

(** ** Submissions that fail *)

Section SubmitFailures.

Variables (env : Env) (req : Request) (cors : Headers).







End SubmitFailures.



(** ** From the writes to the views *)

Section Shown.



End Shown.



(** ** The range of the average rating *)

Section Range.






End Range.



(** ** The CORS headers of the answers *)

Section Cors.

Variable cors : Headers.
Hypothesis distinct : NoDup (map fst cors).

Lemma assoc_none {A : Type} (k : string) (l : list (string * A)) :
  k ∉ map fst l -> assoc k l = None.
Proof.
  induction l as [|[k0 v0] l IH]; cbn; [reflexivity|].
  intros H. apply not_elem_of_cons in H as [Ne H].
  destruct (String.eqb_spec k0 k); [congruence | now apply IH].
Qed.

Lemma assoc_elem {A : Type} (k : string) (v : A) (l : list (string * A)) :
  assoc k l = Some v -> k ∈ map fst l.
Proof.
  induction l as [|[k0 v0] l IH]; cbn; [discriminate|].
  destruct (String.eqb_spec k0 k) as [->|]; [intros _; apply list_elem_of_here|].
  intros H. apply list_elem_of_further. now apply IH.
Qed.

Lemma last_setting_distinct (l : Headers) (k v : string) :
  NoDup (map fst l) -> assoc k l = Some v -> last_setting k l = Some v.
Proof.
  unfold last_setting. induction l as [|[k0 v0] l IH]; cbn; [discriminate|].
  intros Hnd. inversion Hnd as [|? ? Hnot Hd]; subst.
  rewrite assoc_app. cbn [assoc].
  destruct (String.eqb_spec k0 k) as [->|Ne].
  - intros [= ->]. rewrite assoc_none; [reflexivity|].
    intros Hin. apply Hnot.
    apply list_elem_of_In in Hin. rewrite map_rev in Hin.
    apply in_rev in Hin. now apply list_elem_of_In.
  - intros H. now rewrite (IH Hd H).
Qed.

Lemma carries_self : carries cors cors.
Proof. intros k v H. exact H. Qed.

Lemma carries_with_cors (upstream : Headers) : carries cors (with_cors upstream cors).
Proof.
  intros k v H. rewrite with_cors_lookup.
  now rewrite (last_setting_distinct _ _ _ distinct H).
Qed.

Lemma carries_text : carries cors (text_headers cors).
Proof.
  unfold text_headers. destruct (assoc "content-type" cors); [apply carries_self|].
  intros k v H. rewrite assoc_app. now rewrite H.
Qed.

Lemma carries_json : carries cors (json_headers cors).
Proof. apply (carries_with_cors [("content-type", "application/json")]). Qed.

Lemma carries_ok (data : value) : answer_carries cors (Returned (ok data cors)).
Proof. apply carries_json. Qed.

Lemma carries_err (s : Z) (m : string) : answer_carries cors (Returned (err s m cors)).
Proof. apply carries_json. Qed.

Lemma always_anything {A : Type} (P : event -> Prop) (Q : outcome A -> Prop) (p : io A) :
  always P Q p -> always (fun _ => True) Q p.
Proof.
  induction p as [a|m|ns key k IH|ns key val ttl k IH|c k IH|k IH]; cbn; auto.
  - intros [_ H]. split; [exact I | intros v; apply IH, H].
  - intros [_ H]. split; [exact I | apply IH, H].
  - intros [_ H]. split; [exact I | intros r; apply IH, H].
Qed.

Variables (env : Env) (req : Request).

Ltac after tac :=
  apply always_then; [eapply always_anything; tac | | intros; exact I].

Lemma handleContent_carries :
  always (fun _ => True) (answer_carries cors) (handleContent env cors).
Proof.
  unfold handleContent. cbn. split; [exact I|]. intros r.
  destruct (negb (rs_ok r)); [apply carries_err|].
  after ltac:(apply map_all_always, enrich_always).
  intros merged. apply carries_ok.
Qed.

Lemma handleContentById_carries (id : string) :
  always (fun _ => True) (answer_carries cors) (handleContentById env id cors).
Proof.
  unfold handleContentById. cbn. split; [exact I|]. intros r.
  destruct (negb (rs_ok r)); [apply carries_err|].
  after ltac:(apply (find_item_always read_event)).
  intros item. destruct (negb (truthy item)); [apply carries_err|].
  cbn. repeat (split; [exact I|]; intros ?).
  repeat (apply get_always; [intros ? | exact I]). apply carries_ok.
Qed.

Lemma handleStats_carries :
  always (fun _ => True) (answer_carries cors) (handleStats env cors).
Proof.
  unfold handleStats. cbn. split; [exact I|]. intros r.
  destruct (negb (rs_ok r)); [apply carries_err|].
  after ltac:(apply map_all_always, stat_downloads_always).
  intros totalDownloads.
  after ltac:(apply (tally_always read_event)).
  intros categories.
  after ltac:(apply (tally_always read_event)).
  intros games. apply carries_ok.
Qed.

Lemma upload_all_carries (relId : value) (max : number) (files : list file)
    (acc : list FileMeta) :
  always (fun _ => True)
    (fun r => match r with
              | Returned (inl early) => carries cors (headers early)
              | _ => True
              end)
    (upload_all env relId max cors files acc).
Proof.
  revert acc. induction files as [|f rest IH]; intros acc; [exact I|].
  cbn [upload_all]. destruct (num_gt _ _); [apply carries_json|].
  cbn. split; [exact I|]. intros up.
  destruct (negb (rs_ok up)); cbn; [apply carries_json|].
  unfold json. destruct (rs_json up) as [[]|]; cbn; try exact I; apply IH.
Qed.

Lemma handleSubmit_carries :
  always (fun _ => True) (answer_carries cors) (handleSubmit env req cors).
Proof.
  unfold handleSubmit.
  destruct (negb (includes _ _)); [apply carries_err|].
  destruct (rq_form req) as [form|]; [|exact I].
  destruct (_ || _ || _ || _ || _); [apply carries_err|].
  after ltac:(apply (verifyCaptcha_always env (fun _ => True)); intros; exact I).
  intros passed. destruct (negb passed); [apply carries_err|].
  after ltac:(apply (monthlyRelease_always env (fun _ => True)); intros; exact I).
  intros relId. apply always_bind.
  generalize (upload_all_carries relId
                (ToNumber (nullish (MAX_FILE_BYTES env) (VStr "104857600")))
                (files_of form) []).
  apply always_mono. intros [[early|metas]|m]; [intros H; exact H | | intros; exact I].
  intros _.
  after ltac:(apply createIssue_always_calls).
  intros issue. apply carries_ok.
Qed.

Variable new_URL : string -> option URL.

Lemma route_carries (method pathname : string) (url : URL) (o : outside) (w : world) :
  answer_carries cors (run o (Router.route new_URL env req method pathname url cors) w).1.
Proof.
  unfold Router.route.
  destruct (_ && _);
    [exact (proj2 (always_run _ _ _ o w handleContent_carries))|].
  destruct (_ && _).
  { destruct (split "/" pathname !! 2%nat) as [id|]; [|apply carries_err].
    destruct (is_empty id); [apply carries_err|].
    exact (proj2 (always_run _ _ _ o w (handleContentById_carries id))). }
  destruct (_ && _).
  { rewrite handleLike_run. destruct (negb _); [exact I|].
    destruct (is_empty _); [apply carries_err|].
    destruct (marked _ _); [apply carries_err | apply carries_ok]. }
  destruct (_ && _).
  { rewrite handleRate_run. destruct (negb _); [exact I|].
    destruct (_ || _ || _); [apply carries_err|].
    destruct (marked _ _); [apply carries_err | apply carries_ok]. }
  destruct (_ && _).
  { rewrite handleDownload_run. destruct (new_URL _); [|apply carries_err].
    destruct (negb (allowed_host _)); [apply carries_err|]. cbv zeta.
    destruct (negb (rs_ok _)); [|apply carries_with_cors].
    destruct (refused _); [exact I | apply carries_text]. }
  destruct (_ && _).
  { rewrite handleDownloadTrack_run. destruct (negb _); [exact I|].
    destruct (is_empty _); [apply carries_err | apply carries_ok]. }
  destruct (_ && _);
    [exact (proj2 (always_run _ _ _ o w handleSubmit_carries))|].
  destruct (_ && _);
    [exact (proj2 (always_run _ _ _ o w handleStats_carries))|].
  exact carries_text.
Qed.

End Cors.

(** X27.  Every answer of the router carries the CORS headers: whatever the
    request, the route taken and its outcome (a success, a refusal, a 404, a
    preflight answer or a 500 after an error), each header that
    [corsHeaders] computed for the request is in the answer with its value,
    also on the proxied download, where it replaces an upstream header of the
    same name.  (The names of the computed headers are distinct, as in a
    [Headers] object.) *)
Theorem X27_every_answer_carries_cors
    (corsHeaders : Env -> Request -> Headers) (new_URL : string -> option URL)
    (env : Env) (req : Request) (method pathname : string) (url : URL)
    (o : outside) (w : world) :
  NoDup (map fst (corsHeaders env req)) ->
  exists reply,
    (run o (Router.fetch corsHeaders new_URL env req method pathname url) w).1 =
      Returned reply /\
    carries (corsHeaders env req) (reply_headers reply).
Proof.
  intros Hd. rewrite fetch_run.
  destruct (String.eqb method "OPTIONS").
  { eexists. split; [reflexivity | apply carries_self]. }
  pose proof (route_carries (corsHeaders env req) Hd env req new_URL method pathname
                url o w) as C.
  destruct (run o (Router.route _ _ _ _ _ _ _) w) as [[r|m] w']; cbn [fst] in *.
  - eexists. split; [reflexivity | exact C].
  - eexists. split; [reflexivity | now apply carries_json].
Qed.

Lemma X27_witness :
  exists reply,
    (run (refusing 503)
       (Router.fetch open_cors https_URL sample_env (json_request "203.0.113.7" None)
          "GET" "/stats" plain_url) empty_world).1 = Returned reply /\
    carries (open_cors sample_env (json_request "203.0.113.7" None))
      (reply_headers reply).
Proof.
  apply (X27_every_answer_carries_cors open_cors https_URL sample_env
           (json_request "203.0.113.7" None) "GET" "/stats" plain_url
           (refusing 503) empty_world).
  apply (bool_decide_unpack _). vm_compute. reflexivity.
Defined.

(** ** The entries of a form *)

Section Form.

Lemma raw_of_fold (form : list (string * form_value)) (acc : list (string * value))
    (k : string) :
  assoc k
    (fold_left
       (fun o kv =>
          match snd kv with
          | FStr s => assoc_set (fst kv) (VStr s) o
          | FFile _ => o
          end)
       form acc) =
  match last_text k form with
  | Some s => Some (VStr s)
  | None => assoc k acc
  end.
Proof.
  unfold last_text, last_setting. revert acc.
  induction form as [|[k0 [s|f]] form IH]; intros acc; [reflexivity| |].
  - cbn [fold_left fst snd texts omap list_omap]. rewrite IH.
    change (omap _ form) with (texts form).
    cbn [rev]. rewrite assoc_app.
    destruct (assoc k (rev (texts form))); [reflexivity|]. cbn [assoc].
    destruct (String.eqb_spec k0 k) as [->|Ne].
    + apply assoc_set_same.
    + now apply assoc_set_other.
  - cbn [fold_left fst snd texts omap list_omap]. apply IH.
Qed.

Lemma field_raw_of (form : list (string * form_value)) (k : string) :
  field (raw_of form) k =
  match last_text k form with
  | Some s => VStr s
  | None => VUndef
  end.
Proof.
  unfold field, raw_of. rewrite raw_of_fold. now destruct (last_text k form).
Qed.

Lemma texts_elem (form : list (string * form_value)) (k s : string) :
  (k, s) ∈ texts form -> (k, FStr s) ∈ form.
Proof.
  unfold texts. intros H. apply list_elem_of_omap in H as ([k0 v] & Hin & E).
  cbn in E. destruct v as [s0|f]; [|discriminate E]. now injection E as -> ->.
Qed.

Lemma assoc_pair {A : Type} (k : string) (v : A) (l : list (string * A)) :
  assoc k l = Some v -> (k, v) ∈ l.
Proof.
  induction l as [|[k0 v0] l IH]; cbn; [discriminate|].
  destruct (String.eqb_spec k0 k) as [->|].
  - intros [= ->]. apply list_elem_of_here.
  - intros H. apply list_elem_of_further. now apply IH.
Qed.

Lemma last_text_elem (form : list (string * form_value)) (k s : string) :
  last_text k form = Some s -> (k, FStr s) ∈ form.
Proof.
  unfold last_text, last_setting. intros H. apply assoc_pair in H.
  apply texts_elem. apply list_elem_of_In. apply list_elem_of_In in H.
  now apply in_rev.
Qed.

Lemma files_of_elem (form : list (string * form_value)) (f : file) :
  f ∈ files_of form -> ("files", FFile f) ∈ form.
Proof.
  unfold files_of. intros H. apply list_elem_of_omap in H as ([k0 v] & Hin & E).
  cbn in E. destruct v as [s|f0]; [discriminate E|].
  destruct (String.eqb_spec k0 "files") as [->|]; [|discriminate E].
  now injection E as ->.
Qed.

Variables (env : Env) (req : Request) (cors : Headers).

Lemma upload_all_uploads (form : list (string * form_value)) (relId : value)
    (files : list file) (acc : list FileMeta) :
  rq_form req = Some form ->
  (forall f, f ∈ files -> f ∈ files_of form) ->
  always (upload_ok env req) (fun _ => True)
    (upload_all env relId (max_bytes env) cors files acc).
Proof.
  intros Hform. revert acc. induction files as [|f rest IH]; intros acc Hsub; [exact I|].
  cbn [upload_all]. fold (too_large env f).
  destruct (too_large env f) eqn:Hf; [exact I|].
  cbn. split.
  - split; [|split; [reflexivity | exact Hf]].
    exists form. split; [exact Hform|]. apply files_of_elem, Hsub, list_elem_of_here.
  - intros up. destruct (negb (rs_ok up)); cbn; [exact I|].
    unfold json. destruct (rs_json up) as [[]|]; cbn; try exact I;
      apply IH; intros g Hg; apply Hsub; now apply list_elem_of_further.
Qed.

Lemma handleSubmit_uploads :
  always (upload_ok env req) (fun _ => True) (handleSubmit env req cors).
Proof.
  unfold handleSubmit.
  destruct (negb (includes _ _)); [exact I|].
  destruct (rq_form req) as [form|] eqn:Hform; [|exact I].
  destruct (_ || _ || _ || _ || _); [exact I|].
  apply always_then; [apply verifyCaptcha_always; intros; exact I | | intros; exact I].
  intros passed. destruct (negb passed); [exact I|].
  apply always_then;
    [apply monthlyRelease_always; intros; exact I | | intros; exact I].
  intros relId. fold (max_bytes env).
  apply always_then; [| | intros; exact I].
  - apply (upload_all_uploads form); [|auto].
    exact Hform.
  - intros [early|metas]; [exact I|].
    apply always_then; [| intros; exact I | intros; exact I].
    unfold createIssue. cbn. split; [exact I|]. intros r.
    destruct (negb (rs_ok r)); cbn; [exact I|].
    unfold json. destruct (rs_json r) as [[]|]; cbn; exact I.
Qed.

End Form.

(** X28.  What a submission uploads.  Whatever the request, the answers of
    the outside and the state, every upload that a submission makes is that
    of a [File] entry of the form under the name [files], under its sanitized
    name, and the file does not exceed the maximum: a file sent under another
    name is never uploaded, and neither is an oversize file. *)
Theorem X28_only_attached_files_are_uploaded
    (env : Env) (req : Request) (cors : Headers) (o : outside) (w : world) :
  Forall (upload_ok env req)
    (new_events w (run o (handleSubmit env req cors) w).2).
Proof.
  apply (always_run (upload_ok env req) (fun _ => True) _ o w).
  apply handleSubmit_uploads.
Qed.

(** X29.  The metadata of a submission come from the text entries of the
    form: each field is the last text entry of its name, trimmed, and the
    empty text when the form has no text entry of that name; a [File] entry
    is never a metadata field.  Hence a required field that is sent as a
    file only is missing, and the submission is answered 400 with no
    effect. *)
Theorem X29_metadata_from_text_entries
    (env : Env) (req : Request) (cors : Headers)
    (form : list (string * form_value)) (k : string) (o : outside) (w : world) :
  submitted form k = trim (default "" (last_text k form)) /\
  (forall s, last_text k form = Some s -> (k, FStr s) ∈ form) /\
  ((forall s, (k, FStr s) ∉ form) -> submitted form k = "") /\
  (includes "multipart/form-data" (content_type req) = true ->
   rq_form req = Some form -> k ∈ required_fields ->
   (forall s, (k, FStr s) ∉ form) ->
   run o (handleSubmit env req cors) w =
   (Returned (err 400 "Missing required fields" cors), w)).
Proof.
  assert (submitted form k = trim (default "" (last_text k form))) as E.
  { unfold submitted, norm. rewrite field_raw_of.
    now destruct (last_text k form). }
  assert ((forall s, (k, FStr s) ∉ form) -> submitted form k = "") as N.
  { intros H. rewrite E. destruct (last_text k form) as [s|] eqn:L; [|reflexivity].
    now destruct (H s (last_text_elem _ _ _ L)). }
  split; [exact E|]. split; [apply last_text_elem|]. split; [exact N|].
  intros Hct Hform Hk H.
  apply (handleSubmit_missing env req cors form Hform o w Hct).
  exists k. split; [exact Hk|]. now rewrite (N H).
Qed.

Lemma X29_witness :
  submitted odd_form "title" = "second" /\
  run (answering VNull) (handleSubmit sample_env (form_request odd_form) [])
      empty_world =
    (Returned (err 400 "Missing required fields" []), empty_world).
Proof.
  split.
  - apply (proj1 (X29_metadata_from_text_entries sample_env (form_request odd_form) []
                    odd_form "title" (answering VNull) empty_world)).
  - apply (proj2 (proj2 (proj2 (X29_metadata_from_text_entries sample_env
                                  (form_request odd_form) [] odd_form "category"
                                  (answering VNull) empty_world)))).
    + reflexivity.
    + reflexivity.
    + unfold required_fields. in_list.
    + intros s H. unfold odd_form in H.
      repeat (apply elem_of_cons in H as [H|H]; [discriminate H|]).
      now apply elem_of_nil in H.
Defined.
